(** * Capitol Wire: the ingestion server, both deployment variants

    A shallow embedding of [server.js].  The repository holds two versions of
    the server: variant A (ES modules; summarises on the server with Gemini,
    stores with [ON CONFLICT DO NOTHING], notifies through
    [sendFCMNotification]) and variant B (CommonJS; receives the summary from
    the caller, plain [INSERT], notification inlined in the handler).

    Strings are sequences of UTF-16 code units, JSON payloads are JavaScript
    values, and an [async] function is a state-and-exception computation over
    the outside world: the database, the number of [fetch] calls made so far
    and the chronological trace of outbound effects. *)

From Stdlib Require Import NArith ZArith List String Ascii Bool Lia.
From Stdlib Require Import DecimalString Sorted Permutation.
Import ListNotations.

Set Implicit Arguments.
Set Warnings "-register-all".
Open Scope list_scope.

(* ================================================================== *)
(** * JavaScript strings and values *)
(* ================================================================== *)

Module Js.

(** A JavaScript string: its UTF-16 code units. *)
Definition jsstring := list N.

(** An ASCII literal of the source as a JavaScript string. *)
Definition lit (s : string) : jsstring :=
  map N_of_ascii (list_ascii_of_string s).

(** The outcome of an evaluation or of an [await]: a value, or a thrown
    [Error] with its [message]. *)
Inductive Result (A : Type) : Type :=
| Ok (a : A)
| Throw (message : jsstring).

Arguments Ok {A} a.
Arguments Throw {A} message.

(** [a === b] on strings. *)
Fixpoint eqb (a b : jsstring) : bool :=
  match a, b with
  | [], [] => true
  | x :: a', y :: b' => N.eqb x y && eqb a' b'
  | _, _ => false
  end.

(** [s.startsWith(p)]. *)
Fixpoint startsWith (p s : jsstring) : bool :=
  match p, s with
  | [], _ => true
  | x :: p', y :: s' => N.eqb x y && startsWith p' s'
  | _ :: _, [] => false
  end.

(** [s.includes(p)]. *)
Fixpoint includes (p s : jsstring) : bool :=
  startsWith p s ||
  match s with
  | [] => false
  | _ :: s' => includes p s'
  end.

(** [`${n}`] for a non-negative integer. *)
Definition ofN (n : N) : jsstring :=
  lit (NilEmpty.string_of_uint (N.to_uint n)).

(** [`${z}`] for an integer. *)
Definition ofZ (z : Z) : jsstring :=
  match z with
  | Z0 => lit "0"
  | Zpos p => ofN (Npos p)
  | Zneg p => 45%N :: ofN (Npos p)
  end.

(** ECMAScript WhiteSpace and LineTerminator code points: what
    [String.prototype.trim] removes. *)
Definition isLineTerminator (c : N) : bool :=
  (N.eqb c 10 || N.eqb c 13 || N.eqb c 8232 || N.eqb c 8233)%N.

Definition isWhiteSpace (c : N) : bool :=
  (N.eqb c 9 || N.eqb c 11 || N.eqb c 12 || N.eqb c 32 || N.eqb c 160
   || N.eqb c 5760 || (N.leb 8192 c && N.leb c 8202)
   || N.eqb c 8239 || N.eqb c 8287 || N.eqb c 12288 || N.eqb c 65279)%N.

Definition isTrimmed (c : N) : bool := isWhiteSpace c || isLineTerminator c.

Fixpoint trimStart (s : jsstring) : jsstring :=
  match s with
  | c :: s' => if isTrimmed c then trimStart s' else s
  | [] => []
  end.

Definition trimEnd (s : jsstring) : jsstring := rev (trimStart (rev s)).

(** [s.trim()]. *)
Definition trim (s : jsstring) : jsstring := trimEnd (trimStart s).

(** [s.split(sep)] for a one-unit separator. *)
Fixpoint split (sep : N) (s : jsstring) : list jsstring :=
  match s with
  | [] => [[]]
  | c :: s' =>
      if N.eqb c sep then [] :: split sep s'
      else match split sep s' with
           | w :: ws => (c :: w) :: ws
           | [] => [[c]]
           end
  end.

(** [s.replace(/pat/g, rep)] for a literal, non-empty pattern: scanning from
    the left, each occurrence is replaced and the scan resumes after it.
    [skip] counts the units of the current occurrence still to be passed. *)
Fixpoint replaceFrom (pat rep : jsstring) (skip : nat) (s : jsstring) : jsstring :=
  match s with
  | [] => []
  | c :: s' =>
      match skip with
      | S k => replaceFrom pat rep k s'
      | O =>
          if startsWith pat s
          then rep ++ replaceFrom pat rep (pred (List.length pat)) s'
          else c :: replaceFrom pat rep 0 s'
      end
  end.

Definition replaceAll (pat rep s : jsstring) : jsstring := replaceFrom pat rep 0 s.

(** A value produced by [JSON.parse], or [undefined].  Numbers are the
    integers. *)
Inductive value : Type :=
| Undefined
| Null
| Bool (b : bool)
| Num (z : Z)
| Str (s : jsstring)
| Arr (items : list value)
| Obj (fields : list (jsstring * value)).

(** ToBoolean. *)
Definition truthy (v : value) : bool :=
  match v with
  | Undefined | Null => false
  | Bool b => b
  | Num z => negb (Z.eqb z 0)
  | Str s => match s with [] => false | _ => true end
  | Arr _ | Obj _ => true
  end.

(** [a || b]. *)
Definition or_else (a b : value) : value := if truthy a then a else b.

Fixpoint assoc (k : jsstring) (fields : list (jsstring * value)) : option value :=
  match fields with
  | [] => None
  | (k', v) :: rest => if eqb k k' then Some v else assoc k rest
  end.

(** [v.k] on a value that is neither [null] nor [undefined], for the property
    names the server reads ([data], [url], [author], [text], [html],
    [candidates], [content], [parts], [summary_text], [tweet_author],
    [tweet_url]): none of them is a built-in property of a string, number,
    boolean, array or plain object, so only an object's own field answers. *)
Definition prop (k : jsstring) (v : value) : value :=
  match v with
  | Obj fields => match assoc k fields with Some x => x | None => Undefined end
  | _ => Undefined
  end.

(** [v[0]] on a value that is neither [null] nor [undefined]. *)
Definition index0 (v : value) : value :=
  match v with
  | Arr (x :: _) => x
  | Str (c :: _) => Str [c]
  | Obj fields => match assoc (lit "0") fields with Some x => x | None => Undefined end
  | _ => Undefined
  end.

(** Optional chaining [v?.k] and [v?.[0]]. *)
Definition isNullish (v : value) : bool :=
  match v with Undefined | Null => true | _ => false end.

Definition opt_prop (k : jsstring) (v : value) : value :=
  if isNullish v then Undefined else prop k v.

Definition opt_index0 (v : value) : value :=
  if isNullish v then Undefined else index0 v.

(** ToString, as a template literal and [encodeURIComponent] apply it.  An
    array joins its elements with commas, [null] and [undefined] as nothing;
    a plain object prints as [[object Object]], unless it has a field named
    [toString]: that field, coming from JSON, is not callable, the inherited
    [valueOf] returns the object itself, and the conversion throws. *)
Fixpoint toStr (v : value) : Result jsstring :=
  match v with
  | Undefined => Ok (lit "undefined")
  | Null => Ok (lit "null")
  | Bool b => Ok (if b then lit "true" else lit "false")
  | Num z => Ok (ofZ z)
  | Str s => Ok s
  | Arr items =>
      (fix join (l : list value) : Result jsstring :=
         match l with
         | [] => Ok []
         | x :: rest =>
             match (match x with
                    | Undefined | Null => Ok []
                    | _ => toStr x
                    end) with
             | Throw e => Throw e
             | Ok a =>
                 match rest with
                 | [] => Ok a
                 | _ :: _ =>
                     match join rest with
                     | Ok b => Ok (a ++ 44%N :: b)
                     | Throw e => Throw e
                     end
                 end
             end
         end) items
  | Obj fields =>
      match assoc (lit "toString") fields with
      | Some _ => Throw (lit "Cannot convert object to primitive value")
      | None => Ok (lit "[object Object]")
      end
  end.

End Js.

Import Js.

(* ================================================================== *)
(** * The outside world and the computations over it *)
(* ================================================================== *)

(** A row of the [summaries] table.  [tweet_author] and [tweet_url] are
    nullable in variant A's schema. *)
Record Row : Type := {
  id : Z;
  created_at : Z;
  summary_text : jsstring;
  tweet_author : option jsstring;
  tweet_url : option jsstring
}.

(** The PostgreSQL backend: the table, the [SERIAL] sequence, the server's
    clock, and whether the backend currently fails every query (with which
    message). *)
Record Db : Type := {
  rows : list Row;
  next_id : Z;
  clock : Z;
  fault : option jsstring
}.

(** The three statements the handlers send. *)
Inductive Sql : Type :=
| InsertOnConflictDoNothing
    (* INSERT INTO summaries(summary_text, tweet_author, tweet_url)
       VALUES($1, $2, $3) ON CONFLICT (tweet_url) DO NOTHING RETURNING id *)
| InsertReturningAll
    (* INSERT INTO summaries (summary_text, tweet_author, tweet_url, created_at)
       VALUES ($1, $2, $3, NOW()) RETURNING * *)
| SelectRecent50.
    (* SELECT summary_text, tweet_author, tweet_url, created_at
       FROM summaries ORDER BY created_at DESC LIMIT 50 *)

(** An FCM message to a topic. *)
Record Notification : Type := {
  n_title : value;
  n_body : value;
  n_url : value;
  n_topic : jsstring
}.

Inductive Level : Type := log | warn | error.

(** Outbound effects, in the order they happen.  A [Fetch] with a [post] is
    the [POST] to Gemini: [post] is the text of the one part of its JSON
    body. *)
Inductive Event : Type :=
| Fetch (url : jsstring) (post : option jsstring)
| Sleep (ms : N)
| Query (text : Sql) (params : list (option jsstring))
| Send (message : Notification)
| Console (level : Level) (args : list value).

Record World : Type := {
  db : Db;
  nfetch : nat;
  trace : list Event
}.

(** What [fetch] resolves to, and what reading its body gives. *)
Record Response : Type := {
  status : N;
  text : Result jsstring;
  json : Result value
}.

Inductive FetchOutcome : Type :=
| Rejected (message : jsstring)
| Responded (r : Response).

(** [res.ok]. *)
Definition ok (r : Response) : bool :=
  (N.leb 200 (status r) && N.leb (status r) 299)%N.

(** ** The monad of [async] functions *)

Definition M (A : Type) : Type := World -> Result A * World.

Definition ret {A} (a : A) : M A := fun w => (Ok a, w).

Definition throw {A} (message : jsstring) : M A := fun w => (Throw message, w).

Definition bind {A B} (m : M A) (k : A -> M B) : M B :=
  fun w =>
    match m w with
    | (Ok a, w') => k a w'
    | (Throw e, w') => (Throw e, w')
    end.

(** [try { m } catch (err) { handler }]. *)
Definition try_catch {A} (m : M A) (handler : jsstring -> M A) : M A :=
  fun w =>
    match m w with
    | (Ok a, w') => (Ok a, w')
    | (Throw e, w') => handler e w'
    end.

Definition lift {A} (r : Result A) : M A := fun w => (r, w).

Declare Scope js_scope.
Delimit Scope js_scope with js.
Notation "x <- m ;; k" := (bind m (fun x => k))
  (at level 100, m at next level, right associativity) : js_scope.
Notation "m ;; k" := (bind m (fun _ => k))
  (at level 100, right associativity) : js_scope.
Open Scope js_scope.

Definition emit (e : Event) : M unit :=
  fun w => (Ok tt, {| db := db w; nfetch := nfetch w; trace := trace w ++ [e] |}).

Definition console (l : Level) (args : list value) : M unit := emit (Console l args).

(** [await new Promise(r => setTimeout(r, ms))]. *)
Definition sleep (ms : N) : M unit := emit (Sleep ms).

(** [v.k], which throws a [TypeError] on [null] and [undefined]. *)
Definition member (k : jsstring) (v : value) : Result value :=
  match v with
  | Undefined => Throw (lit "Cannot read properties of undefined")
  | Null => Throw (lit "Cannot read properties of null")
  | _ => Ok (prop k v)
  end.

(** ** PostgreSQL *)

Module Pg.

Definition has_url (u : jsstring) (r : Row) : bool :=
  match tweet_url r with
  | Some u' => eqb u u'
  | None => false
  end.

(** A row with this non-null [tweet_url] exists. *)
Definition stored (u : jsstring) (t : list Row) : bool := existsb (has_url u) t.

Definition count_url (u : jsstring) (t : list Row) : nat :=
  List.length (filter (has_url u) t).

(** The [UNIQUE] constraint on [tweet_url]: nulls never conflict. *)
Definition conflicts (url : option jsstring) (t : list Row) : bool :=
  match url with
  | Some u => stored u t
  | None => false
  end.

Definition new_row (d : Db) (summary : jsstring) (author url : option jsstring) : Row :=
  {| id := next_id d; created_at := clock d;
     summary_text := summary; tweet_author := author; tweet_url := url |}.

(** [INSERT ... ON CONFLICT (tweet_url) DO NOTHING RETURNING id]: the rows
    returned and the database afterwards.  The sequence value drawn for [id]
    is consumed whether or not the row is kept. *)
Definition insert_do_nothing (summary : jsstring) (author url : option jsstring)
    (d : Db) : list Row * Db :=
  if conflicts url (rows d)
  then ([], {| rows := rows d; next_id := next_id d + 1;
               clock := clock d; fault := fault d |})
  else let r := new_row d summary author url in
       ([r], {| rows := rows d ++ [r]; next_id := next_id d + 1;
                clock := clock d; fault := fault d |}).

(** [INSERT ... RETURNING *] into variant B's table, which declares no
    constraint besides [NOT NULL]. *)
Definition insert_plain (summary : jsstring) (author url : option jsstring)
    (d : Db) : list Row * Db :=
  let r := new_row d summary author url in
  ([r], {| rows := rows d ++ [r]; next_id := next_id d + 1;
           clock := clock d; fault := fault d |}).

(** [ORDER BY created_at DESC]: a stable insertion sort, newest first. *)
Fixpoint insert_desc (r : Row) (sorted : list Row) : list Row :=
  match sorted with
  | [] => [r]
  | x :: rest =>
      if Z.leb (created_at x) (created_at r) then r :: sorted
      else x :: insert_desc r rest
  end.

Definition order_by_created_at_desc (t : list Row) : list Row :=
  fold_right insert_desc [] t.

(** [SELECT ... ORDER BY created_at DESC LIMIT 50]. *)
Definition select_recent (t : list Row) : list Row :=
  firstn 50 (order_by_created_at_desc t).

End Pg.

(** [res.rows] and [res.rowCount] of a query result. *)
Record QueryResult : Type := {
  result_rows : list Row;
  rowCount : nat
}.

Definition mkResult (l : list Row) : QueryResult :=
  {| result_rows := l; rowCount := List.length l |}.

(** [pool.query(text, params)]: rejects when the backend is at fault, runs
    the statement otherwise.  Each statement is sent with the number of
    parameters it names, so the last case is a [NULL] for a column declared
    [NOT NULL]: [summary_text] in both schemas, all three in variant B's. *)
Definition pool_query (q : Sql) (params : list (option jsstring)) : M QueryResult :=
  fun w =>
    let w1 := {| db := db w; nfetch := nfetch w; trace := trace w ++ [Query q params] |} in
    match fault (db w) with
    | Some e => (Throw e, w1)
    | None =>
        let run (f : Db -> list Row * Db) :=
          let (out, d') := f (db w) in
          (Ok (mkResult out),
           {| db := d'; nfetch := nfetch w1; trace := trace w1 |}) in
        match q, params with
        | InsertOnConflictDoNothing, [Some summary; author; url] =>
            run (Pg.insert_do_nothing summary author url)
        | InsertReturningAll, [Some summary; Some author; Some url] =>
            run (Pg.insert_plain summary (Some author) (Some url))
        | SelectRecent50, [] =>
            (Ok (mkResult (Pg.select_recent (rows (db w)))), w1)
        | _, _ => (Throw (lit "null value violates not-null constraint"), w1)
        end
    end.

(** ** Requests, responses, configuration *)

(** [process.env]: each variable is a string or unset. *)
Record ProcessEnv : Type := {
  env_PORT : option jsstring;
  env_GEMINI_API_KEY : option jsstring;
  env_INGEST_SECRET : option jsstring;
  env_DATABASE_URL : option jsstring;
  env_FCM_SERVICE_ACCOUNT_B64 : option jsstring;
  env_FIREBASE_SERVICE_ACCOUNT : option jsstring
}.

(** A string-or-[undefined] as a value. *)
Definition maybe (o : option jsstring) : value :=
  match o with
  | Some s => Str s
  | None => Undefined
  end.

(** [o || d] where [o] is a string or [undefined]. *)
Definition or_str (o : option jsstring) (d : jsstring) : jsstring :=
  match o with
  | Some (c :: s) => c :: s
  | _ => d
  end.

(** An inbound request: [req.headers] as Node builds it (names in lower
    case, one string per name) and [req.body] as [express.json()] leaves it. *)
Record Request : Type := {
  headers : list (jsstring * jsstring);
  body : value
}.

Fixpoint header (name : jsstring) (hs : list (jsstring * jsstring)) : option jsstring :=
  match hs with
  | [] => None
  | (k, v) :: rest => if eqb name k then Some v else header name rest
  end.

(** [toLowerCase] on an ASCII header name. *)
Definition toLowerCase (s : jsstring) : jsstring :=
  map (fun c => if (N.leb 65 c && N.leb c 90)%N then (c + 32)%N else c) s.

(** [req.get(name)]: case-insensitive. *)
Definition req_get (name : jsstring) (req : Request) : option jsstring :=
  header (toLowerCase name) (headers req).

(** One of the four columns [/feed] selects. *)
Record FeedItem : Type := {
  item_summary_text : jsstring;
  item_tweet_author : option jsstring;
  item_tweet_url : option jsstring;
  item_created_at : Z
}.

Definition feed_item (r : Row) : FeedItem :=
  {| item_summary_text := summary_text r; item_tweet_author := tweet_author r;
     item_tweet_url := tweet_url r; item_created_at := created_at r |}.

(** The JSON bodies the handlers send. *)
Inductive Payload : Type :=
| Plain (text : jsstring)                                (* res.send(text) *)
| Failure (ok_field : option bool) (error : jsstring)    (* { ok: false, error } or { error } *)
| Summarised (summary : jsstring) (saved pushed : bool)  (* { ok: true, summary, saved, pushed } *)
| Feed (feed : list FeedItem)                            (* { ok: true, feed } *)
| Item (item : option Row).                              (* { ok: true, item } *)

Record HttpResponse : Type := {
  code : N;
  payload : Payload
}.

(** The [ok] field of a response body, when it has one. *)
Definition ok_flag (p : Payload) : option bool :=
  match p with
  | Plain _ => None
  | Failure o _ => o
  | Summarised _ _ _ | Feed _ | Item _ => Some true
  end.

Definition msg (s : string) : value := Str (lit s).

(** A query parameter as node-postgres sends it: [null] and [undefined] as
    SQL [NULL], a string as itself, anything else in the text form [pgText]
    that the driver gives it. *)
Definition sqlParam (pgText : value -> jsstring) (v : value) : option jsstring :=
  match v with
  | Undefined | Null => None
  | Str s => Some s
  | _ => Some (pgText v)
  end.

(* ================================================================== *)
(** * Variant A *)
(* ================================================================== *)

Module VariantA.

(** ** The regular expressions of the source *)

(** [[^>]*>]: what follows the first [>]. *)
Fixpoint afterGt (s : jsstring) : option jsstring :=
  match s with
  | [] => None
  | c :: s' => if N.eqb c 62 then Some s' else afterGt s'
  end.

(** [(.*?)<\/p>]: the shortest run of units other than line terminators that
    is followed by the closing tag. *)
Fixpoint untilCloseP (s : jsstring) : option jsstring :=
  if startsWith (lit "</p>") s then Some []
  else match s with
       | [] => None
       | c :: s' =>
           if isLineTerminator c then None
           else option_map (cons c) (untilCloseP s')
       end.

(** [/<p[^>]*>(.*?)<\/p>/] anchored at the start of [s]: group 1. *)
Definition paragraphAt (s : jsstring) : option jsstring :=
  if startsWith (lit "<p") s
  then match afterGt (skipn 2 s) with
       | Some inner => untilCloseP inner
       | None => None
       end
  else None.

(** [html.match(/<p[^>]*>(.*?)<\/p>/)]: group 1 of the leftmost match. *)
Fixpoint matchParagraph (html : jsstring) : option jsstring :=
  match paragraphAt html with
  | Some g => Some g
  | None =>
      match html with
      | [] => None
      | _ :: rest => matchParagraph rest
      end
  end.

(** The length of a [[^>]*>] prefix, the [>] included. *)
Fixpoint tagLength (s : jsstring) : option nat :=
  match s with
  | [] => None
  | c :: s' => if N.eqb c 62 then Some 1 else option_map S (tagLength s')
  end.

(** [s.replace(/<[^>]+>/g, '')]; [skip] counts the units of the current tag
    still to be dropped. *)
Fixpoint stripTagsFrom (skip : nat) (s : jsstring) : jsstring :=
  match s with
  | [] => []
  | c :: s' =>
      match skip with
      | S k => stripTagsFrom k s'
      | O =>
          if N.eqb c 60
          then match tagLength s' with
               | Some (S (S n)) => stripTagsFrom (S (S n)) s'
               | _ => c :: stripTagsFrom 0 s'
               end
          else c :: stripTagsFrom 0 s'
      end
  end.

Definition stripTags (s : jsstring) : jsstring := stripTagsFrom 0 s.

(** The five [replace] calls that follow, in the order of the source. *)
Definition decodeEntities (s : jsstring) : jsstring :=
  replaceAll (lit "&#39;") (lit "'")
    (replaceAll (lit "&quot;") [34%N]
      (replaceAll (lit "&gt;") (lit ">")
        (replaceAll (lit "&lt;") (lit "<")
          (replaceAll (lit "&amp;") (lit "&") s)))).

(** Lines 179-182: the snippet of an oEmbed [html] fragment, if a paragraph
    matches. *)
Definition snippet (html : jsstring) : option jsstring :=
  option_map (fun g => decodeEntities (stripTags g)) (matchParagraph html).

(** [[^\/]+\/]: the run before the next slash. *)
Fixpoint untilSlash (s : jsstring) : option jsstring :=
  match s with
  | [] => None
  | c :: s' => if N.eqb c 47 then Some [] else option_map (cons c) (untilSlash s')
  end.

Definition handleAt (s : jsstring) : option jsstring :=
  if startsWith (lit "x.com/") s
  then match untilSlash (skipn 6 s) with
       | Some (c :: run) => Some (c :: run)
       | _ => None
       end
  else None.

(** [url.match(/x\.com\/([^\/]+)\//)]: group 1 of the leftmost match. *)
Fixpoint matchHandle (url : jsstring) : option jsstring :=
  match handleAt url with
  | Some g => Some g
  | None =>
      match url with
      | [] => None
      | _ :: rest => matchHandle rest
      end
  end.

Section Server.

(** The process environment and the collaborators outside the source:
    the network ([net n url] answers the [n]-th [fetch] of the process when it
    goes to [url]), [encodeURIComponent] on a string (which throws on a lone
    surrogate), node-postgres' text form of a parameter that is not a string,
    [admin.messaging().send], and the decoding and [admin.initializeApp] of
    the service account at start-up. *)
Variable env : ProcessEnv.
Variable net : nat -> jsstring -> FetchOutcome.
Variable encodeURIComponent : jsstring -> Result jsstring.
Variable pgText : value -> jsstring.
Variable messaging_send : Notification -> Result jsstring.
Variable firebase_init : jsstring -> Result unit.

Definition GEMINI_KEY : option jsstring := env_GEMINI_API_KEY env.
Definition INGEST_SECRET : jsstring := or_str (env_INGEST_SECRET env) [].
Definition DATABASE_URL : option jsstring := env_DATABASE_URL env.
Definition FCM_SERVICE_ACCOUNT_B64 : option jsstring := env_FCM_SERVICE_ACCOUNT_B64 env.

(** [encodeURIComponent(v)]: ToString, then the encoding. *)
Definition encodeValue (v : value) : Result jsstring :=
  match toStr v with
  | Ok s => encodeURIComponent s
  | Throw e => Throw e
  end.

Definition assertAuthorized (req : Request) : bool :=
  if negb (truthy (Str INGEST_SECRET)) then true
  else
    let h := or_str (req_get (lit "X-HillPulse-Key") req)
               (or_str (req_get (lit "Authorization") req) []) in
    eqb h INGEST_SECRET || eqb h (lit "Bearer " ++ INGEST_SECRET).

Definition fetch (url : jsstring) (post : option jsstring) : M Response :=
  fun w =>
    let w' := {| db := db w; nfetch := S (nfetch w);
                 trace := trace w ++ [Fetch url post] |} in
    match net (nfetch w) url with
    | Rejected e => (Throw e, w')
    | Responded r => (Ok r, w')
    end.

Definition query (text : Sql) (params : list (option jsstring)) : M QueryResult :=
  if negb (truthy (maybe DATABASE_URL))
  then throw (lit "Missing DATABASE_URL environment variable.")
  else pool_query text params.

Definition saveSummaryToDB (summary : jsstring) (author url : value) : M bool :=
  if negb (truthy (maybe DATABASE_URL))
  then console warn [msg "Skipping DB save: DATABASE_URL is not set."] ;; ret false
  else
    try_catch
      (res <- query InsertOnConflictDoNothing
                [Some summary; sqlParam pgText author; sqlParam pgText url] ;;
       ret (0 <? rowCount res))
      (fun e => console error [msg "DB Insert Failed:"; Str e] ;; ret false).

(** Lines 78-95, run once when the module loads. *)
Definition fcmInitialized : bool :=
  match FCM_SERVICE_ACCOUNT_B64 with
  | Some (c :: s) =>
      match firebase_init (c :: s) with
      | Ok _ => true
      | Throw _ => false
      end
  | _ => false
  end.

Definition send (n : Notification) : M jsstring :=
  emit (Send n) ;; lift (messaging_send n).

Definition sendFCMNotification (title : value) (message : jsstring) (url : value) : M bool :=
  if negb fcmInitialized
  then console warn [msg "Skipping FCM: Firebase Admin SDK not initialized."] ;; ret false
  else
    let topic := lit "hillpulse_updates" in
    let notification :=
      {| n_title := or_else title (msg "The Capitol Wire");
         n_body := Str message;
         n_url := or_else url (Str []);
         n_topic := topic |} in
    try_catch
      (response <- send notification ;;
       console log [msg "Successfully sent FCM message:"; Str response] ;;
       ret true)
      (fun e => console error [msg "FCM Send Failed:"; Str e] ;; ret false).

Definition MAX_RETRIES : nat := 5.

Definition endpoint (key : jsstring) : jsstring :=
  lit "https://generativelanguage.googleapis.com/v1/models/gemini-2.5-flash-lite:generateContent?key="
  ++ key.

(** [data?.candidates?.[0]?.content?.parts?.[0]?.text]. *)
Definition firstText (data : value) : value :=
  opt_prop (lit "text")
    (opt_index0
      (opt_prop (lit "parts")
        (opt_prop (lit "content")
          (opt_index0
            (opt_prop (lit "candidates") data))))).

(** The body of the [try] block, lines 144-156: one request and the reading
    of its response. *)
Definition attemptOnce (url : jsstring) (post : jsstring) : M jsstring :=
  res <- fetch url (Some post) ;;
  if N.eqb (status res) 503 then throw (lit "Gemini overload 503")
  else if negb (ok res) then
    let t := match text res with Ok t => t | Throw _ => [] end in
    throw (lit "Gemini error " ++ ofN (status res) ++ lit ": " ++ t)
  else
    data <- lift (json res) ;;
    let out := or_else (firstText data) (Str []) in
    match out with
    | Str s => ret (trim s)
    | _ => throw (lit "out.trim is not a function")
    end.

Definition errMessage (lastErr : option jsstring) : jsstring :=
  match lastErr with
  | Some m => m
  | None => lit "undefined"
  end.

(** The [while (attempt <= MAX_RETRIES)] loop and the [throw] after it.
    [left] is [MAX_RETRIES + 1 - attempt], the number of iterations the guard
    still allows: it is [0] exactly when the guard fails. *)
Fixpoint retryLoop (left attempt : nat) (lastErr : option jsstring)
    (url : jsstring) (post : jsstring) : M jsstring :=
  match left with
  | O =>
      throw (lit "Gemini failed after " ++ ofN (N.of_nat (MAX_RETRIES + 1))
             ++ lit " attempts: " ++ errMessage lastErr)
  | S left' =>
      try_catch (attemptOnce url post)
        (fun err =>
           let attempt := S attempt in
           (if attempt <=? MAX_RETRIES
            then
              let delay := 8000%N in
              console warn
                [Str (lit "Gemini attempt " ++ ofN (N.of_nat attempt)
                      ++ lit " failed (" ++ err ++ lit "). Retrying in "
                      ++ ofN (delay / 1000) ++ lit "s...")] ;;
              sleep delay
            else ret tt) ;;
           retryLoop left' attempt (Some err) url post)
  end.

Definition prompt : jsstring :=
  lit "Summarize this tweet for Hill comms staff in 6" ++ [8211%N]
  ++ lit "17 words. Aim for around 180 characters. Use shorthand and abbreviations when clear. Be factual and neutral. Always start with @username: ...".

(** The template literal of line 136, its three holes filled. *)
Definition promptText (text author url : jsstring) : jsstring :=
  prompt ++ [10%N; 10%N] ++ lit "Tweet text: " ++ text
  ++ [10%N] ++ lit "Tweet author: @" ++ author
  ++ [10%N] ++ lit "Tweet URL: " ++ url.

Definition callGeminiSummary (text author url : value) : M jsstring :=
  if negb (truthy (maybe GEMINI_KEY)) then throw (lit "Missing GEMINI_API_KEY")
  else
    key <- lift (encodeValue (maybe GEMINI_KEY)) ;;
    text <- lift (toStr text) ;;
    author <- lift (toStr author) ;;
    url <- lift (toStr url) ;;
    retryLoop (MAX_RETRIES + 1 - 0) 0 None (endpoint key) (promptText text author url).

Definition oEmbedUrl (encoded : jsstring) : jsstring :=
  lit "https://publish.twitter.com/oembed?omit_script=1&hide_thread=1&url=" ++ encoded.

Definition syndUrl (encoded : jsstring) : jsstring :=
  lit "https://cdn.syndication.twimg.com/widgets/tweet?url=" ++ encoded.

(** Lines 176-183: [Some] when the function returns there. *)
Definition primary (r1 : Response) : M (option value) :=
  if ok r1 then
    data <- lift (json r1) ;;
    h <- lift (member (lit "html") data) ;;
    match or_else h (Str []) with
    | Str html => ret (option_map Str (snippet html))
    | _ => throw (lit "html.match is not a function")
    end
  else ret None.

(** Lines 186-189. *)
Definition secondary (r2 : Response) : M (option value) :=
  if ok r2 then
    data2 <- lift (json r2) ;;
    t <- lift (member (lit "text") data2) ;;
    if truthy t then ret (Some t) else ret None
  else ret None.

Definition fetchTweetText (url : value) : M value :=
  if negb (truthy url) then ret (Str [])
  else
    returned <-
      try_catch
        (enc <- lift (encodeValue url) ;;
         r1 <- fetch (oEmbedUrl enc) None ;;
         found <- primary r1 ;;
         match found with
         | Some v => ret (Some v)
         | None =>
             enc2 <- lift (encodeValue url) ;;
             r2 <- fetch (syndUrl enc2) None ;;
             secondary r2
         end)
        (fun err => console error [msg "Tweet fetch failed:"; Str err] ;; ret None) ;;
    match returned with
    | Some v => ret v
    | None => ret (Str [])
    end.

(** [app.get('/')]. *)
Definition root : M HttpResponse :=
  ret {| code := 200;
         payload := Plain (lit "HillPulse v2.0.0 running with Gemini, Postgres & FCM") |}.

(** [url.match(...)] on the truthy [url] of the handler. *)
Definition urlMatch (url : value) : Result (option jsstring) :=
  match url with
  | Str s => Ok (matchHandle s)
  | _ => Throw (lit "url.match is not a function")
  end.

(** [app.post('/ingest')]. *)
Definition ingest (req : Request) : M HttpResponse :=
  try_catch
    (if negb (assertAuthorized req)
     then ret {| code := 401; payload := Failure (Some false) (lit "Unauthorized") |}
     else
       let body := or_else (body req) (Obj []) in
       let tweet := or_else (prop (lit "data") body) (Obj []) in
       let url := or_else (prop (lit "url") tweet) (Str []) in
       let author := prop (lit "author") tweet in
       author <-
         (if negb (truthy author) && truthy url
          then m <- lift (urlMatch url) ;;
               match m with
               | Some (c :: g) => ret (Str (c :: g))
               | _ => ret author
               end
          else ret author) ;;
       let text := or_else (prop (lit "text") tweet) (Str []) in
       text <- (if negb (truthy text) && truthy url then fetchTweetText url else ret text) ;;
       if negb (truthy text)
       then ret {| code := 400; payload := Failure (Some false) (lit "Missing tweet text") |}
       else
         summary <- callGeminiSummary text author url ;;
         saved <- saveSummaryToDB summary author url ;;
         pushed <- sendFCMNotification (msg "The Capitol Wire") summary url ;;
         ret {| code := 200; payload := Summarised summary saved pushed |})
    (fun e =>
       console error [Str e] ;;
       ret {| code := 500; payload := Failure (Some false) e |}).

(** [app.get('/feed')]. *)
Definition feed : M HttpResponse :=
  try_catch
    (result <- query SelectRecent50 [] ;;
     ret {| code := 200; payload := Feed (map feed_item (result_rows result)) |})
    (fun e =>
       console error [msg "Feed Retrieval Failed:"; Str e] ;;
       ret {| code := 500; payload := Failure (Some false) e |}).

End Server.

End VariantA.

(* ================================================================== *)
(** * Variant B *)
(* ================================================================== *)

Module VariantB.

Section Server.

Variable env : ProcessEnv.
Variable pgText : value -> jsstring.
Variable messaging_send : Notification -> Result jsstring.
Variable firebase_init : jsstring -> Result unit.

(** [a !== b] on two strings-or-[undefined]. *)
Definition differs (a b : option jsstring) : bool :=
  match a, b with
  | Some x, Some y => negb (eqb x y)
  | None, None => false
  | _, _ => true
  end.

(** [admin.apps.length] once the module has loaded: one app when the service
    account was supplied and [initializeApp] accepted it. *)
Definition apps_length : nat :=
  match env_FIREBASE_SERVICE_ACCOUNT env with
  | Some (c :: s) =>
      match firebase_init (c :: s) with
      | Ok _ => 1
      | Throw _ => 0
      end
  | _ => 0
  end.

Definition send (n : Notification) : M jsstring :=
  emit (Send n) ;; lift (messaging_send n).

(** The guard of line 336. *)
Definition unauthorized (req : Request) : bool :=
  match header (lit "authorization") (headers req) with
  | Some (c :: h) =>
      let authHeader := c :: h in
      negb (startsWith (lit "Bearer ") authHeader)
      || differs (nth_error (split 32 authHeader) 1) (env_INGEST_SECRET env)
  | _ => true
  end.

(** [app.get('/feed')]. *)
Definition feed : M HttpResponse :=
  try_catch
    (result <- pool_query SelectRecent50 [] ;;
     ret {| code := 200; payload := Feed (map feed_item (result_rows result)) |})
    (fun e =>
       console error [msg "Feed Error:"; Str e] ;;
       ret {| code := 500; payload := Failure (Some false) (lit "Internal Server Error") |}).

(** [app.post('/ingest')]. *)
Definition ingest (req : Request) : M HttpResponse :=
  if unauthorized req
  then ret {| code := 401; payload := Failure None (lit "Unauthorized") |}
  else
    summary_text <- lift (member (lit "summary_text") (body req)) ;;
    tweet_author <- lift (member (lit "tweet_author") (body req)) ;;
    tweet_url <- lift (member (lit "tweet_url") (body req)) ;;
    if negb (truthy summary_text) || negb (truthy tweet_author) || negb (truthy tweet_url)
    then ret {| code := 400;
                payload := Failure None
                  (lit "Missing required fields: summary_text, tweet_author, tweet_url") |}
    else
      try_catch
        (result <- pool_query InsertReturningAll
                     [sqlParam pgText summary_text; sqlParam pgText tweet_author;
                      sqlParam pgText tweet_url] ;;
         let savedItem := nth_error (result_rows result) 0 in
         (if 0 <? apps_length
          then
            let message :=
              {| n_topic := lit "hillpulse_updates";
                 n_title := msg "The Capitol Wire";
                 n_body := summary_text;
                 n_url := tweet_url |} in
            try_catch
              (_ <- send message ;;
               console log [msg "FCM Notification sent for:"; tweet_author])
              (fun fcmError => console error [msg "FCM Send Error:"; Str fcmError])
          else ret tt) ;;
         ret {| code := 200; payload := Item savedItem |})
        (fun e =>
           console error [msg "Ingest Error:"; Str e] ;;
           ret {| code := 500; payload := Failure None (lit "Internal Server Error") |}).

End Server.

End VariantB.

(* ================================================================== *)
(** * Sample deployments, requests and backends *)
(* ================================================================== *)

Module Sample.

(** A deployment with every variable set. *)
Definition env : ProcessEnv :=
  {| env_PORT := None;
     env_GEMINI_API_KEY := Some (lit "g-key");
     env_INGEST_SECRET := Some (lit "s3cret");
     env_DATABASE_URL := Some (lit "postgres://db/wire");
     env_FCM_SERVICE_ACCOUNT_B64 := Some (lit "e30=");
     env_FIREBASE_SERVICE_ACCOUNT := Some (lit "{}") |}.

(** The same without [INGEST_SECRET]. *)
Definition envNoSecret : ProcessEnv :=
  {| env_PORT := None;
     env_GEMINI_API_KEY := Some (lit "g-key");
     env_INGEST_SECRET := None;
     env_DATABASE_URL := Some (lit "postgres://db/wire");
     env_FCM_SERVICE_ACCOUNT_B64 := Some (lit "e30=");
     env_FIREBASE_SERVICE_ACCOUNT := Some (lit "{}") |}.

(** The same without [GEMINI_API_KEY]. *)
Definition envNoKey : ProcessEnv :=
  {| env_PORT := None;
     env_GEMINI_API_KEY := None;
     env_INGEST_SECRET := Some (lit "s3cret");
     env_DATABASE_URL := Some (lit "postgres://db/wire");
     env_FCM_SERVICE_ACCOUNT_B64 := Some (lit "e30=");
     env_FIREBASE_SERVICE_ACCOUNT := Some (lit "{}") |}.

(** The same without a Firebase service account. *)
Definition envNoFirebase : ProcessEnv :=
  {| env_PORT := None;
     env_GEMINI_API_KEY := Some (lit "g-key");
     env_INGEST_SECRET := Some (lit "s3cret");
     env_DATABASE_URL := Some (lit "postgres://db/wire");
     env_FCM_SERVICE_ACCOUNT_B64 := None;
     env_FIREBASE_SERVICE_ACCOUNT := None |}.

Definition hexDigit (n : N) : N :=
  (if n <? 10 then 48 + n else 55 + n)%N.

Definition isUnreserved (c : N) : bool :=
  ((65 <=? c) && (c <=? 90) || (97 <=? c) && (c <=? 122) || (48 <=? c) && (c <=? 57)
   || existsb (N.eqb c) [45; 95; 46; 33; 126; 42; 39; 40; 41])%N.

(** [encodeURIComponent] on strings of ASCII units; anything else is refused
    here. *)
Definition encodeURIComponent (s : jsstring) : Result jsstring :=
  if forallb (fun c => c <? 128)%N s
  then Ok (flat_map (fun c => if isUnreserved c then [c]
                              else [37; hexDigit (c / 16); hexDigit (c mod 16)])%N s)
  else Throw (lit "URI malformed").

Definition pgText (v : value) : jsstring := lit "{}".

Definition sendOk (n : Notification) : Result jsstring :=
  Ok (lit "projects/wire/messages/1").

Definition sendFails (n : Notification) : Result jsstring :=
  Throw (lit "messaging/server-unavailable").

Definition initOk (account : jsstring) : Result unit := Ok tt.

(** A backend that refuses every connection. *)
Definition netDown (n : nat) (url : jsstring) : FetchOutcome :=
  Rejected (lit "fetch failed").

(** A backend that answers every request with status [200] and this JSON. *)
Definition netJson (data : value) (n : nat) (url : jsstring) : FetchOutcome :=
  Responded {| status := 200; text := Ok []; json := Ok data |}.

(** A backend that is down for the first [k] requests and answers the
    later ones with status [200] and this JSON. *)
Definition netAfter (k : nat) (data : value) (n : nat) (url : jsstring) : FetchOutcome :=
  if n <? k then Rejected (lit "fetch failed")
  else Responded {| status := 200; text := Ok []; json := Ok data |}.

(** A Gemini answer with one candidate. *)
Definition geminiAnswer (s : string) : value :=
  Obj [(lit "candidates",
        Arr [Obj [(lit "content",
                   Obj [(lit "parts", Arr [Obj [(lit "text", msg s)]])])]])].

(** An oEmbed answer with this [html]. *)
Definition oEmbedAnswer (html : string) : value :=
  Obj [(lit "url", msg "https://x.com/a/status/1"); (lit "html", msg html)].

(** An empty database that works. *)
Definition world : World :=
  {| db := {| rows := []; next_id := 1; clock := 1700000000; fault := None |};
     nfetch := 0;
     trace := [] |}.

(** [POST /ingest] with the given headers and [{ data: { text, url } }]. *)
Definition ingestRequest (hs : list (jsstring * jsstring)) (text url : string) : Request :=
  {| headers := hs;
     body := Obj [(lit "data", Obj [(lit "text", msg text); (lit "url", msg url)])] |}.

(** [POST /ingest] with the given headers and [{ data: { url } }]. *)
Definition urlOnlyRequest (hs : list (jsstring * jsstring)) (url : string) : Request :=
  {| headers := hs; body := Obj [(lit "data", Obj [(lit "url", msg url)])] |}.

(** Variant B's [POST /ingest] with a bearer token and the three fields. *)
Definition pushRequest (token summary author url : string) : Request :=
  {| headers := [(lit "authorization", lit "Bearer " ++ lit token)];
     body := Obj [(lit "summary_text", msg summary);
                  (lit "tweet_author", msg author);
                  (lit "tweet_url", msg url)] |}.

End Sample.

(* ================================================================== *)
(** * Vocabulary of the statements *)
(* ================================================================== *)


(** [ends m w Q]: running [m] from [w] ends in an outcome and a world that
    satisfy [Q]. *)
Definition ends {A} (m : M A) (w : World) (Q : Result A -> World -> Prop) : Prop :=
  Q (fst (m w)) (snd (m w)).

(** The response code, when the handler answered. *)
Definition answered (r : Result HttpResponse) : option N :=
  match r with
  | Ok p => Some (code p)
  | Throw _ => None
  end.

(** The credential a request presents to variant A: the [X-HillPulse-Key]
    header, else the [Authorization] header, else nothing. *)
Definition presented (req : Request) : jsstring :=
  or_str (req_get (lit "X-HillPulse-Key") req)
    (or_str (req_get (lit "Authorization") req) []).

(** What variant B refuses: no [Authorization] header or an empty one, one
    that does not start with [Bearer ], or one whose second space-separated
    field is not [INGEST_SECRET]. *)
Definition refusedB (env : ProcessEnv) (req : Request) : Prop :=
  match header (lit "authorization") (headers req) with
  | None => True
  | Some h =>
      h = [] \/ startsWith (lit "Bearer ") h = false
      \/ nth_error (split 32 h) 1 <> env_INGEST_SECRET env
  end.


(** The world after one more [fetch]. *)
Definition fetched (w : World) (url : jsstring) (post : option jsstring) : World :=
  {| db := db w; nfetch := S (nfetch w); trace := trace w ++ [Fetch url post] |}.

(** The world after one more line on the console. *)
Definition logged (w : World) (l : Level) (args : list value) : World :=
  {| db := db w; nfetch := nfetch w; trace := trace w ++ [Console l args] |}.

(** The outbound calls of a trace: everything but the console. *)
Definition isCall (e : Event) : bool :=
  match e with
  | Console _ _ => false
  | _ => true
  end.

Definition calls (tr : list Event) : list Event := filter isCall tr.

(** A summarization attempt that fails: the request is rejected, or it is
    answered with 503 or with any other status outside 200-299. *)
Definition fails (o : FetchOutcome) : bool :=
  match o with
  | Rejected _ => true
  | Responded r => N.eqb (status r) 503 || negb (ok r)
  end.

(** The reason such an attempt fails with. *)
Definition reason (o : FetchOutcome) : jsstring :=
  match o with
  | Rejected e => e
  | Responded r =>
      if N.eqb (status r) 503 then lit "Gemini overload 503"
      else lit "Gemini error " ++ ofN (status r) ++ lit ": "
           ++ match text r with Ok t => t | Throw _ => [] end
  end.

(** The calls of [n] attempts in a row: a request each, eight seconds
    between two of them. *)
Fixpoint attempts (n : nat) (url : jsstring) (post : jsstring) : list Event :=
  match n with
  | O => []
  | S O => [Fetch url (Some post)]
  | S n' => Fetch url (Some post) :: Sleep 8000 :: attempts n' url post
  end.

(** [tweet] as the handler of variant A reads it from the request. *)
Definition tweetOf (req : Request) : value :=
  or_else (prop (lit "data") (or_else (body req) (Obj []))) (Obj []).

(** What the primary (oEmbed) lookup finds: the snippet of the first
    paragraph of the [html] field of a successful JSON response. *)
Definition primaryFinds (o : FetchOutcome) : option jsstring :=
  match o with
  | Rejected _ => None
  | Responded r =>
      if ok r then
        match json r with
        | Ok data =>
            match member (lit "html") data with
            | Ok h =>
                match or_else h (Str []) with
                | Str html => VariantA.snippet html
                | _ => None
                end
            | Throw _ => None
            end
        | Throw _ => None
        end
      else None
  end.

(** What the secondary (syndication) lookup finds: the [text] field of a
    successful JSON response, when it is truthy. *)
Definition secondaryFinds (o : FetchOutcome) : option value :=
  match o with
  | Rejected _ => None
  | Responded r =>
      if ok r then
        match json r with
        | Ok data =>
            match member (lit "text") data with
            | Ok t => if truthy t then Some t else None
            | Throw _ => None
            end
        | Throw _ => None
        end
      else None
  end.

(** None of the five entities the fetcher decodes occurs in [s]. *)
Definition noKnownEntity (s : jsstring) : Prop :=
  includes (lit "&amp;") s = false /\
  includes (lit "&lt;") s = false /\
  includes (lit "&gt;") s = false /\
  includes (lit "&quot;") s = false /\
  includes (lit "&#39;") s = false.

(** [a] was created no earlier than [b]. *)
Definition notOlder (a b : Row) : Prop := (created_at b <= created_at a)%Z.

(** A feed sorted non-increasing by [created_at]. *)
Definition newestFirst (l : list FeedItem) : Prop :=
  StronglySorted (fun a b => (item_created_at b <= item_created_at a)%Z) l.

(** [l] holds the most recent rows of [t]: the rest of the table is no newer
    than anything in [l]. *)
Definition mostRecentOf (t : list Row) (l : list FeedItem) : Prop :=
  exists kept older,
    l = map feed_item kept /\
    Permutation (kept ++ older) t /\
    forall x y, In x kept -> In y older -> notOlder x y.

(** What [GET /feed] may answer: up to fifty rows, newest first, under
    [ok: true], or 500 under [ok: false]. *)
Definition feedAnswer (t : list Row) (failed : Prop) (r : HttpResponse) : Prop :=
  (~ failed /\ code r = 200%N /\
   exists l, payload r = Feed l /\ List.length l <= 50 /\ newestFirst l /\ mostRecentOf t l)
  \/
  (failed /\ code r = 500%N /\ exists e, payload r = Failure (Some false) e).

(** The invariant of the table: no two rows share a non-null [tweet_url]. *)
Definition uniqueUrls (t : list Row) : Prop :=
  forall u, Pg.count_url u t <= 1.

(** What the caller of an ingestion sees of its outcome: the status and the
    [ok] field. *)
Definition verdict (r : Result HttpResponse) : option (N * option bool) :=
  match r with
  | Ok p => Some (code p, ok_flag (payload p))
  | Throw _ => None
  end.

(** Two computations that, from any world, either both answer with the same
    status and [ok] field, or both throw the same error in the same world. *)
Definition sameVerdict (m1 m2 : M HttpResponse) : Prop :=
  forall w,
    (exists p1 p2 w1 w2,
        m1 w = (Ok p1, w1) /\ m2 w = (Ok p2, w2) /\
        code p1 = code p2 /\ ok_flag (payload p1) = ok_flag (payload p2))
    \/
    (exists e w1, m1 w = (Throw e, w1) /\ m2 w = (Throw e, w1)).

(** The author as the prompt shows it: [undefined] when there is none. *)
Definition authorText (author : option jsstring) : jsstring :=
  match author with
  | Some a => a
  | None => lit "undefined"
  end.

(** A computation that leaves the database as it found it. *)
Definition keepsDb {A} (m : M A) : Prop :=
  forall w, db (snd (m w)) = db w.

(** A computation that keeps the URLs of the table unique. *)
Definition keepsUnique {A} (m : M A) : Prop :=
  forall w, uniqueUrls (rows (db w)) -> uniqueUrls (rows (db (snd (m w)))).

(** [m], run from [w], returns [a] after [n] requests to [url], the last one
    answered, eight seconds waited between two of them, the database left
    alone. *)
Definition returnsAfter (m : M jsstring) (w : World) (a : jsstring)
    (n : nat) (url post : jsstring) : Prop :=
  exists w',
    m w = (Ok a, w') /\
    db w' = db w /\
    nfetch w' = nfetch w + n /\
    calls (trace w') = calls (trace w) ++ attempts n url post.

(** The message [sendFCMNotification] publishes: to the one broadcast topic,
    with the URL in its data. *)
Definition broadcast (title : value) (message : jsstring) (url : value) : Notification :=
  {| n_title := or_else title (msg "The Capitol Wire");
     n_body := Str message;
     n_url := or_else url (Str []);
     n_topic := lit "hillpulse_updates" |}.

(* ================================================================== *)
(** * Vocabulary of the further properties *)
(* ================================================================== *)

(** The milliseconds a trace spends in [setTimeout]. *)
Fixpoint waited (tr : list Event) : N :=
  match tr with
  | [] => 0%N
  | Sleep ms :: rest => (ms + waited rest)%N
  | _ :: rest => waited rest
  end.

(** A 2xx answer that Gemini's client cannot use, and the error it raises: a
    body that is not JSON, or a first text fragment that is truthy and not a
    string. *)
Definition unreadable (o : FetchOutcome) (m : jsstring) : Prop :=
  exists r,
    o = Responded r /\ ok r = true /\
    (json r = Throw m
     \/ exists data,
          json r = Ok data /\
          truthy (VariantA.firstText data) = true /\
          (forall s, VariantA.firstText data <> Str s) /\
          m = lit "out.trim is not a function").

(** The cost of a trace, each event at the cost [cost] gives it. *)
Definition total (cost : Event -> nat) (tr : list Event) : nat :=
  fold_right (fun e n => cost e + n) 0 tr.

(** [costs cost n m]: from any world, [m] only adds events to the trace, and
    they cost [n] at most. *)
Definition costs {A} (cost : Event -> nat) (n : nat) (m : M A) : Prop :=
  forall w, exists added, trace (snd (m w)) = trace w ++ added /\ total cost added <= n.

Definition aFetch (e : Event) : nat := match e with Fetch _ _ => 1 | _ => 0 end.
Definition aQuery (e : Event) : nat := match e with Query _ _ => 1 | _ => 0 end.
Definition aSend (e : Event) : nat := match e with Send _ => 1 | _ => 0 end.

(** No unit of [s] is [c]. *)
Definition lacks (c : N) (s : jsstring) : Prop := forall x, In x s -> x <> c.

(** [s] has a match of [/<[^>]+>/] somewhere. *)
Fixpoint hasTag (s : jsstring) : bool :=
  match s with
  | [] => false
  | c :: s' =>
      (N.eqb c 60 && match VariantA.tagLength s' with
                     | Some (S (S _)) => true
                     | _ => false
                     end)
      || hasTag s'
  end.

(** The primary lookup answers without a paragraph to offer: a status
    outside 200-299, or a JSON body whose [html] is absent, empty or has no
    match. *)
Definition primaryPasses (o : FetchOutcome) : Prop :=
  exists r,
    o = Responded r /\
    (ok r = false
     \/ exists data h html,
          ok r = true /\ json r = Ok data /\ member (lit "html") data = Ok h /\
          or_else h (Str []) = Str html /\ VariantA.snippet html = None).

Module Scenario.

(** The oEmbed endpoint answers 404; the syndication endpoint knows the
    text. *)
Definition netSyndicationOnly (n : nat) (url : jsstring) : FetchOutcome :=
  if startsWith (lit "https://publish.twitter.com/") url
  then Responded {| status := 404; text := Ok (lit "Not Found");
                    json := Throw (lit "Unexpected token N") |}
  else Responded {| status := 200; text := Ok [];
                    json := Ok (Obj [(lit "text", msg "Votes at noon")]) |}.

End Scenario.

(** No unit of [s] is a line terminator. *)
Definition oneLine (s : jsstring) : Prop := forall x, In x s -> isLineTerminator x = false.

(** The author the handler of variant A goes on with (lines 209-213): the
    one of the request or, when that is absent and there is a URL, the handle
    found in the URL. *)
Definition derivedAuthor (req : Request) : Result value :=
  let url := or_else (prop (lit "url") (tweetOf req)) (Str []) in
  let author := prop (lit "author") (tweetOf req) in
  if negb (truthy author) && truthy url
  then match VariantA.urlMatch url with
       | Ok (Some (c :: g)) => Ok (Str (c :: g))
       | Ok _ => Ok author
       | Throw e => Throw e
       end
  else Ok author.

(** The [url] of the request as the handler of variant A reads it (line 207). *)
Definition urlOf (req : Request) : value :=
  or_else (prop (lit "url") (tweetOf req)) (Str []).

(** The text the handler of variant A goes on with (lines 215-216): the one
    of the request or, when that is absent and there is a URL, what
    [fetchTweetText] returns for it. *)
Definition obtainedText (net : nat -> jsstring -> FetchOutcome)
    (encodeURIComponent : jsstring -> Result jsstring) (req : Request) : M value :=
  let text := or_else (prop (lit "text") (tweetOf req)) (Str []) in
  if negb (truthy text) && truthy (urlOf req)
  then VariantA.fetchTweetText net encodeURIComponent (urlOf req)
  else ret text.

Module Requests.

Definition key : list (jsstring * jsstring) := [(lit "x-hillpulse-key", lit "s3cret")].

(** [{ data: {} }]. *)
Definition empty : Request := {| headers := key; body := Obj [(lit "data", Obj [])] |}.

(** [{ data: { text } }]. *)
Definition textOnly (text : string) : Request :=
  {| headers := key; body := Obj [(lit "data", Obj [(lit "text", msg text)])] |}.

(** [{ data: { url: 5 } }]. *)
Definition numericUrl : Request :=
  {| headers := key; body := Obj [(lit "data", Obj [(lit "url", Num 5)])] |}.

End Requests.

(** A string that neither begins nor ends with a unit [trim] removes. *)
Definition trimmed (s : jsstring) : Prop :=
  (forall c rest, s = c :: rest -> isTrimmed c = false) /\
  (forall front c, s = front ++ [c] -> isTrimmed c = false).

(** [yields P m]: whatever [m] returns satisfies [P]. *)
Definition yields {A} (P : A -> Prop) (m : M A) : Prop :=
  forall w a w', m w = (Ok a, w') -> P a.

Unset Implicit Arguments.

(* ================================================================== *)
(** * Strings *)
(* ================================================================== *)

Lemma eqb_refl (a : jsstring) : eqb a a = true.
Proof.
  induction a as [|x a IH]; simpl; [reflexivity|].
  now rewrite N.eqb_refl, IH.
Qed.

Lemma eqb_eq (a b : jsstring) : eqb a b = true <-> a = b.
Proof.
  split.
  - revert b. induction a as [|x a IH]; intros [|y b]; simpl; try discriminate; auto.
    intros H. apply andb_true_iff in H. destruct H as [H1 H2].
    apply N.eqb_eq in H1. apply IH in H2. congruence.
  - intros ->. apply eqb_refl.
Qed.

Lemma eqb_neq (a b : jsstring) : eqb a b = false <-> a <> b.
Proof.
  split.
  - intros H E. apply eqb_eq in E. congruence.
  - intros H. destruct (eqb a b) eqn:E; [|reflexivity].
    apply eqb_eq in E. contradiction.
Qed.

(* ================================================================== *)
(** * Reasoning about computations *)
(* ================================================================== *)

Lemma ends_ret {A} (a : A) w (Q : Result A -> World -> Prop) :
  Q (Ok a) w -> ends (ret a) w Q.
Proof. exact (fun H => H). Qed.

Lemma ends_throw {A} e w (Q : Result A -> World -> Prop) :
  Q (Throw e) w -> ends (throw e) w Q.
Proof. exact (fun H => H). Qed.

Lemma ends_lift {A} (r : Result A) w (Q : Result A -> World -> Prop) :
  Q r w -> ends (lift r) w Q.
Proof. exact (fun H => H). Qed.

Lemma ends_bind {A B} (m : M A) (k : A -> M B) w (Q : Result B -> World -> Prop) :
  ends m w (fun r w1 =>
              match r with
              | Ok a => ends (k a) w1 Q
              | Throw e => Q (Throw e) w1
              end) ->
  ends (bind m k) w Q.
Proof.
  unfold ends, bind. destruct (m w) as [[a|e] w1]; simpl; auto.
Qed.

Lemma ends_try_catch {A} (m : M A) (h : jsstring -> M A) w (Q : Result A -> World -> Prop) :
  ends m w (fun r w1 =>
              match r with
              | Ok a => Q (Ok a) w1
              | Throw e => ends (h e) w1 Q
              end) ->
  ends (try_catch m h) w Q.
Proof.
  unfold ends, try_catch. destruct (m w) as [[a|e] w1]; simpl; auto.
Qed.

Lemma ends_any {A} (m : M A) w (Q : Result A -> World -> Prop) :
  (forall r w1, Q r w1) -> ends m w Q.
Proof. intros H. apply H. Qed.

Lemma ends_bind_any {A B} (m : M A) (k : A -> M B) w (Q : Result B -> World -> Prop) :
  (forall a w1, ends (k a) w1 Q) ->
  (forall e w1, Q (Throw e) w1) ->
  ends (bind m k) w Q.
Proof.
  intros Hk He. apply ends_bind. apply ends_any.
  intros [a|e] w1; [apply Hk | apply He].
Qed.

Lemma ends_emit ev w (Q : Result unit -> World -> Prop) :
  Q (Ok tt) {| db := db w; nfetch := nfetch w; trace := trace w ++ [ev] |} ->
  ends (emit ev) w Q.
Proof. exact (fun H => H). Qed.

Lemma ends_run {A} (m : M A) w (Q : Result A -> World -> Prop) :
  ends m w Q -> forall r w1, m w = (r, w1) -> Q r w1.
Proof. unfold ends. intros H r w1 E. now rewrite E in H. Qed.

(** One step of symbolic execution. *)
Ltac mstep :=
  lazymatch goal with
  | |- ends (bind _ _) _ _ => apply ends_bind
  | |- ends (try_catch _ _) _ _ => apply ends_try_catch
  | |- ends (ret _) _ _ => apply ends_ret
  | |- ends (throw _) _ _ => apply ends_throw
  | |- ends (lift ?r) _ _ => apply ends_lift; destruct r eqn:?
  | |- ends (console _ _) _ _ => apply ends_emit
  | |- ends (sleep _) _ _ => apply ends_emit
  | |- ends (emit _) _ _ => apply ends_emit
  | |- ends (if ?b then _ else _) _ _ => destruct b eqn:?
  | |- ends (match ?x with _ => _ end) _ _ => destruct x eqn:?
  end.

(* ================================================================== *)
(** * Authentication *)
(* ================================================================== *)

Section Authentication.

Variable env : ProcessEnv.
Variable net : nat -> jsstring -> FetchOutcome.
Variable encodeURIComponent : jsstring -> Result jsstring.
Variable pgText : value -> jsstring.
Variable messaging_send : Notification -> Result jsstring.
Variable firebase_init : jsstring -> Result unit.

Let ingestA := VariantA.ingest env net encodeURIComponent pgText messaging_send firebase_init.

(** An authorized request is never answered with 401. *)
Lemma ingestA_authorized_not_401 req w :
  VariantA.assertAuthorized env req = true ->
  ends (ingestA req) w (fun r _ => exists p, r = Ok p /\ code p <> 401%N).
Proof.
  intros Ha. unfold ingestA, VariantA.ingest. rewrite Ha. cbn [negb].
  apply ends_try_catch.
  assert (Hcatch : forall e w1,
             ends (bind (console error [Str e])
                     (fun _ => ret {| code := 500; payload := Failure (Some false) e |}))
               w1 (fun r _ => exists p, r = Ok p /\ code p <> 401%N)).
  { intros e w1. repeat mstep. eexists. split; [reflexivity|discriminate]. }
  apply ends_bind_any; [intros author w1 | exact Hcatch].
  apply ends_bind_any; [intros text w2 | exact Hcatch].
  mstep.
  - mstep. eexists. split; [reflexivity|discriminate].
  - apply ends_bind_any; [intros summary w3 | exact Hcatch].
    apply ends_bind_any; [intros saved w4 | exact Hcatch].
    apply ends_bind_any; [intros pushed w5 | exact Hcatch].
    mstep. eexists. split; [reflexivity|discriminate].
Qed.

(** C9.  Variant A with [INGEST_SECRET] unset or empty: [assertAuthorized]
    answers [true] for every request, whatever its headers, and the handler
    therefore never answers 401. *)
Theorem C9_unset_secret_disables_authentication :
  VariantA.INGEST_SECRET env = [] ->
  (forall req, VariantA.assertAuthorized env req = true) /\
  (forall req w, exists r w', ingestA req w = (Ok r, w') /\ code r <> 401%N).
Proof.
  intros Hs.
  assert (Ha : forall req, VariantA.assertAuthorized env req = true).
  { intros req. unfold VariantA.assertAuthorized. now rewrite Hs. }
  split; [exact Ha|].
  intros req w.
  destruct (ingestA req w) as [r w'] eqn:E.
  destruct (ends_run _ _ _ (ingestA_authorized_not_401 req w (Ha req)) _ _ E)
    as [p [-> Hp]].
  eauto.
Qed.

Lemma differs_neq (a b : option jsstring) : a <> b -> VariantB.differs a b = true.
Proof.
  destruct a as [x|], b as [y|]; simpl; intros H; try reflexivity.
  - apply negb_true_iff. apply eqb_neq. congruence.
  - congruence.
Qed.

Lemma refusedB_unauthorized req : refusedB env req -> VariantB.unauthorized env req = true.
Proof.
  unfold refusedB, VariantB.unauthorized.
  destruct (header (lit "authorization") (headers req)) as [[|c h]|]; auto.
  intros [H|[H|H]].
  - discriminate.
  - rewrite H. reflexivity.
  - rewrite (differs_neq _ _ H). apply orb_true_r.
Qed.

(** C7, as the code has it.  Variant A with a non-empty [INGEST_SECRET]: a
    request whose presented credential is neither the secret nor [Bearer ]
    followed by the secret, in particular a request that presents none, is
    answered 401 and the world is left as it was: no request to Gemini, no
    query, no notification, nothing logged.  Variant B: the same for every
    request it refuses, in particular one without [Authorization] header. *)
Theorem C7_refused_request_leaves_no_trace :
  (forall req w,
      VariantA.INGEST_SECRET env <> [] ->
      presented req <> VariantA.INGEST_SECRET env ->
      presented req <> lit "Bearer " ++ VariantA.INGEST_SECRET env ->
      ingestA req w =
        (Ok {| code := 401; payload := Failure (Some false) (lit "Unauthorized") |}, w))
  /\
  (forall req w,
      VariantA.INGEST_SECRET env <> [] ->
      req_get (lit "X-HillPulse-Key") req = None ->
      req_get (lit "Authorization") req = None ->
      ingestA req w =
        (Ok {| code := 401; payload := Failure (Some false) (lit "Unauthorized") |}, w))
  /\
  (forall req w,
      refusedB env req ->
      VariantB.ingest env pgText messaging_send firebase_init req w =
        (Ok {| code := 401; payload := Failure None (lit "Unauthorized") |}, w))
  /\
  (forall req w,
      header (lit "authorization") (headers req) = None ->
      VariantB.ingest env pgText messaging_send firebase_init req w =
        (Ok {| code := 401; payload := Failure None (lit "Unauthorized") |}, w)).
Proof.
  assert (HA : forall req w,
             VariantA.INGEST_SECRET env <> [] ->
             presented req <> VariantA.INGEST_SECRET env ->
             presented req <> lit "Bearer " ++ VariantA.INGEST_SECRET env ->
             ingestA req w =
               (Ok {| code := 401; payload := Failure (Some false) (lit "Unauthorized") |}, w)).
  { intros req w Hs H1 H2.
    assert (Ha : VariantA.assertAuthorized env req = false).
    { unfold VariantA.assertAuthorized. fold (presented req).
      destruct (VariantA.INGEST_SECRET env) as [|c s] eqn:E; [congruence|].
      cbn [truthy negb].
      apply eqb_neq in H1. apply eqb_neq in H2. now rewrite H1, H2. }
    unfold ingestA, VariantA.ingest, try_catch. now rewrite Ha. }
  assert (HB : forall req w,
             refusedB env req ->
             VariantB.ingest env pgText messaging_send firebase_init req w =
               (Ok {| code := 401; payload := Failure None (lit "Unauthorized") |}, w)).
  { intros req w H. unfold VariantB.ingest.
    now rewrite (refusedB_unauthorized req H). }
  split; [exact HA|]. split; [|split; [exact HB|]].
  - intros req w Hs Hx Hauth.
    assert (Hp : presented req = []).
    { unfold presented. now rewrite Hx, Hauth. }
    apply HA; [exact Hs | |]; rewrite Hp.
    + congruence.
    + discriminate.
  - intros req w H. apply HB. unfold refusedB. now rewrite H.
Qed.

End Authentication.

(** A deployment without a secret accepts a guessed token. *)
Lemma C9_witness :
  VariantA.INGEST_SECRET Sample.envNoSecret = [] /\
  VariantA.assertAuthorized Sample.envNoSecret
    (Sample.ingestRequest [(lit "authorization", lit "Bearer guess")] "hello" "") = true.
Proof.
  split; [reflexivity|].
  apply (C9_unset_secret_disables_authentication Sample.envNoSecret Sample.netDown
           Sample.encodeURIComponent Sample.pgText Sample.sendOk Sample.initOk).
  reflexivity.
Defined.

(** Without a secret, a request that presents no credential at all is served:
    one request to Gemini, one row inserted, one notification sent. *)
Lemma C7_counterexample :
  presented (Sample.ingestRequest [] "hello" "https://x.com/a/status/1") = [] /\
  let run :=
    VariantA.ingest Sample.envNoSecret (Sample.netJson (Sample.geminiAnswer "@a: hi"))
      Sample.encodeURIComponent Sample.pgText Sample.sendOk Sample.initOk
      (Sample.ingestRequest [] "hello" "https://x.com/a/status/1") Sample.world in
  answered (fst run) = Some 200%N /\
  nfetch (snd run) = 1 /\
  List.length (rows (db (snd run))) = 1 /\
  List.length (trace (snd run)) = 4.
Proof. vm_compute. repeat split; reflexivity. Qed.

(** With the secret set, a guessed token is refused by both variants. *)
Lemma C7_witness :
  VariantA.INGEST_SECRET Sample.env <> [] /\
  presented (Sample.ingestRequest [(lit "authorization", lit "Bearer guess")] "hello" "")
    <> VariantA.INGEST_SECRET Sample.env /\
  presented (Sample.ingestRequest [(lit "authorization", lit "Bearer guess")] "hello" "")
    <> lit "Bearer " ++ VariantA.INGEST_SECRET Sample.env /\
  VariantA.ingest Sample.env Sample.netDown Sample.encodeURIComponent Sample.pgText
    Sample.sendOk Sample.initOk
    (Sample.ingestRequest [(lit "authorization", lit "Bearer guess")] "hello" "")
    Sample.world =
  (Ok {| code := 401; payload := Failure (Some false) (lit "Unauthorized") |}, Sample.world) /\
  refusedB Sample.env (Sample.pushRequest "guess" "@a: hi" "a" "https://x.com/a/status/1") /\
  VariantB.ingest Sample.env Sample.pgText Sample.sendOk Sample.initOk
    (Sample.pushRequest "guess" "@a: hi" "a" "https://x.com/a/status/1") Sample.world =
  (Ok {| code := 401; payload := Failure None (lit "Unauthorized") |}, Sample.world).
Proof.
  assert (H4 : refusedB Sample.env
                 (Sample.pushRequest "guess" "@a: hi" "a" "https://x.com/a/status/1")).
  { vm_compute. right. right. discriminate. }
  assert (H1 : VariantA.INGEST_SECRET Sample.env <> []) by (vm_compute; discriminate).
  assert (H2 : presented (Sample.ingestRequest [(lit "authorization", lit "Bearer guess")] "hello" "")
               <> VariantA.INGEST_SECRET Sample.env) by (vm_compute; discriminate).
  assert (H3 : presented (Sample.ingestRequest [(lit "authorization", lit "Bearer guess")] "hello" "")
               <> lit "Bearer " ++ VariantA.INGEST_SECRET Sample.env) by (vm_compute; discriminate).
  split; [exact H1|]. split; [exact H2|]. split; [exact H3|].
  split.
  - exact (proj1 (C7_refused_request_leaves_no_trace Sample.env Sample.netDown
                    Sample.encodeURIComponent Sample.pgText Sample.sendOk Sample.initOk)
             _ Sample.world H1 H2 H3).
  - split; [exact H4|].
    exact (proj1 (proj2 (proj2 (C7_refused_request_leaves_no_trace Sample.env Sample.netDown
                    Sample.encodeURIComponent Sample.pgText Sample.sendOk Sample.initOk)))
             _ Sample.world H4).
Defined.

(* ================================================================== *)
(** * The summarization client *)
(* ================================================================== *)

Lemma calls_app (a b : list Event) : calls (a ++ b) = calls a ++ calls b.
Proof. apply filter_app. Qed.

Section Summarization.

Variable env : ProcessEnv.
Variable net : nat -> jsstring -> FetchOutcome.
Variable encodeURIComponent : jsstring -> Result jsstring.

Let callGeminiSummary := VariantA.callGeminiSummary env net encodeURIComponent.

(** A failing attempt throws its reason after one request. *)
Lemma attemptOnce_fails url post w :
  fails (net (nfetch w) url) = true ->
  VariantA.attemptOnce net url post w =
    (Throw (reason (net (nfetch w) url)), fetched w url (Some post)).
Proof.
  intros H. unfold VariantA.attemptOnce, bind, VariantA.fetch, fetched.
  destruct (net (nfetch w) url) as [e|r]; simpl in *; [reflexivity|].
  destruct (N.eqb (status r) 503); [reflexivity|].
  simpl in H. now rewrite H.
Qed.

(** A successful response ends the attempt with the trimmed first text
    fragment, the empty string when there is none. *)
Lemma attemptOnce_succeeds url post w r data s :
  net (nfetch w) url = Responded r ->
  ok r = true ->
  json r = Ok data ->
  or_else (VariantA.firstText data) (Str []) = Str s ->
  VariantA.attemptOnce net url post w = (Ok (trim s), fetched w url (Some post)).
Proof.
  intros Hn Hok Hj Hs.
  assert (H503 : N.eqb (status r) 503 = false).
  { apply N.eqb_neq. intros E. unfold ok in Hok. rewrite E in Hok. discriminate. }
  unfold VariantA.attemptOnce, bind, VariantA.fetch, lift, fetched.
  rewrite Hn, H503, Hok, Hj. cbn [negb]. rewrite Hs. reflexivity.
Qed.

(** One failed iteration: the [catch] block, then the loop again. *)
Lemma retryLoop_step url post left attempt lastErr w :
  fails (net (nfetch w) url) = true ->
  VariantA.retryLoop net (S left) attempt lastErr url post w =
    bind (if S attempt <=? VariantA.MAX_RETRIES
          then bind (console warn
                       [Str (lit "Gemini attempt " ++ ofN (N.of_nat (S attempt))
                             ++ lit " failed (" ++ reason (net (nfetch w) url)
                             ++ lit "). Retrying in " ++ ofN (8000 / 1000) ++ lit "s...")])
                    (fun _ => sleep 8000)
          else ret tt)
         (fun _ => VariantA.retryLoop net left (S attempt)
                     (Some (reason (net (nfetch w) url))) url post)
         (fetched w url (Some post)).
Proof.
  intros H. cbn [VariantA.retryLoop]. unfold try_catch.
  rewrite (attemptOnce_fails url post w H). reflexivity.
Qed.

(** The loop when every remaining attempt fails. *)
Lemma retryLoop_exhausts url post :
  forall left attempt lastErr w,
    left + attempt = S VariantA.MAX_RETRIES ->
    (forall i, i < left -> fails (net (nfetch w + i) url) = true) ->
    exists w',
      VariantA.retryLoop net left attempt lastErr url post w =
        (Throw (lit "Gemini failed after 6 attempts: "
                ++ VariantA.errMessage
                     match left with
                     | O => lastErr
                     | S l => Some (reason (net (nfetch w + l) url))
                     end), w')
      /\ db w' = db w
      /\ nfetch w' = nfetch w + left
      /\ calls (trace w') = calls (trace w) ++ attempts left url post.
Proof.
  induction left as [|left IH]; intros attempt lastErr w Hsum Hfail.
  - exists w. simpl. rewrite Nat.add_0_r, app_nil_r. auto.
  - assert (H0 : fails (net (nfetch w) url) = true).
    { rewrite <- (Nat.add_0_r (nfetch w)). apply Hfail. lia. }
    rewrite (retryLoop_step url post left attempt lastErr w H0).
    unfold VariantA.MAX_RETRIES in Hsum.
    destruct left as [|left].
    + (* the sixth failure: no delay, the loop ends *)
      assert (Ha : (S attempt <=? VariantA.MAX_RETRIES) = false).
      { apply Nat.leb_gt. unfold VariantA.MAX_RETRIES. lia. }
      rewrite Ha. unfold bind, ret. cbn [VariantA.retryLoop]. unfold throw.
      eexists. split; [|split; [|split]].
      * rewrite Nat.add_0_r. reflexivity.
      * reflexivity.
      * simpl. lia.
      * simpl. rewrite calls_app. reflexivity.
    + assert (Ha : (S attempt <=? VariantA.MAX_RETRIES) = true).
      { apply Nat.leb_le. unfold VariantA.MAX_RETRIES. lia. }
      rewrite Ha. unfold bind at 1 2. unfold console, sleep, emit.
      match goal with
      | |- exists w', VariantA.retryLoop _ _ _ _ _ _ ?w1 = _ /\ _ => set (w2 := w1)
      end.
      destruct (IH (S attempt) (Some (reason (net (nfetch w) url))) w2)
        as [w' [E [Hdb [Hn Htr]]]].
      * unfold VariantA.MAX_RETRIES. lia.
      * intros i Hi. subst w2. simpl.
        replace (S (nfetch w + i)) with (nfetch w + S i) by lia. apply Hfail. lia.
      * exists w'. split; [|split; [|split]].
        -- rewrite E. subst w2. simpl.
           replace (S (nfetch w + left)) with (nfetch w + S left) by lia. reflexivity.
        -- rewrite Hdb. reflexivity.
        -- rewrite Hn. subst w2. simpl. lia.
        -- rewrite Htr. subst w2. simpl. rewrite !calls_app. simpl.
           rewrite <- !app_assoc. reflexivity.
Qed.

Lemma key_is_set key : VariantA.GEMINI_KEY env = Some key -> key <> [] ->
  truthy (maybe (VariantA.GEMINI_KEY env)) = true.
Proof. intros -> H. destruct key; [contradiction|reflexivity]. Qed.

(** With the key set, the call is the loop, six iterations allowed. *)
Lemma callGeminiSummary_enters key k text author url w :
  VariantA.GEMINI_KEY env = Some key ->
  key <> [] ->
  encodeURIComponent key = Ok k ->
  callGeminiSummary (Str text) (maybe author) (Str url) w =
    VariantA.retryLoop net 6 0 None (VariantA.endpoint k)
      (VariantA.promptText text (authorText author) url) w.
Proof.
  intros Hkey Hne Henc.
  unfold callGeminiSummary, VariantA.callGeminiSummary.
  rewrite (key_is_set key Hkey Hne). cbn [negb].
  rewrite Hkey. unfold VariantA.encodeValue. cbn [maybe toStr].
  unfold bind at 1, lift at 1. rewrite Henc.
  destruct author as [a|]; reflexivity.
Qed.

(** C2, as the code has it.  With [GEMINI_API_KEY] set, a backend that fails
    each of the six attempts (rejected request, 503, or any other status
    outside 200-299) makes [callGeminiSummary] send exactly six requests,
    wait 8000 ms between two consecutive ones and not after the last, and
    then throw an error whose message carries the reason of the sixth
    failure.  The database is not touched. *)
Theorem C2_six_attempts_then_failure :
  forall key k text author url w,
    VariantA.GEMINI_KEY env = Some key ->
    key <> [] ->
    encodeURIComponent key = Ok k ->
    (forall i, i < 6 -> fails (net (nfetch w + i) (VariantA.endpoint k)) = true) ->
    let post := VariantA.promptText text (authorText author) url in
    let request := Fetch (VariantA.endpoint k) (Some post) in
    exists w',
      callGeminiSummary (Str text) (maybe author) (Str url) w =
        (Throw (lit "Gemini failed after 6 attempts: "
                ++ reason (net (nfetch w + 5) (VariantA.endpoint k))), w')
      /\ db w' = db w
      /\ nfetch w' = nfetch w + 6
      /\ calls (trace w') =
           calls (trace w)
           ++ [request; Sleep 8000; request; Sleep 8000; request; Sleep 8000;
               request; Sleep 8000; request; Sleep 8000; request].
Proof.
  intros key k text author url w Hkey Hne Henc Hfail post request.
  rewrite (callGeminiSummary_enters key k text author url w Hkey Hne Henc).
  destruct (retryLoop_exhausts (VariantA.endpoint k) post 6 0 None w)
    as [w' [E H]].
  - reflexivity.
  - exact Hfail.
  - exists w'. split; [exact E | exact H].
Qed.

(** The loop when [j] attempts fail and the next one succeeds. *)
Lemma retryLoop_recovers url post r data s :
  ok r = true ->
  json r = Ok data ->
  or_else (VariantA.firstText data) (Str []) = Str s ->
  forall j left attempt lastErr w,
    left + attempt = S VariantA.MAX_RETRIES ->
    j < left ->
    (forall i, i < j -> fails (net (nfetch w + i) url) = true) ->
    net (nfetch w + j) url = Responded r ->
    returnsAfter (VariantA.retryLoop net left attempt lastErr url post) w (trim s)
      (S j) url post.
Proof.
  intros Hok Hjson Hs.
  induction j as [|j IH]; intros left attempt lastErr w Hsum Hlt Hfail Hnet;
    (destruct left as [|left]; [lia|]).
  - rewrite Nat.add_0_r in Hnet. unfold returnsAfter.
    cbn [VariantA.retryLoop]. unfold try_catch.
    rewrite (attemptOnce_succeeds url post w r data s Hnet Hok Hjson Hs).
    eexists. split; [reflexivity|]. split; [reflexivity|]. split.
    + simpl. lia.
    + simpl. rewrite calls_app. reflexivity.
  - assert (H0 : fails (net (nfetch w) url) = true).
    { rewrite <- (Nat.add_0_r (nfetch w)). apply Hfail. lia. }
    unfold returnsAfter.
    rewrite (retryLoop_step url post left attempt lastErr w H0).
    assert (Ha : (S attempt <=? VariantA.MAX_RETRIES) = true).
    { apply Nat.leb_le. unfold VariantA.MAX_RETRIES in *. lia. }
    rewrite Ha. unfold bind at 1 2. unfold console, sleep, emit.
    match goal with
    | |- exists w', VariantA.retryLoop _ _ _ _ _ _ ?w1 = _ /\ _ => set (w2 := w1)
    end.
    assert (Hrest : returnsAfter
                      (VariantA.retryLoop net left (S attempt)
                         (Some (reason (net (nfetch w) url))) url post)
                      w2 (trim s) (S j) url post).
    { apply IH.
      - unfold VariantA.MAX_RETRIES in *. lia.
      - lia.
      - intros i Hi. subst w2. simpl.
        replace (S (nfetch w + i)) with (nfetch w + S i) by lia. apply Hfail. lia.
      - subst w2. simpl.
        replace (S (nfetch w + j)) with (nfetch w + S j) by lia. exact Hnet. }
    destruct Hrest as [w' [E [Hdb [Hn Htr]]]].
    exists w'. split; [exact E|]. split; [|split].
    + rewrite Hdb. reflexivity.
    + rewrite Hn. subst w2. simpl. lia.
    + rewrite Htr. subst w2. unfold fetched. cbn [trace]. rewrite !calls_app.
      cbn [calls filter isCall]. rewrite <- !app_assoc. reflexivity.
Qed.

(** C3.  When, perhaps after some failed attempts, a request is answered with
    a success (status 200-299 with a JSON body), [callGeminiSummary] returns
    the first text fragment of the payload,
    [candidates[0].content.parts[0].text], trimmed; when that fragment is
    absent or empty it returns the empty string.  Either way it returns
    there: that response is not retried and nothing is thrown. *)
Theorem C3_first_fragment_trimmed_or_empty :
  forall key k text author url w j r data,
    VariantA.GEMINI_KEY env = Some key ->
    key <> [] ->
    encodeURIComponent key = Ok k ->
    j <= VariantA.MAX_RETRIES ->
    (forall i, i < j -> fails (net (nfetch w + i) (VariantA.endpoint k)) = true) ->
    net (nfetch w + j) (VariantA.endpoint k) = Responded r ->
    ok r = true ->
    json r = Ok data ->
    let post := VariantA.promptText text (authorText author) url in
    let call := callGeminiSummary (Str text) (maybe author) (Str url) in
    (forall s, VariantA.firstText data = Str s ->
       returnsAfter call w (trim s) (S j) (VariantA.endpoint k) post)
    /\ (truthy (VariantA.firstText data) = false ->
         returnsAfter call w [] (S j) (VariantA.endpoint k) post)
    /\ (forall s more_parts more_candidates,
         VariantA.firstText
           (Obj [(lit "candidates",
                  Arr (Obj [(lit "content",
                             Obj [(lit "parts",
                                   Arr (Obj [(lit "text", Str s)] :: more_parts))])]
                       :: more_candidates))]) = Str s).
Proof.
  intros key k text author url w j r data Hkey Hne Henc Hj Hfail Hnet Hok Hjson post call.
  assert (E : forall s,
             or_else (VariantA.firstText data) (Str []) = Str s ->
             returnsAfter call w (trim s) (S j) (VariantA.endpoint k) post).
  { intros s Hs. unfold returnsAfter, call.
    rewrite (callGeminiSummary_enters key k text author url w Hkey Hne Henc).
    apply (retryLoop_recovers (VariantA.endpoint k) post r data s Hok Hjson Hs
             j 6 0 None w).
    - reflexivity.
    - unfold VariantA.MAX_RETRIES in Hj. lia.
    - exact Hfail.
    - exact Hnet. }
  split; [|split].
  - intros s Hs. apply E. rewrite Hs. unfold or_else. destruct s; reflexivity.
  - intros Hf. apply (E []). unfold or_else. now rewrite Hf.
  - reflexivity.
Qed.

(** The author stage of the handler leaves the world alone when it does not
    throw. *)
Lemma author_stage req w :
  (truthy (prop (lit "author") (tweetOf req)) = true
   \/ exists s, or_else (prop (lit "url") (tweetOf req)) (Str []) = Str s) ->
  exists author,
    (if negb (truthy (prop (lit "author") (tweetOf req)))
        && truthy (or_else (prop (lit "url") (tweetOf req)) (Str []))
     then bind (lift (VariantA.urlMatch (or_else (prop (lit "url") (tweetOf req)) (Str []))))
            (fun m => match m with
                      | Some (c :: g) => ret (Str (c :: g))
                      | _ => ret (prop (lit "author") (tweetOf req))
                      end)
     else ret (prop (lit "author") (tweetOf req))) w = (Ok author, w).
Proof.
  intros [Hau|[s Hs]].
  - rewrite Hau. simpl. eexists. reflexivity.
  - rewrite Hs. destruct (_ && _); [|eexists; reflexivity].
    unfold bind, lift. simpl.
    destruct (VariantA.matchHandle s) as [[|c g]|]; eexists; reflexivity.
Qed.

(** C10.  With [GEMINI_API_KEY] unset or empty, [callGeminiSummary] throws
    [Missing GEMINI_API_KEY] at once: the world is exactly as before, so no
    request was sent and no delay was waited.  An authorized ingestion that
    reaches the summarization, with its own text or with the text just
    fetched, is therefore answered 500 with that message, and all that is
    added to the world is the line of [console.error]. *)
Theorem C10_missing_key_fails_before_first_attempt :
  truthy (maybe (VariantA.GEMINI_KEY env)) = false ->
  (forall text author url w,
      callGeminiSummary text author url w = (Throw (lit "Missing GEMINI_API_KEY"), w))
  /\
  (forall pgText messaging_send firebase_init req w,
      VariantA.assertAuthorized env req = true ->
      truthy (prop (lit "text") (tweetOf req)) = true ->
      (truthy (prop (lit "author") (tweetOf req)) = true
       \/ exists s, or_else (prop (lit "url") (tweetOf req)) (Str []) = Str s) ->
      VariantA.ingest env net encodeURIComponent pgText messaging_send firebase_init req w =
        (Ok {| code := 500;
               payload := Failure (Some false) (lit "Missing GEMINI_API_KEY") |},
         logged w error [msg "Missing GEMINI_API_KEY"]))
  /\
  (forall pgText messaging_send firebase_init req w text w1,
      VariantA.assertAuthorized env req = true ->
      truthy (prop (lit "text") (tweetOf req)) = false ->
      (truthy (prop (lit "author") (tweetOf req)) = true
       \/ exists s, or_else (prop (lit "url") (tweetOf req)) (Str []) = Str s) ->
      truthy (or_else (prop (lit "url") (tweetOf req)) (Str [])) = true ->
      VariantA.fetchTweetText net encodeURIComponent
        (or_else (prop (lit "url") (tweetOf req)) (Str [])) w = (Ok text, w1) ->
      truthy text = true ->
      VariantA.ingest env net encodeURIComponent pgText messaging_send firebase_init req w =
        (Ok {| code := 500;
               payload := Failure (Some false) (lit "Missing GEMINI_API_KEY") |},
         logged w1 error [msg "Missing GEMINI_API_KEY"])).
Proof.
  intros Hkey.
  assert (H : forall text author url w,
             VariantA.callGeminiSummary env net encodeURIComponent text author url w
             = (Throw (lit "Missing GEMINI_API_KEY"), w)).
  { intros. unfold VariantA.callGeminiSummary. now rewrite Hkey. }
  split; [exact H|]. split.
  - intros pgText messaging_send firebase_init req w Ha Ht Hau.
    unfold VariantA.ingest, try_catch. rewrite Ha. cbn [negb].
    fold (tweetOf req). unfold bind at 1.
    destruct (author_stage req w Hau) as [author ->].
    assert (Htext : or_else (prop (lit "text") (tweetOf req)) (Str [])
                    = prop (lit "text") (tweetOf req)).
    { unfold or_else. now rewrite Ht. }
    rewrite Htext, Ht. cbn [negb andb]. unfold bind at 1, ret at 1. rewrite Ht. cbn [negb].
    unfold bind at 1. rewrite H. reflexivity.
  - intros pgText messaging_send firebase_init req w text w1 Ha Ht Hau Hurl Hfetch Htext.
    unfold VariantA.ingest, try_catch. rewrite Ha. cbn [negb].
    fold (tweetOf req). unfold bind at 1.
    destruct (author_stage req w Hau) as [author ->].
    assert (Hnone : or_else (prop (lit "text") (tweetOf req)) (Str []) = Str []).
    { unfold or_else. now rewrite Ht. }
    rewrite Hnone, Hurl. cbn [truthy negb andb]. unfold bind at 1. rewrite Hfetch, Htext.
    cbn [negb]. unfold bind at 1. rewrite H. reflexivity.
Qed.

End Summarization.

(** Without a key, a backend that is down is never asked: no attempt at all,
    where six were stated. *)
Lemma C2_counterexample :
  let run :=
    VariantA.callGeminiSummary Sample.envNoKey Sample.netDown Sample.encodeURIComponent
      (msg "hello") (msg "a") (msg "https://x.com/a/status/1") Sample.world in
  fails (Sample.netDown 0 (VariantA.endpoint (lit "g-key"))) = true /\
  fst run = Throw (lit "Missing GEMINI_API_KEY") /\
  nfetch (snd run) = 0 /\
  trace (snd run) = [].
Proof. vm_compute. repeat split; reflexivity. Qed.

(** The same backend with the key set: six requests, then the error. *)
Lemma C2_witness :
  VariantA.GEMINI_KEY Sample.env = Some (lit "g-key") /\
  lit "g-key" <> [] /\
  Sample.encodeURIComponent (lit "g-key") = Ok (lit "g-key") /\
  (forall i, i < 6 ->
     fails (Sample.netDown (nfetch Sample.world + i) (VariantA.endpoint (lit "g-key"))) = true) /\
  exists w',
    VariantA.callGeminiSummary Sample.env Sample.netDown Sample.encodeURIComponent
      (msg "hello") (msg "a") (msg "https://x.com/a/status/1") Sample.world =
      (Throw (lit "Gemini failed after 6 attempts: fetch failed"), w')
    /\ nfetch w' = 6.
Proof.
  assert (H1 : VariantA.GEMINI_KEY Sample.env = Some (lit "g-key")) by reflexivity.
  assert (H2 : lit "g-key" <> []) by discriminate.
  assert (H3 : Sample.encodeURIComponent (lit "g-key") = Ok (lit "g-key")) by reflexivity.
  assert (H4 : forall i, i < 6 ->
            fails (Sample.netDown (nfetch Sample.world + i)
                     (VariantA.endpoint (lit "g-key"))) = true) by reflexivity.
  split; [exact H1|]. split; [exact H2|]. split; [exact H3|]. split; [exact H4|].
  destruct (C2_six_attempts_then_failure Sample.env Sample.netDown Sample.encodeURIComponent
              (lit "g-key") (lit "g-key") (lit "hello") (Some (lit "a"))
              (lit "https://x.com/a/status/1") Sample.world H1 H2 H3 H4)
    as [w' [E [_ [Hn _]]]].
  exists w'. split; [exact E | exact Hn].
Defined.

(** A backend that is down three times and then answers with one
    candidate, padded with blanks. *)
Lemma C3_witness :
  let net := Sample.netAfter 3 (Sample.geminiAnswer "  @a: hi  ") in
  VariantA.GEMINI_KEY Sample.env = Some (lit "g-key") /\
  lit "g-key" <> [] /\
  Sample.encodeURIComponent (lit "g-key") = Ok (lit "g-key") /\
  3 <= VariantA.MAX_RETRIES /\
  (forall i, i < 3 ->
     fails (net (nfetch Sample.world + i) (VariantA.endpoint (lit "g-key"))) = true) /\
  net (nfetch Sample.world + 3) (VariantA.endpoint (lit "g-key")) =
    Responded {| status := 200; text := Ok [];
                 json := Ok (Sample.geminiAnswer "  @a: hi  ") |} /\
  VariantA.firstText (Sample.geminiAnswer "  @a: hi  ") = Str (lit "  @a: hi  ") /\
  returnsAfter
    (VariantA.callGeminiSummary Sample.env net Sample.encodeURIComponent
       (Str (lit "hello")) (maybe (Some (lit "a"))) (Str (lit "https://x.com/a/status/1")))
    Sample.world (lit "@a: hi") 4 (VariantA.endpoint (lit "g-key"))
    (VariantA.promptText (lit "hello") (lit "a") (lit "https://x.com/a/status/1")).
Proof.
  intros net.
  assert (H1 : VariantA.GEMINI_KEY Sample.env = Some (lit "g-key")) by reflexivity.
  assert (H2 : lit "g-key" <> []) by discriminate.
  assert (H3 : Sample.encodeURIComponent (lit "g-key") = Ok (lit "g-key")) by reflexivity.
  assert (H4 : 3 <= VariantA.MAX_RETRIES) by (unfold VariantA.MAX_RETRIES; lia).
  assert (H5 : forall i, i < 3 ->
            fails (net (nfetch Sample.world + i) (VariantA.endpoint (lit "g-key"))) = true).
  { intros i Hi. unfold net, Sample.netAfter. simpl.
    destruct (Nat.ltb_spec i 3); [reflexivity|lia]. }
  assert (H6 : net (nfetch Sample.world + 3) (VariantA.endpoint (lit "g-key")) =
               Responded {| status := 200; text := Ok [];
                            json := Ok (Sample.geminiAnswer "  @a: hi  ") |}) by reflexivity.
  assert (H7 : VariantA.firstText (Sample.geminiAnswer "  @a: hi  ") = Str (lit "  @a: hi  "))
    by reflexivity.
  split; [exact H1|]. split; [exact H2|]. split; [exact H3|]. split; [exact H4|].
  split; [exact H5|]. split; [exact H6|]. split; [exact H7|].
  exact (proj1 (C3_first_fragment_trimmed_or_empty Sample.env net Sample.encodeURIComponent
                  (lit "g-key") (lit "g-key") (lit "hello") (Some (lit "a"))
                  (lit "https://x.com/a/status/1") Sample.world 3 _ _
                  H1 H2 H3 H4 H5 H6 eq_refl eq_refl) _ H7).
Defined.

(** A deployment without the key: an authorized request that brings its
    text, and one whose text is fetched. *)
Lemma C10_witness :
  let key := [(lit "x-hillpulse-key", lit "s3cret")] in
  let withText := Sample.ingestRequest key "hello" "https://x.com/a/status/1" in
  let withUrl := Sample.urlOnlyRequest key "https://x.com/a/status/1" in
  let net := Sample.netJson (Sample.oEmbedAnswer "<p>Hello &amp; welcome</p>") in
  let fetchedWorld :=
    fetched Sample.world
      (VariantA.oEmbedUrl (lit "https%3A%2F%2Fx.com%2Fa%2Fstatus%2F1")) None in
  truthy (maybe (VariantA.GEMINI_KEY Sample.envNoKey)) = false /\
  VariantA.callGeminiSummary Sample.envNoKey Sample.netDown Sample.encodeURIComponent
    (msg "hello") (msg "a") (msg "https://x.com/a/status/1") Sample.world =
    (Throw (lit "Missing GEMINI_API_KEY"), Sample.world) /\
  VariantA.assertAuthorized Sample.envNoKey withText = true /\
  VariantA.ingest Sample.envNoKey Sample.netDown Sample.encodeURIComponent Sample.pgText
    Sample.sendOk Sample.initOk withText Sample.world =
    (Ok {| code := 500; payload := Failure (Some false) (lit "Missing GEMINI_API_KEY") |},
     logged Sample.world error [msg "Missing GEMINI_API_KEY"]) /\
  VariantA.fetchTweetText net Sample.encodeURIComponent
    (or_else (prop (lit "url") (tweetOf withUrl)) (Str [])) Sample.world =
    (Ok (msg "Hello & welcome"), fetchedWorld) /\
  VariantA.ingest Sample.envNoKey net Sample.encodeURIComponent Sample.pgText
    Sample.sendOk Sample.initOk withUrl Sample.world =
    (Ok {| code := 500; payload := Failure (Some false) (lit "Missing GEMINI_API_KEY") |},
     logged fetchedWorld error [msg "Missing GEMINI_API_KEY"]).
Proof.
  intros key withText withUrl net fetchedWorld.
  assert (H1 : truthy (maybe (VariantA.GEMINI_KEY Sample.envNoKey)) = false) by reflexivity.
  assert (H2 : VariantA.fetchTweetText net Sample.encodeURIComponent
                 (or_else (prop (lit "url") (tweetOf withUrl)) (Str [])) Sample.world =
               (Ok (msg "Hello & welcome"), fetchedWorld)) by reflexivity.
  pose proof (C10_missing_key_fails_before_first_attempt Sample.envNoKey Sample.netDown
                Sample.encodeURIComponent H1) as [Ha [Hb _]].
  pose proof (C10_missing_key_fails_before_first_attempt Sample.envNoKey net
                Sample.encodeURIComponent H1) as [_ [_ Hc]].
  split; [exact H1|]. split; [apply Ha|]. split; [reflexivity|].
  split.
  - apply Hb.
    + reflexivity.
    + reflexivity.
    + right. eexists. reflexivity.
  - split; [exact H2|].
    apply (Hc Sample.pgText Sample.sendOk Sample.initOk withUrl Sample.world
             (msg "Hello & welcome") fetchedWorld).
    + reflexivity.
    + reflexivity.
    + right. eexists. reflexivity.
    + reflexivity.
    + exact H2.
    + reflexivity.
Defined.

(* ================================================================== *)
(** * The content fetcher *)
(* ================================================================== *)

(** A pattern that does not occur is not replaced. *)
Lemma replaceAll_absent pat rep s :
  includes pat s = false -> replaceAll pat rep s = s.
Proof.
  unfold replaceAll. induction s as [|c s IH]; [reflexivity|].
  cbn [includes replaceFrom]. intros H. apply orb_false_iff in H. destruct H as [H1 H2].
  rewrite H1, (IH H2). reflexivity.
Qed.

Lemma decodeEntities_absent s : noKnownEntity s -> VariantA.decodeEntities s = s.
Proof.
  intros [H1 [H2 [H3 [H4 H5]]]]. unfold VariantA.decodeEntities.
  rewrite (replaceAll_absent _ _ _ H1), (replaceAll_absent _ _ _ H2),
    (replaceAll_absent _ _ _ H3), (replaceAll_absent _ _ _ H4),
    (replaceAll_absent _ _ _ H5).
  reflexivity.
Qed.

(** Before its first [<p], a string has no paragraph to match: the search
    moves on to what follows, provided that begins with [<]. *)
Lemma matchParagraph_skips pre s :
  includes (lit "<p") pre = false ->
  VariantA.matchParagraph (pre ++ 60%N :: s) = VariantA.matchParagraph (60%N :: s).
Proof.
  induction pre as [|c pre IH]; [reflexivity|].
  intros H. cbn [includes] in H. apply orb_false_iff in H. destruct H as [H1 H2].
  change ((c :: pre) ++ 60%N :: s) with (c :: (pre ++ 60%N :: s)).
  cbn [VariantA.matchParagraph].
  assert (Hat : VariantA.paragraphAt (c :: (pre ++ 60%N :: s)) = None).
  { unfold VariantA.paragraphAt.
    assert (Hs : startsWith (lit "<p") (c :: (pre ++ 60%N :: s)) = false).
    { change (lit "<p") with [60%N; 112%N] in *. cbn [startsWith] in *.
      destruct (N.eqb 60 c); [|reflexivity]. cbn [andb] in *.
      destruct pre as [|d pre]; [reflexivity|].
      cbn [app]. destruct (N.eqb 112 d); [discriminate|reflexivity]. }
    now rewrite Hs. }
  rewrite Hat. apply IH. exact H2.
Qed.

Section ContentFetcher.

Variable net : nat -> jsstring -> FetchOutcome.
Variable encodeURIComponent : jsstring -> Result jsstring.

Let fetchTweetText := VariantA.fetchTweetText net encodeURIComponent.

Lemma fetchTweetText_returns url w : exists v w', fetchTweetText url w = (Ok v, w').
Proof.
  assert (H : ends (fetchTweetText url) w (fun r _ => exists v, r = Ok v)).
  { unfold fetchTweetText, VariantA.fetchTweetText.
    mstep; [mstep; eauto|].
    mstep. mstep. apply ends_any. intros [[v|]|e] w1.
    - mstep. eauto.
    - mstep. eauto.
    - repeat mstep. eauto. }
  destruct (fetchTweetText url w) as [r w'] eqn:E.
  destruct (ends_run _ _ _ H _ _ E) as [v ->]. eauto.
Qed.

(** When neither lookup finds a text, the result is the empty string. *)
Lemma fetchTweetText_finds_nothing url w :
  truthy url = true ->
  (forall e, VariantA.encodeValue encodeURIComponent url = Ok e ->
     primaryFinds (net (nfetch w) (VariantA.oEmbedUrl e)) = None /\
     secondaryFinds (net (S (nfetch w)) (VariantA.syndUrl e)) = None) ->
  fst (fetchTweetText url w) = Ok (Str []).
Proof.
  intros Ht Hnone.
  unfold fetchTweetText, VariantA.fetchTweetText. rewrite Ht. cbn [negb].
  unfold bind at 1, try_catch, bind at 1, lift at 1.
  destruct (VariantA.encodeValue encodeURIComponent url) as [e|err]; [|reflexivity].
  destruct (Hnone e eq_refl) as [Hp Hs]. clear Hnone.
  unfold bind at 1, VariantA.fetch at 1.
  destruct (net (nfetch w) (VariantA.oEmbedUrl e)) as [m|r1]; [reflexivity|].
  cbn [primaryFinds] in Hp.
  assert (Hprim : forall w1,
             VariantA.primary r1 w1 = (Ok None, w1)
             \/ exists m, VariantA.primary r1 w1 = (Throw m, w1)).
  { intros w1. unfold VariantA.primary.
    destruct (ok r1); [|left; reflexivity].
    unfold bind, lift.
    destruct (json r1) as [data|m]; [|right; eexists; reflexivity].
    destruct (member (lit "html") data) as [h|m]; [|right; eexists; reflexivity].
    destruct (or_else h (Str [])); try (right; eexists; reflexivity).
    rewrite Hp. left. reflexivity. }
  unfold bind at 1.
  match goal with
  | |- context [VariantA.primary r1 ?w1] => destruct (Hprim w1) as [E|[m E]]; rewrite E
  end; [|reflexivity].
  unfold bind at 1, lift at 1.
  unfold bind at 1, VariantA.fetch at 1. cbn [nfetch].
  destruct (net (S (nfetch w)) (VariantA.syndUrl e)) as [m|r2]; [reflexivity|].
  cbn [secondaryFinds] in Hs.
  unfold VariantA.secondary.
  destruct (ok r2); [|reflexivity].
  unfold bind, lift.
  destruct (json r2) as [data|m]; [|reflexivity].
  destruct (member (lit "text") data) as [t|m]; [|reflexivity].
  destruct (truthy t); [discriminate|reflexivity].
Qed.

(** A rejected request or an unreadable body is logged and swallowed. *)
Lemma fetchTweetText_swallows url w e m :
  truthy url = true ->
  VariantA.encodeValue encodeURIComponent url = Ok e ->
  (net (nfetch w) (VariantA.oEmbedUrl e) = Rejected m
   \/ exists r, net (nfetch w) (VariantA.oEmbedUrl e) = Responded r
                /\ ok r = true /\ json r = Throw m) ->
  fetchTweetText url w =
    (Ok (Str []),
     logged (fetched w (VariantA.oEmbedUrl e) None) error
       [msg "Tweet fetch failed:"; Str m]).
Proof.
  intros Ht He Hnet.
  unfold fetchTweetText, VariantA.fetchTweetText. rewrite Ht. cbn [negb].
  unfold bind at 1, try_catch, bind at 1, lift at 1. rewrite He.
  unfold bind at 1, VariantA.fetch at 1.
  destruct Hnet as [Hn|[r [Hn [Hok Hj]]]]; rewrite Hn.
  - reflexivity.
  - unfold bind at 1, VariantA.primary. rewrite Hok.
    unfold bind at 1, lift at 1. rewrite Hj. reflexivity.
Qed.

(** C4.  [fetchTweetText] returns a value for every [url] and never throws;
    for a falsy [url], the empty string among them, it returns the empty
    string with the world untouched, so without any request; when neither the
    primary nor the secondary lookup finds a text, through failure or through
    lack of a match, it returns the empty string; and a request that is
    rejected or a body that does not parse is logged and answered with the
    empty string. *)
Theorem C4_fetchTweetText_never_throws :
  (forall url w, exists v w', fetchTweetText url w = (Ok v, w'))
  /\
  (forall url w, truthy url = false -> fetchTweetText url w = (Ok (Str []), w))
  /\
  (forall url w,
      truthy url = true ->
      (forall e, VariantA.encodeValue encodeURIComponent url = Ok e ->
         primaryFinds (net (nfetch w) (VariantA.oEmbedUrl e)) = None /\
         secondaryFinds (net (S (nfetch w)) (VariantA.syndUrl e)) = None) ->
      fst (fetchTweetText url w) = Ok (Str []))
  /\
  (forall url w e m,
      truthy url = true ->
      VariantA.encodeValue encodeURIComponent url = Ok e ->
      (net (nfetch w) (VariantA.oEmbedUrl e) = Rejected m
       \/ exists r, net (nfetch w) (VariantA.oEmbedUrl e) = Responded r
                    /\ ok r = true /\ json r = Throw m) ->
      fetchTweetText url w =
        (Ok (Str []),
         logged (fetched w (VariantA.oEmbedUrl e) None) error
           [msg "Tweet fetch failed:"; Str m])).
Proof.
  split; [exact fetchTweetText_returns|]. split; [|split].
  - intros url w H. unfold fetchTweetText, VariantA.fetchTweetText. now rewrite H.
  - exact fetchTweetText_finds_nothing.
  - exact fetchTweetText_swallows.
Qed.

(** C5.  The first paragraph of the [html] field is what the fetcher
    extracts: when [<p>Hello &amp; welcome</p>] is the first [<p] of the
    field, the snippet is [Hello & welcome], and [fetchTweetText] returns it
    after the one request to the primary endpoint.  Tags inside the paragraph
    are removed; each of [&amp; &lt; &gt; &quot; &#39;] is decoded; a text
    containing none of these five is returned as it stands. *)
Theorem C5_first_paragraph_is_decoded :
  (forall pre rest,
      includes (lit "<p") pre = false ->
      VariantA.snippet (pre ++ lit "<p>Hello &amp; welcome</p>" ++ rest)
        = Some (lit "Hello & welcome"))
  /\
  (forall url w e r data pre rest,
      truthy url = true ->
      VariantA.encodeValue encodeURIComponent url = Ok e ->
      net (nfetch w) (VariantA.oEmbedUrl e) = Responded r ->
      ok r = true ->
      json r = Ok data ->
      prop (lit "html") data = Str (pre ++ lit "<p>Hello &amp; welcome</p>" ++ rest) ->
      includes (lit "<p") pre = false ->
      fetchTweetText url w =
        (Ok (Str (lit "Hello & welcome")), fetched w (VariantA.oEmbedUrl e) None))
  /\
  VariantA.snippet (lit "<p>Hello <b>&amp;</b> <a href='/w'>welcome</a></p>")
    = Some (lit "Hello & welcome")
  /\
  VariantA.decodeEntities (lit "&amp; &lt; &gt; &quot; &#39;")
    = lit "& < > " ++ [34%N] ++ lit " '"
  /\
  (forall s, noKnownEntity s -> VariantA.decodeEntities s = s).
Proof.
  assert (Hsnip : forall pre rest,
             includes (lit "<p") pre = false ->
             VariantA.snippet (pre ++ lit "<p>Hello &amp; welcome</p>" ++ rest)
               = Some (lit "Hello & welcome")).
  { intros pre rest H. unfold VariantA.snippet.
    change (lit "<p>Hello &amp; welcome</p>" ++ rest)
      with (60%N :: (lit "p>Hello &amp; welcome</p>" ++ rest)).
    rewrite (matchParagraph_skips pre _ H).
    vm_compute. reflexivity. }
  split; [exact Hsnip|]. split; [|split; [|split]].
  - intros url w e r data pre rest Ht He Hn Hok Hj Hh Hpre.
    unfold fetchTweetText, VariantA.fetchTweetText. rewrite Ht. cbn [negb].
    unfold bind at 1, try_catch, bind at 1, lift at 1. rewrite He.
    unfold bind at 1, VariantA.fetch at 1. rewrite Hn.
    unfold bind at 1, VariantA.primary. rewrite Hok.
    unfold bind at 1, lift at 1. rewrite Hj.
    assert (Hm : member (lit "html") data
                 = Ok (Str (pre ++ lit "<p>Hello &amp; welcome</p>" ++ rest))).
    { rewrite <- Hh. destruct data; try reflexivity; discriminate. }
    unfold bind at 1, lift at 1. rewrite Hm.
    assert (Ho : or_else (Str (pre ++ lit "<p>Hello &amp; welcome</p>" ++ rest)) (Str [])
                 = Str (pre ++ lit "<p>Hello &amp; welcome</p>" ++ rest)).
    { unfold or_else. destruct pre; reflexivity. }
    rewrite Ho, (Hsnip pre rest Hpre). reflexivity.
  - vm_compute. reflexivity.
  - vm_compute. reflexivity.
  - exact decodeEntities_absent.
Qed.

End ContentFetcher.

(** A network that is down, and the empty URL. *)
Lemma C4_witness :
  let url := msg "https://x.com/a/status/1" in
  let enc := lit "https%3A%2F%2Fx.com%2Fa%2Fstatus%2F1" in
  truthy url = true /\
  (forall e,
     VariantA.encodeValue Sample.encodeURIComponent url = Ok e ->
     primaryFinds (Sample.netDown (nfetch Sample.world) (VariantA.oEmbedUrl e)) = None /\
     secondaryFinds (Sample.netDown (S (nfetch Sample.world)) (VariantA.syndUrl e)) = None) /\
  fst (VariantA.fetchTweetText Sample.netDown Sample.encodeURIComponent url Sample.world)
    = Ok (Str []) /\
  truthy (Str []) = false /\
  VariantA.fetchTweetText Sample.netDown Sample.encodeURIComponent (Str []) Sample.world
    = (Ok (Str []), Sample.world) /\
  VariantA.encodeValue Sample.encodeURIComponent url = Ok enc /\
  Sample.netDown (nfetch Sample.world) (VariantA.oEmbedUrl enc) = Rejected (lit "fetch failed") /\
  VariantA.fetchTweetText Sample.netDown Sample.encodeURIComponent url Sample.world
    = (Ok (Str []),
       logged (fetched Sample.world (VariantA.oEmbedUrl enc) None) error
         [msg "Tweet fetch failed:"; Str (lit "fetch failed")]).
Proof.
  intros url enc.
  assert (H1 : truthy url = true) by reflexivity.
  assert (H2 : forall e,
            VariantA.encodeValue Sample.encodeURIComponent url = Ok e ->
            primaryFinds (Sample.netDown (nfetch Sample.world) (VariantA.oEmbedUrl e)) = None /\
            secondaryFinds (Sample.netDown (S (nfetch Sample.world)) (VariantA.syndUrl e)) = None).
  { intros e _. split; reflexivity. }
  assert (H3 : truthy (Str []) = false) by reflexivity.
  assert (H4 : VariantA.encodeValue Sample.encodeURIComponent url = Ok enc) by reflexivity.
  assert (H5 : Sample.netDown (nfetch Sample.world) (VariantA.oEmbedUrl enc)
               = Rejected (lit "fetch failed")) by reflexivity.
  pose proof (C4_fetchTweetText_never_throws Sample.netDown Sample.encodeURIComponent)
    as [_ [Hempty [Hnone Hswallow]]].
  split; [exact H1|]. split; [exact H2|].
  split; [exact (Hnone _ Sample.world H1 H2)|].
  split; [exact H3|].
  split; [exact (Hempty _ Sample.world H3)|].
  split; [exact H4|]. split; [exact H5|].
  exact (Hswallow url Sample.world enc _ H1 H4 (or_introl H5)).
Defined.

(** The fragment inside the [blockquote] that oEmbed returns. *)
Lemma C5_witness :
  includes (lit "<p") (lit "<blockquote class='twitter-tweet'>") = false /\
  VariantA.snippet
    (lit "<blockquote class='twitter-tweet'>" ++ lit "<p>Hello &amp; welcome</p>"
     ++ lit "&mdash; A (@a)</blockquote>") = Some (lit "Hello & welcome") /\
  noKnownEntity (lit "caf&eacute; &mdash; bar") /\
  VariantA.decodeEntities (lit "caf&eacute; &mdash; bar") = lit "caf&eacute; &mdash; bar" /\
  fst (VariantA.fetchTweetText
         (Sample.netJson
            (Sample.oEmbedAnswer
               "<blockquote class='twitter-tweet'><p>Hello &amp; welcome</p>&mdash; A (@a)</blockquote>"))
         Sample.encodeURIComponent (msg "https://x.com/a/status/1") Sample.world)
    = Ok (Str (lit "Hello & welcome")).
Proof.
  assert (H1 : includes (lit "<p") (lit "<blockquote class='twitter-tweet'>") = false)
    by reflexivity.
  assert (H2 : noKnownEntity (lit "caf&eacute; &mdash; bar")).
  { unfold noKnownEntity. repeat split; reflexivity. }
  pose proof (C5_first_paragraph_is_decoded Sample.netDown Sample.encodeURIComponent)
    as [Hsnip [_ [_ [_ Hno]]]].
  split; [exact H1|]. split; [exact (Hsnip _ _ H1)|]. split; [exact H2|].
  split; [exact (Hno _ H2)|].
  pose proof (C5_first_paragraph_is_decoded
                (Sample.netJson
                   (Sample.oEmbedAnswer
                      "<blockquote class='twitter-tweet'><p>Hello &amp; welcome</p>&mdash; A (@a)</blockquote>"))
                Sample.encodeURIComponent) as [_ [Hfetch _]].
  rewrite (Hfetch (msg "https://x.com/a/status/1") Sample.world
             (lit "https%3A%2F%2Fx.com%2Fa%2Fstatus%2F1") _ _
             (lit "<blockquote class='twitter-tweet'>") (lit "&mdash; A (@a)</blockquote>")
             eq_refl eq_refl eq_refl eq_refl eq_refl eq_refl H1).
  reflexivity.
Defined.

(* ================================================================== *)
(** * The read endpoint *)
(* ================================================================== *)

Lemma insert_desc_perm r l : Permutation (Pg.insert_desc r l) (r :: l).
Proof.
  induction l as [|x l IH]; simpl; [reflexivity|].
  destruct (Z.leb (created_at x) (created_at r)); [reflexivity|].
  rewrite IH. apply perm_swap.
Qed.

Lemma order_perm t : Permutation (Pg.order_by_created_at_desc t) t.
Proof.
  induction t as [|r t IH]; simpl; [reflexivity|].
  rewrite insert_desc_perm. now constructor.
Qed.

Lemma insert_desc_sorted r l :
  StronglySorted notOlder l -> StronglySorted notOlder (Pg.insert_desc r l).
Proof.
  induction 1 as [|x l Hs IH Hx]; simpl.
  - repeat constructor.
  - destruct (Z.leb (created_at x) (created_at r)) eqn:E.
    + apply Z.leb_le in E. constructor.
      * now constructor.
      * constructor; [exact E|].
        eapply Forall_impl; [|exact Hx].
        intros y Hy. unfold notOlder in *. lia.
    + apply Z.leb_gt in E. constructor; [exact IH|].
      eapply Permutation_Forall; [symmetry; apply insert_desc_perm|].
      constructor; [unfold notOlder; lia | exact Hx].
Qed.

Lemma order_sorted t : StronglySorted notOlder (Pg.order_by_created_at_desc t).
Proof.
  induction t as [|r t IH]; simpl; [constructor|].
  now apply insert_desc_sorted.
Qed.

Lemma sorted_app_inv (l1 l2 : list Row) :
  StronglySorted notOlder (l1 ++ l2) ->
  StronglySorted notOlder l1 /\ forall x y, In x l1 -> In y l2 -> notOlder x y.
Proof.
  induction l1 as [|a l1 IH]; simpl; intros H.
  - split; [constructor|]. intros x y [].
  - inversion H as [|? ? Hs Ha]; subst.
    destruct (IH Hs) as [H1 H2]. split.
    + constructor; [exact H1|].
      apply Forall_app in Ha. tauto.
    + intros x y [->|Hx] Hy.
      * rewrite Forall_forall in Ha. apply Ha. apply in_or_app. now right.
      * now apply H2.
Qed.

Lemma sorted_map_feed_item l :
  StronglySorted notOlder l -> newestFirst (map feed_item l).
Proof.
  unfold newestFirst. induction 1 as [|x l Hs IH Hx]; simpl; constructor.
  - exact IH.
  - rewrite Forall_map. exact Hx.
Qed.

(** The query of [/feed]: at most fifty rows, newest first, the most recent
    of the table. *)
Lemma select_recent_spec t :
  let l := map feed_item (Pg.select_recent t) in
  List.length l <= 50 /\ newestFirst l /\ mostRecentOf t l.
Proof.
  unfold Pg.select_recent.
  pose proof (order_sorted t) as Hs. pose proof (order_perm t) as Hp.
  rewrite <- (firstn_skipn 50 (Pg.order_by_created_at_desc t)) in Hs, Hp.
  destruct (sorted_app_inv _ _ Hs) as [H1 H2].
  cbv zeta. split; [|split].
  - rewrite length_map. apply firstn_le_length.
  - now apply sorted_map_feed_item.
  - exists (firstn 50 (Pg.order_by_created_at_desc t)),
      (skipn 50 (Pg.order_by_created_at_desc t)).
    auto.
Qed.

(** C6.  In both variants [GET /feed] answers, whatever the database holds:
    status 200 with [{ ok: true, feed }], where [feed] has at most fifty
    rows, sorted non-increasing by [created_at] and no older than any row
    left out, when the backend answers; status 500 with
    [{ ok: false, error }] when it fails.  The table is not changed. *)
Theorem C6_feed_at_most_fifty_newest_first :
  (forall env w,
      exists r w',
        VariantA.feed env w = (Ok r, w') /\
        db w' = db w /\
        feedAnswer (rows (db w))
          (truthy (maybe (VariantA.DATABASE_URL env)) = false \/ fault (db w) <> None) r)
  /\
  (forall w,
      exists r w',
        VariantB.feed w = (Ok r, w') /\
        db w' = db w /\
        feedAnswer (rows (db w)) (fault (db w) <> None) r).
Proof.
  split.
  - intros env w. unfold VariantA.feed, try_catch, bind, VariantA.query.
    destruct (truthy (maybe (VariantA.DATABASE_URL env))) eqn:Hurl; cbn [negb].
    + unfold pool_query. destruct (fault (db w)) as [e|] eqn:Hf.
      * do 2 eexists. split; [reflexivity|]. split; [reflexivity|].
        right. split; [right; discriminate|]. split; [reflexivity|]. eexists. reflexivity.
      * do 2 eexists. split; [reflexivity|]. split; [reflexivity|].
        left. split; [intros [H|H]; [discriminate|now apply H]|].
        split; [reflexivity|]. eexists. split; [reflexivity|].
        apply select_recent_spec.
    + do 2 eexists. split; [reflexivity|]. split; [reflexivity|].
      right. split; [now left|]. split; [reflexivity|]. eexists. reflexivity.
  - intros w. unfold VariantB.feed, try_catch, bind, pool_query.
    destruct (fault (db w)) as [e|] eqn:Hf.
    + do 2 eexists. split; [reflexivity|]. split; [reflexivity|].
      right. split; [discriminate|]. split; [reflexivity|]. eexists. reflexivity.
    + do 2 eexists. split; [reflexivity|]. split; [reflexivity|].
      left. split; [intros H; now apply H|].
      split; [reflexivity|]. eexists. split; [reflexivity|].
      apply select_recent_spec.
Qed.

(* ================================================================== *)
(** * The persistence gateway *)
(* ================================================================== *)

Lemma stored_count u t : Pg.stored u t = true <-> 1 <= Pg.count_url u t.
Proof.
  unfold Pg.stored, Pg.count_url. induction t as [|r t IH]; simpl.
  - split; [discriminate | lia].
  - destruct (Pg.has_url u r); simpl; [split; [lia | reflexivity] | exact IH].
Qed.

Lemma count_url_app u t r :
  Pg.count_url u (t ++ [r]) = Pg.count_url u t + (if Pg.has_url u r then 1 else 0).
Proof.
  unfold Pg.count_url. rewrite filter_app, length_app. simpl.
  destruct (Pg.has_url u r); reflexivity.
Qed.

(** A row that does not conflict keeps the URLs unique. *)
Lemma uniqueUrls_insert t r :
  uniqueUrls t ->
  Pg.conflicts (tweet_url r) t = false ->
  uniqueUrls (t ++ [r]).
Proof.
  intros Hu Hc u. rewrite count_url_app.
  destruct (Pg.has_url u r) eqn:E; [|specialize (Hu u); lia].
  unfold Pg.has_url in E. destruct (tweet_url r) as [u'|]; [|discriminate].
  apply eqb_eq in E. subst u'. simpl in Hc.
  destruct (Pg.count_url u t) as [|n] eqn:En; [lia|].
  assert (Hs : Pg.stored u t = true) by (apply stored_count; lia).
  congruence.
Qed.

(** ** What leaves the database alone *)

Lemma keepsDb_ret {A} (a : A) : keepsDb (ret a).
Proof. intros w. reflexivity. Qed.

Lemma keepsDb_throw {A} e : keepsDb (@throw A e).
Proof. intros w. reflexivity. Qed.

Lemma keepsDb_lift {A} (r : Result A) : keepsDb (lift r).
Proof. intros w. reflexivity. Qed.

Lemma keepsDb_emit ev : keepsDb (emit ev).
Proof. intros w. reflexivity. Qed.

Lemma keepsDb_bind {A B} (m : M A) (k : A -> M B) :
  keepsDb m -> (forall a, keepsDb (k a)) -> keepsDb (bind m k).
Proof.
  intros Hm Hk w. unfold bind. specialize (Hm w).
  destruct (m w) as [[a|e] w1]; simpl in *; [|exact Hm].
  now rewrite Hk.
Qed.

Lemma keepsDb_try_catch {A} (m : M A) h :
  keepsDb m -> (forall e, keepsDb (h e)) -> keepsDb (try_catch m h).
Proof.
  intros Hm Hh w. unfold try_catch. specialize (Hm w).
  destruct (m w) as [[a|e] w1]; simpl in *; [exact Hm|].
  now rewrite Hh.
Qed.

Lemma keepsDb_fetch net url post : keepsDb (VariantA.fetch net url post).
Proof. intros w. unfold VariantA.fetch. destruct (net (nfetch w) url); reflexivity. Qed.

Ltac keeps :=
  repeat first
    [ apply keepsDb_ret | apply keepsDb_throw | apply keepsDb_lift
    | apply keepsDb_emit | apply keepsDb_fetch
    | apply keepsDb_bind; [|intros ?]
    | apply keepsDb_try_catch; [|intros ?]
    | match goal with
      | |- keepsDb (if ?b then _ else _) => destruct b
      | |- keepsDb (match ?x with _ => _ end) => destruct x
      end ].

Lemma keepsDb_retryLoop net url post :
  forall left attempt lastErr, keepsDb (VariantA.retryLoop net left attempt lastErr url post).
Proof.
  induction left as [|left IH]; intros attempt lastErr; cbn [VariantA.retryLoop].
  - apply keepsDb_throw.
  - apply keepsDb_try_catch.
    + unfold VariantA.attemptOnce. keeps.
    + intros e. apply keepsDb_bind; [|intros _; apply IH].
      unfold console, sleep. keeps.
Qed.

Lemma keepsDb_callGeminiSummary env net enc text author url :
  keepsDb (VariantA.callGeminiSummary env net enc text author url).
Proof.
  unfold VariantA.callGeminiSummary.
  destruct (negb _); [apply keepsDb_throw|].
  repeat (apply keepsDb_bind; [apply keepsDb_lift|intros ?]).
  apply keepsDb_retryLoop.
Qed.

Lemma keepsDb_fetchTweetText net enc url : keepsDb (VariantA.fetchTweetText net enc url).
Proof.
  unfold VariantA.fetchTweetText, VariantA.primary, VariantA.secondary, console. keeps.
Qed.

Lemma keepsDb_sendFCMNotification env send init title message url :
  keepsDb (VariantA.sendFCMNotification env send init title message url).
Proof.
  unfold VariantA.sendFCMNotification, VariantA.send, console. keeps.
Qed.

(** ** What keeps the URLs unique *)

Lemma keepsDb_keepsUnique {A} (m : M A) : keepsDb m -> keepsUnique m.
Proof. intros H w Hu. now rewrite H. Qed.

Lemma keepsUnique_bind {A B} (m : M A) (k : A -> M B) :
  keepsUnique m -> (forall a, keepsUnique (k a)) -> keepsUnique (bind m k).
Proof.
  intros Hm Hk w Hu. unfold bind. specialize (Hm w Hu).
  destruct (m w) as [[a|e] w1]; simpl in *; [|exact Hm].
  now apply Hk.
Qed.

Lemma keepsUnique_try_catch {A} (m : M A) h :
  keepsUnique m -> (forall e, keepsUnique (h e)) -> keepsUnique (try_catch m h).
Proof.
  intros Hm Hh w Hu. unfold try_catch. specialize (Hm w Hu).
  destruct (m w) as [[a|e] w1]; simpl in *; [exact Hm|].
  now apply Hh.
Qed.

(** A truthy value is never sent as [NULL]. *)
Lemma sqlParam_truthy pgText v : truthy v = true -> exists s, sqlParam pgText v = Some s.
Proof. destruct v; simpl; try discriminate; eauto. Qed.

Section Persistence.

Variable env : ProcessEnv.
Variable pgText : value -> jsstring.

Let saveSummaryToDB := VariantA.saveSummaryToDB env pgText.

(** What [saveSummaryToDB] can do to the table: nothing, reporting [false],
    or append one row that conflicts with none, reporting [true]. *)
Lemma saveSummaryToDB_cases summary author url w :
  exists w',
    (saveSummaryToDB summary author url w = (Ok false, w') /\
     rows (db w') = rows (db w))
    \/
    (saveSummaryToDB summary author url w = (Ok true, w') /\
     Pg.conflicts (sqlParam pgText url) (rows (db w)) = false /\
     rows (db w') =
       rows (db w) ++ [Pg.new_row (db w) summary (sqlParam pgText author) (sqlParam pgText url)]).
Proof.
  unfold saveSummaryToDB, VariantA.saveSummaryToDB, VariantA.query.
  destruct (truthy (maybe (VariantA.DATABASE_URL env))); cbn [negb].
  - unfold try_catch, bind, pool_query.
    destruct (fault (db w)) as [e|].
    + eexists. left. split; reflexivity.
    + unfold Pg.insert_do_nothing.
      destruct (Pg.conflicts (sqlParam pgText url) (rows (db w))) eqn:Hc.
      * eexists. left. split; reflexivity.
      * eexists. right. split; [reflexivity|]. split; reflexivity.
  - eexists. left. split; reflexivity.
Qed.

Lemma keepsUnique_saveSummaryToDB summary author url :
  keepsUnique (saveSummaryToDB summary author url).
Proof.
  intros w Hu.
  destruct (saveSummaryToDB_cases summary author url w) as [w' [[E Hr]|[E [Hc Hr]]]];
    rewrite E; simpl; rewrite Hr.
  - exact Hu.
  - apply uniqueUrls_insert; [exact Hu | exact Hc].
Qed.

(** An ingestion of variant A keeps the URLs unique. *)
Lemma keepsUnique_ingestA net enc send init req :
  keepsUnique (VariantA.ingest env net enc pgText send init req).
Proof.
  unfold VariantA.ingest.
  apply keepsUnique_try_catch;
    [|intros e; apply keepsDb_keepsUnique; unfold console; keeps].
  destruct (negb _); [apply keepsDb_keepsUnique; keeps|].
  apply keepsUnique_bind; [apply keepsDb_keepsUnique; keeps|intros author].
  apply keepsUnique_bind.
  { destruct (_ && _); apply keepsDb_keepsUnique;
      [apply keepsDb_fetchTweetText | keeps]. }
  intros text.
  destruct (negb _); [apply keepsDb_keepsUnique; keeps|].
  apply keepsUnique_bind;
    [apply keepsDb_keepsUnique; apply keepsDb_callGeminiSummary|intros summary].
  apply keepsUnique_bind; [apply keepsUnique_saveSummaryToDB|intros saved].
  apply keepsUnique_bind;
    [apply keepsDb_keepsUnique; apply keepsDb_sendFCMNotification|intros pushed].
  apply keepsDb_keepsUnique. keeps.
Qed.

(** Variant B's insert: a row is appended whatever the table holds. *)
Lemma ingestB_appends messaging_send firebase_init req w fields :
  VariantB.unauthorized env req = false ->
  body req = Obj fields ->
  truthy (prop (lit "summary_text") (Obj fields)) = true ->
  truthy (prop (lit "tweet_author") (Obj fields)) = true ->
  truthy (prop (lit "tweet_url") (Obj fields)) = true ->
  fault (db w) = None ->
  exists s row w',
    sqlParam pgText (prop (lit "summary_text") (Obj fields)) = Some s /\
    row = Pg.new_row (db w) s
            (sqlParam pgText (prop (lit "tweet_author") (Obj fields)))
            (sqlParam pgText (prop (lit "tweet_url") (Obj fields))) /\
    VariantB.ingest env pgText messaging_send firebase_init req w =
      (Ok {| code := 200; payload := Item (Some row) |}, w') /\
    rows (db w') = rows (db w) ++ [row].
Proof.
  intros Hauth Hbody H1 H2 H3 Hf.
  destruct (sqlParam_truthy pgText _ H1) as [s Hs].
  destruct (sqlParam_truthy pgText _ H2) as [a Ha].
  destruct (sqlParam_truthy pgText _ H3) as [u Hu].
  exists s. eexists.
  unfold VariantB.ingest. rewrite Hauth, Hbody.
  unfold bind at 1, lift at 1. cbn [member].
  unfold bind at 1, lift at 1. cbn [member].
  unfold bind at 1, lift at 1. cbn [member].
  rewrite H1, H2, H3. cbn [negb orb].
  unfold try_catch at 1, bind at 1, pool_query. rewrite Hf, Hs, Ha, Hu.
  cbn [Pg.insert_plain mkResult result_rows nth_error].
  set (row := Pg.new_row (db w) s (Some a) (Some u)).
  unfold bind at 1.
  destruct (0 <? VariantB.apps_length env firebase_init).
  - unfold try_catch, bind, VariantB.send, emit, lift, console.
    destruct (messaging_send _); eexists; (split; [reflexivity|]);
      (split; [reflexivity|]); split; reflexivity.
  - eexists. split; [reflexivity|]. split; [reflexivity|]. split; reflexivity.
Qed.

(** C1, as the code has it.  In variant A the table never holds two rows
    with the same non-null [tweet_url]: [saveSummaryToDB] with a URL already
    stored reports [false] and leaves the rows as they are, so the count for
    that URL stays at 1, and no ingestion, whatever the request and whatever
    the backends do, breaks the uniqueness of URLs.  Variant B's table has no such constraint: its insert
    appends a row for every accepted request, stored URL or not. *)
Theorem C1_insert_is_idempotent_in_variant_A :
  (forall summary author url u w,
      sqlParam pgText url = Some u ->
      Pg.stored u (rows (db w)) = true ->
      exists w',
        saveSummaryToDB summary author url w = (Ok false, w') /\
        rows (db w') = rows (db w))
  /\
  (forall summary author url u w,
      sqlParam pgText url = Some u ->
      Pg.count_url u (rows (db w)) = 1 ->
      Pg.count_url u (rows (db (snd (saveSummaryToDB summary author url w)))) = 1)
  /\
  (forall net encodeURIComponent messaging_send firebase_init req w,
      uniqueUrls (rows (db w)) ->
      uniqueUrls
        (rows (db (snd (VariantA.ingest env net encodeURIComponent pgText messaging_send
                          firebase_init req w)))))
  /\
  (forall messaging_send firebase_init req w fields,
      VariantB.unauthorized env req = false ->
      body req = Obj fields ->
      truthy (prop (lit "summary_text") (Obj fields)) = true ->
      truthy (prop (lit "tweet_author") (Obj fields)) = true ->
      truthy (prop (lit "tweet_url") (Obj fields)) = true ->
      fault (db w) = None ->
      exists s row w',
        sqlParam pgText (prop (lit "summary_text") (Obj fields)) = Some s /\
        row = Pg.new_row (db w) s
                (sqlParam pgText (prop (lit "tweet_author") (Obj fields)))
                (sqlParam pgText (prop (lit "tweet_url") (Obj fields))) /\
        VariantB.ingest env pgText messaging_send firebase_init req w =
          (Ok {| code := 200; payload := Item (Some row) |}, w') /\
        rows (db w') = rows (db w) ++ [row]).
Proof.
  assert (Hstored : forall summary author url u w,
             sqlParam pgText url = Some u ->
             Pg.stored u (rows (db w)) = true ->
             exists w',
               saveSummaryToDB summary author url w = (Ok false, w') /\
               rows (db w') = rows (db w)).
  { intros summary author url u w Hu Hs.
    destruct (saveSummaryToDB_cases summary author url w) as [w' [[E Hr]|[E [Hc Hr]]]].
    - eauto.
    - rewrite Hu in Hc. simpl in Hc. congruence. }
  split; [exact Hstored|]. split; [|split].
  - intros summary author url u w Hu Hc.
    destruct (Hstored summary author url u w Hu) as [w' [E Hr]].
    + apply stored_count. lia.
    + rewrite E. simpl. now rewrite Hr.
  - intros net encodeURIComponent messaging_send firebase_init req w.
    apply keepsUnique_ingestA.
  - exact ingestB_appends.
Qed.

End Persistence.

(** Variant B, the same URL pushed twice: both answered 200, two rows. *)
Lemma C1_counterexample :
  let url := lit "https://x.com/a/status/1" in
  let req := Sample.pushRequest "s3cret" "@a: hi" "a" "https://x.com/a/status/1" in
  let first := VariantB.ingest Sample.env Sample.pgText Sample.sendOk Sample.initOk req
                 Sample.world in
  let second := VariantB.ingest Sample.env Sample.pgText Sample.sendOk Sample.initOk req
                  (snd first) in
  Pg.count_url url (rows (db (snd first))) = 1 /\
  verdict (fst second) = Some (200%N, Some true) /\
  Pg.count_url url (rows (db (snd second))) = 2.
Proof. vm_compute. repeat split; reflexivity. Qed.

(** Variant A, the same URL saved twice; variant B pushing it once more. *)
Lemma C1_witness :
  let url := msg "https://x.com/a/status/1" in
  let stored :=
    snd (VariantA.saveSummaryToDB Sample.env Sample.pgText (lit "@a: hi") (msg "a") url
           Sample.world) in
  let push := Sample.pushRequest "s3cret" "@a: hi" "a" "https://x.com/a/status/1" in
  sqlParam Sample.pgText url = Some (lit "https://x.com/a/status/1") /\
  Pg.stored (lit "https://x.com/a/status/1") (rows (db stored)) = true /\
  (exists w',
      VariantA.saveSummaryToDB Sample.env Sample.pgText (lit "@a: again") (msg "a") url stored
        = (Ok false, w') /\
      rows (db w') = rows (db stored)) /\
  Pg.count_url (lit "https://x.com/a/status/1") (rows (db stored)) = 1 /\
  Pg.count_url (lit "https://x.com/a/status/1")
    (rows (db (snd (VariantA.saveSummaryToDB Sample.env Sample.pgText (lit "@a: again")
                      (msg "a") url stored)))) = 1 /\
  uniqueUrls (rows (db Sample.world)) /\
  uniqueUrls
    (rows (db (snd (VariantA.ingest Sample.env (Sample.netJson (Sample.geminiAnswer "@a: hi"))
                      Sample.encodeURIComponent Sample.pgText Sample.sendOk Sample.initOk
                      (Sample.ingestRequest [(lit "authorization", lit "Bearer s3cret")]
                         "hello" "https://x.com/a/status/1")
                      Sample.world)))) /\
  VariantB.unauthorized Sample.env push = false /\
  exists row w',
    VariantB.ingest Sample.env Sample.pgText Sample.sendOk Sample.initOk push stored =
      (Ok {| code := 200; payload := Item (Some row) |}, w') /\
    rows (db w') = rows (db stored) ++ [row].
Proof.
  intros url stored push.
  assert (H1 : sqlParam Sample.pgText url = Some (lit "https://x.com/a/status/1"))
    by reflexivity.
  assert (H2 : Pg.stored (lit "https://x.com/a/status/1") (rows (db stored)) = true)
    by reflexivity.
  assert (H3 : Pg.count_url (lit "https://x.com/a/status/1") (rows (db stored)) = 1)
    by reflexivity.
  assert (H4 : uniqueUrls (rows (db Sample.world))).
  { intros u. apply Nat.le_0_l. }
  assert (H5 : VariantB.unauthorized Sample.env push = false) by reflexivity.
  pose proof (C1_insert_is_idempotent_in_variant_A Sample.env Sample.pgText)
    as [Hstored [Hcount [Hinv Hb]]].
  split; [exact H1|]. split; [exact H2|].
  split; [exact (Hstored (lit "@a: again") (msg "a") url _ stored H1 H2)|].
  split; [exact H3|].
  split; [exact (Hcount (lit "@a: again") (msg "a") url _ stored H1 H3)|].
  split; [exact H4|].
  split; [exact (Hinv _ _ _ _ _ Sample.world H4)|].
  split; [exact H5|].
  destruct (Hb Sample.sendOk Sample.initOk push stored _ H5 eq_refl eq_refl eq_refl eq_refl
              eq_refl) as [s [row [w' [_ [_ [E Hr]]]]]].
  exists row, w'. split; [exact E | exact Hr].
Defined.

(* ================================================================== *)
(** * The notification dispatcher *)
(* ================================================================== *)

Lemma sameVerdict_refl m : sameVerdict m m.
Proof.
  intros w. destruct (m w) as [[p|e] w1] eqn:E.
  - left. exists p, p, w1, w1. auto.
  - right. exists e, w1. auto.
Qed.

Lemma sameVerdict_bind {A} (m : M A) k1 k2 :
  (forall a, sameVerdict (k1 a) (k2 a)) -> sameVerdict (bind m k1) (bind m k2).
Proof.
  intros H w. unfold bind. destruct (m w) as [[a|e] w1].
  - apply H.
  - right. exists e, w1. auto.
Qed.

Lemma sameVerdict_try_catch m1 m2 h :
  sameVerdict m1 m2 -> sameVerdict (try_catch m1 h) (try_catch m2 h).
Proof.
  intros H w. unfold try_catch.
  destruct (H w) as [[p1 [p2 [w1 [w2 [E1 [E2 Hv]]]]]]|[e [w1 [E1 E2]]]]; rewrite E1, E2.
  - left. exists p1, p2, w1, w2. auto.
  - apply sameVerdict_refl.
Qed.

(** Two tails that cannot throw, before responses of one status and one
    [ok] field. *)
Lemma sameVerdict_tail {A B} (m1 : M A) (m2 : M B) k1 k2 (c : N) (o : option bool) :
  (forall w, exists a w', m1 w = (Ok a, w')) ->
  (forall w, exists b w', m2 w = (Ok b, w')) ->
  (forall a, exists r, k1 a = ret r /\ code r = c /\ ok_flag (payload r) = o) ->
  (forall b, exists r, k2 b = ret r /\ code r = c /\ ok_flag (payload r) = o) ->
  sameVerdict (bind m1 k1) (bind m2 k2).
Proof.
  intros H1 H2 Hk1 Hk2 w. unfold bind.
  destruct (H1 w) as [a [w1 E1]]. destruct (H2 w) as [b [w2 E2]].
  destruct (Hk1 a) as [r1 [K1 [C1 O1]]]. destruct (Hk2 b) as [r2 [K2 [C2 O2]]].
  rewrite E1, E2, K1, K2. left. exists r1, r2, w1, w2.
  repeat split; congruence.
Qed.

Section Notification.

Variable env : ProcessEnv.

Section Dispatcher.

Variable messaging_send : Notification -> Result jsstring.
Variable firebase_init : jsstring -> Result unit.

Let sendFCMNotification := VariantA.sendFCMNotification env messaging_send firebase_init.

(** [sendFCMNotification] returns a boolean, whatever happens. *)
Lemma sendFCMNotification_returns title message url w :
  exists pushed w',
    sendFCMNotification title message url w = (Ok pushed, w') /\ db w' = db w.
Proof.
  unfold sendFCMNotification, VariantA.sendFCMNotification.
  destruct (VariantA.fcmInitialized env firebase_init); cbn [negb].
  - unfold try_catch, bind, VariantA.send, emit, lift, console.
    destruct (messaging_send _); do 2 eexists; split; reflexivity.
  - do 2 eexists. split; reflexivity.
Qed.

(** The notification block of variant B returns, whatever happens. *)
Lemma fcmBlockB_returns (summary_text tweet_author tweet_url : value) w :
  exists u w',
    (if 0 <? VariantB.apps_length env firebase_init
     then
       try_catch
         (bind (VariantB.send messaging_send
                  {| n_title := msg "The Capitol Wire"; n_body := summary_text;
                     n_url := tweet_url; n_topic := lit "hillpulse_updates" |})
               (fun _ => console log [msg "FCM Notification sent for:"; tweet_author]))
         (fun fcmError => console error [msg "FCM Send Error:"; Str fcmError])
     else ret tt) w = (Ok u, w').
Proof.
  destruct (0 <? VariantB.apps_length env firebase_init).
  - unfold try_catch, bind, VariantB.send, emit, lift, console.
    destruct (messaging_send _); do 2 eexists; reflexivity.
  - do 2 eexists. reflexivity.
Qed.

End Dispatcher.

(** C8.  [sendFCMNotification] returns a boolean for every input and never
    throws; it returns [false], after a line on the console, when Firebase
    was not initialized (in particular when no service account was supplied)
    and when [send] fails.  In both variants the status and the [ok] field of
    the ingestion response are the same whatever the notification backend
    does. *)
Theorem C8_notification_failure_never_propagates :
  (forall messaging_send firebase_init title message url w,
      exists pushed w',
        VariantA.sendFCMNotification env messaging_send firebase_init title message url w
          = (Ok pushed, w'))
  /\
  (forall messaging_send firebase_init title message url w,
      VariantA.fcmInitialized env firebase_init = false ->
      VariantA.sendFCMNotification env messaging_send firebase_init title message url w
        = (Ok false,
           logged w warn [msg "Skipping FCM: Firebase Admin SDK not initialized."]))
  /\
  (forall firebase_init,
      env_FCM_SERVICE_ACCOUNT_B64 env = None ->
      VariantA.fcmInitialized env firebase_init = false)
  /\
  (forall messaging_send firebase_init title message url w e,
      VariantA.fcmInitialized env firebase_init = true ->
      messaging_send (broadcast title message url) = Throw e ->
      VariantA.sendFCMNotification env messaging_send firebase_init title message url w
        = (Ok false,
           {| db := db w; nfetch := nfetch w;
              trace := (trace w ++ [Send (broadcast title message url)])
                       ++ [Console error [msg "FCM Send Failed:"; Str e]] |}))
  /\
  (forall net encodeURIComponent pgText send1 init1 send2 init2 req w,
      verdict (fst (VariantA.ingest env net encodeURIComponent pgText send1 init1 req w))
      = verdict (fst (VariantA.ingest env net encodeURIComponent pgText send2 init2 req w)))
  /\
  (forall pgText send1 init1 send2 init2 req w,
      verdict (fst (VariantB.ingest env pgText send1 init1 req w))
      = verdict (fst (VariantB.ingest env pgText send2 init2 req w))).
Proof.
  assert (Hv : forall m1 m2 w, sameVerdict m1 m2 -> verdict (fst (m1 w)) = verdict (fst (m2 w))).
  { intros m1 m2 w H.
    destruct (H w) as [[p1 [p2 [w1 [w2 [E1 [E2 [Hc Ho]]]]]]]|[e [w1 [E1 E2]]]];
      rewrite E1, E2; simpl; congruence. }
  split; [|split; [|split; [|split; [|split]]]].
  - intros messaging_send firebase_init title message url w.
    destruct (sendFCMNotification_returns messaging_send firebase_init title message url w)
      as [pushed [w' [E _]]].
    eauto.
  - intros messaging_send firebase_init title message url w H.
    unfold VariantA.sendFCMNotification. now rewrite H.
  - intros firebase_init H. unfold VariantA.fcmInitialized, VariantA.FCM_SERVICE_ACCOUNT_B64.
    now rewrite H.
  - intros messaging_send firebase_init title message url w e Hi Hs.
    unfold VariantA.sendFCMNotification. rewrite Hi. cbn [negb].
    unfold try_catch, bind, VariantA.send, emit, lift, console.
    fold (broadcast title message url). rewrite Hs. reflexivity.
  - intros net encodeURIComponent pgText send1 init1 send2 init2 req w.
    apply Hv. unfold VariantA.ingest.
    apply sameVerdict_try_catch.
    destruct (negb (VariantA.assertAuthorized env req)); [apply sameVerdict_refl|].
    apply sameVerdict_bind. intros author.
    apply sameVerdict_bind. intros text.
    destruct (negb (truthy text)); [apply sameVerdict_refl|].
    apply sameVerdict_bind. intros summary.
    apply sameVerdict_bind. intros saved.
    apply sameVerdict_tail with (c := 200%N) (o := Some true).
    + intros w1.
      destruct (sendFCMNotification_returns send1 init1 (msg "The Capitol Wire") summary
                  (or_else (prop (lit "url") (tweetOf req)) (Str [])) w1)
        as [b [w' [E _]]].
      exists b, w'. exact E.
    + intros w1.
      destruct (sendFCMNotification_returns send2 init2 (msg "The Capitol Wire") summary
                  (or_else (prop (lit "url") (tweetOf req)) (Str [])) w1)
        as [b [w' [E _]]].
      exists b, w'. exact E.
    + intros a. eexists. repeat split.
    + intros b. eexists. repeat split.
  - intros pgText send1 init1 send2 init2 req w.
    apply Hv. unfold VariantB.ingest.
    destruct (VariantB.unauthorized env req); [apply sameVerdict_refl|].
    apply sameVerdict_bind. intros summary_text.
    apply sameVerdict_bind. intros tweet_author.
    apply sameVerdict_bind. intros tweet_url.
    destruct (_ || _); [apply sameVerdict_refl|].
    apply sameVerdict_try_catch.
    apply sameVerdict_bind. intros result.
    apply sameVerdict_tail with (c := 200%N) (o := Some true).
    + intros w1. apply (fcmBlockB_returns send1 init1).
    + intros w1. apply (fcmBlockB_returns send2 init2).
    + intros a. eexists. repeat split.
    + intros b. eexists. repeat split.
Qed.

End Notification.

(** A messaging backend that refuses every message, and a deployment without
    a service account. *)
Lemma C8_witness :
  let title := msg "The Capitol Wire" in
  let url := msg "https://x.com/a/status/1" in
  VariantA.fcmInitialized Sample.env Sample.initOk = true /\
  Sample.sendFails (broadcast title (lit "@a: hi") url)
    = Throw (lit "messaging/server-unavailable") /\
  VariantA.sendFCMNotification Sample.env Sample.sendFails Sample.initOk
    title (lit "@a: hi") url Sample.world
  = (Ok false,
     {| db := db Sample.world; nfetch := nfetch Sample.world;
        trace := (trace Sample.world ++ [Send (broadcast title (lit "@a: hi") url)])
                 ++ [Console error [msg "FCM Send Failed:";
                                    Str (lit "messaging/server-unavailable")]] |}) /\
  env_FCM_SERVICE_ACCOUNT_B64 Sample.envNoFirebase = None /\
  VariantA.fcmInitialized Sample.envNoFirebase Sample.initOk = false /\
  VariantA.sendFCMNotification Sample.envNoFirebase Sample.sendOk Sample.initOk
    title (lit "@a: hi") url Sample.world
  = (Ok false,
     logged Sample.world warn [msg "Skipping FCM: Firebase Admin SDK not initialized."]).
Proof.
  intros title url.
  assert (H1 : VariantA.fcmInitialized Sample.env Sample.initOk = true) by reflexivity.
  assert (H2 : Sample.sendFails (broadcast title (lit "@a: hi") url)
               = Throw (lit "messaging/server-unavailable")) by reflexivity.
  assert (H3 : env_FCM_SERVICE_ACCOUNT_B64 Sample.envNoFirebase = None) by reflexivity.
  pose proof (C8_notification_failure_never_propagates Sample.env) as [_ [_ [_ [Hfail _]]]].
  pose proof (C8_notification_failure_never_propagates Sample.envNoFirebase)
    as [_ [Hskip [Hnone _]]].
  split; [exact H1|]. split; [exact H2|].
  split; [exact (Hfail Sample.sendFails Sample.initOk _ _ _ Sample.world _ H1 H2)|].
  split; [exact H3|].
  split; [exact (Hnone Sample.initOk H3)|].
  exact (Hskip Sample.sendOk Sample.initOk _ _ _ Sample.world (Hnone Sample.initOk H3)).
Defined.

(* ================================================================== *)
(** * Further properties: the summarization client *)
(* ================================================================== *)

Lemma waited_app (a b : list Event) : waited (a ++ b) = (waited a + waited b)%N.
Proof.
  induction a as [|e a IH]; [reflexivity|].
  destruct e; simpl; rewrite IH; lia.
Qed.

Lemma waited_calls (tr : list Event) : waited (calls tr) = waited tr.
Proof.
  induction tr as [|e tr IH]; [reflexivity|].
  destruct e; simpl; now rewrite IH.
Qed.

Lemma waited_attempts n url post :
  waited (attempts (S n) url post) = (8000 * N.of_nat n)%N.
Proof.
  induction n as [|n IH]; [reflexivity|].
  change (attempts (S (S n)) url post)
    with (Fetch url (Some post) :: Sleep 8000 :: attempts (S n) url post).
  cbn [waited]. rewrite IH. lia.
Qed.

Section SummarizationBounds.

Variable env : ProcessEnv.
Variable net : nat -> jsstring -> FetchOutcome.
Variable encodeURIComponent : jsstring -> Result jsstring.

(** Whatever the answer, an attempt is one request and nothing else. *)
Lemma attemptOnce_world url post w :
  snd (VariantA.attemptOnce net url post w) = fetched w url (Some post).
Proof.
  unfold VariantA.attemptOnce, bind, VariantA.fetch, lift, fetched.
  destruct (net (nfetch w) url) as [e|r]; [reflexivity|].
  destruct (N.eqb (status r) 503); [reflexivity|].
  destruct (negb (ok r)); [reflexivity|].
  destruct (json r) as [data|e]; [|reflexivity].
  destruct (or_else (VariantA.firstText data) (Str [])); reflexivity.
Qed.

(** The loop, unrolled once. *)
Lemma retryLoop_S left attempt lastErr url post :
  VariantA.retryLoop net (S left) attempt lastErr url post =
    try_catch (VariantA.attemptOnce net url post)
      (fun err =>
         bind (if S attempt <=? VariantA.MAX_RETRIES
               then bind (console warn
                            [Str (lit "Gemini attempt " ++ ofN (N.of_nat (S attempt))
                                  ++ lit " failed (" ++ err ++ lit "). Retrying in "
                                  ++ ofN (8000 / 1000) ++ lit "s...")])
                         (fun _ => sleep 8000)
               else ret tt)
              (fun _ => VariantA.retryLoop net left (S attempt) (Some err) url post)).
Proof. reflexivity. Qed.

(** The loop, whatever the backend does: between one and [left] requests,
    eight seconds between two of them. *)
Lemma retryLoop_bounded url post :
  forall left attempt lastErr w,
    S left + attempt = S VariantA.MAX_RETRIES ->
    exists n,
      n <= left /\
      let w' := snd (VariantA.retryLoop net (S left) attempt lastErr url post w) in
      db w' = db w /\
      nfetch w' = nfetch w + S n /\
      calls (trace w') = calls (trace w) ++ attempts (S n) url post.
Proof.
  induction left as [|left IH]; intros attempt lastErr w Hsum;
    rewrite retryLoop_S; unfold try_catch;
    pose proof (attemptOnce_world url post w) as Hw;
    destruct (VariantA.attemptOnce net url post w) as [[a|e] w1]; simpl in Hw; subst w1.
  - exists 0. split; [lia|]. simpl. rewrite calls_app. repeat split. lia.
  - exists 0. split; [lia|].
    assert (Ha : (S attempt <=? VariantA.MAX_RETRIES) = false).
    { apply Nat.leb_gt. unfold VariantA.MAX_RETRIES in *. lia. }
    rewrite Ha. unfold bind, ret. cbn [VariantA.retryLoop]. unfold throw.
    simpl. rewrite calls_app. repeat split. lia.
  - exists 0. split; [lia|]. simpl. rewrite calls_app. repeat split. lia.
  - assert (Ha : (S attempt <=? VariantA.MAX_RETRIES) = true).
    { apply Nat.leb_le. unfold VariantA.MAX_RETRIES in *. lia. }
    rewrite Ha. unfold bind, console, sleep, emit.
    match goal with
    | |- context [VariantA.retryLoop net (S left) (S attempt) ?l url post ?w1] =>
        set (w2 := w1);
        destruct (IH (S attempt) l w2) as [n [Hn [Hdb [Hf Htr]]]]; [lia|]
    end.
    exists (S n). split; [lia|]. cbv zeta in *. split; [|split].
    + rewrite Hdb. reflexivity.
    + rewrite Hf. subst w2. simpl. lia.
    + rewrite Htr. subst w2. unfold fetched. cbn [trace]. rewrite !calls_app.
      cbn [calls filter isCall]. rewrite <- !app_assoc. reflexivity.
Qed.

(** X1.  Whatever the backend answers and whatever the arguments,
    [callGeminiSummary] sends at most six requests, spends at most
    5 x 8000 ms waiting, and leaves the database alone. *)
Theorem X1_at_most_six_requests_and_forty_seconds :
  forall text author url w,
    let w' := snd (VariantA.callGeminiSummary env net encodeURIComponent text author url w) in
    nfetch w' <= nfetch w + 6 /\
    (waited (trace w') <= waited (trace w) + 40000)%N /\
    db w' = db w.
Proof.
  intros text author url w. unfold VariantA.callGeminiSummary.
  assert (Hsame : nfetch w <= nfetch w + 6 /\
                  (waited (trace w) <= waited (trace w) + 40000)%N /\ db w = db w).
  { repeat split; lia. }
  destruct (negb _); [exact Hsame|].
  unfold bind, lift.
  destruct (VariantA.encodeValue encodeURIComponent (maybe (VariantA.GEMINI_KEY env)))
    as [k|e]; [|exact Hsame].
  destruct (toStr text) as [t|e]; [|exact Hsame].
  destruct (toStr author) as [a|e]; [|exact Hsame].
  destruct (toStr url) as [u|e]; [|exact Hsame].
  destruct (retryLoop_bounded (VariantA.endpoint k) (VariantA.promptText t a u)
              VariantA.MAX_RETRIES 0 None w) as [n [Hn [Hdb [Hf Htr]]]].
  { unfold VariantA.MAX_RETRIES. lia. }
  change (VariantA.MAX_RETRIES + 1 - 0) with (S VariantA.MAX_RETRIES).
  cbv zeta. split; [|split].
  - rewrite Hf. unfold VariantA.MAX_RETRIES in Hn. lia.
  - rewrite <- (waited_calls (trace (snd _))), Htr, waited_app, waited_calls, waited_attempts.
    unfold VariantA.MAX_RETRIES in Hn. lia.
  - exact Hdb.
Qed.

(** The loop when every remaining attempt throws, for whatever reason. *)
Lemma retryLoop_throws url post (m : nat -> jsstring) :
  forall left attempt lastErr w,
    left + attempt = S VariantA.MAX_RETRIES ->
    (forall i w0, i < left -> nfetch w0 = nfetch w + i ->
       fst (VariantA.attemptOnce net url post w0) = Throw (m (nfetch w0))) ->
    exists w',
      VariantA.retryLoop net left attempt lastErr url post w =
        (Throw (lit "Gemini failed after 6 attempts: "
                ++ VariantA.errMessage
                     match left with
                     | O => lastErr
                     | S l => Some (m (nfetch w + l))
                     end), w')
      /\ nfetch w' = nfetch w + left
      /\ calls (trace w') = calls (trace w) ++ attempts left url post.
Proof.
  induction left as [|left IH]; intros attempt lastErr w Hsum Hthrow.
  - exists w. simpl. rewrite Nat.add_0_r, app_nil_r. auto.
  - cbn [VariantA.retryLoop]. unfold try_catch.
    pose proof (attemptOnce_world url post w) as Hw.
    pose proof (Hthrow 0 w (Nat.lt_0_succ _) (eq_sym (Nat.add_0_r _))) as Hr.
    destruct (VariantA.attemptOnce net url post w) as [r w1].
    simpl in Hw, Hr. subst w1 r.
    destruct left as [|left].
    + assert (Ha : (S attempt <=? VariantA.MAX_RETRIES) = false).
      { apply Nat.leb_gt. unfold VariantA.MAX_RETRIES in *. lia. }
      rewrite Ha. unfold bind, ret. cbn [VariantA.retryLoop]. unfold throw.
      eexists. split; [|split].
      * rewrite Nat.add_0_r. reflexivity.
      * simpl. lia.
      * simpl. rewrite calls_app. reflexivity.
    + assert (Ha : (S attempt <=? VariantA.MAX_RETRIES) = true).
      { apply Nat.leb_le. unfold VariantA.MAX_RETRIES in *. lia. }
      rewrite Ha. unfold bind at 1 2. unfold console, sleep, emit.
      match goal with
      | |- exists w', VariantA.retryLoop _ _ _ _ _ _ ?w1 = _ /\ _ => set (w2 := w1)
      end.
      destruct (IH (S attempt) (Some (m (nfetch w))) w2) as [w' [E [Hn Htr]]].
      * unfold VariantA.MAX_RETRIES in *. lia.
      * intros i w0 Hi Hw0. apply (Hthrow (S i)); [lia|].
        rewrite Hw0. subst w2. simpl. lia.
      * exists w'. split; [|split].
        -- rewrite E. subst w2. simpl.
           replace (S (nfetch w + left)) with (nfetch w + S left) by lia. reflexivity.
        -- rewrite Hn. subst w2. simpl. lia.
        -- rewrite Htr. subst w2. simpl. rewrite !calls_app. simpl.
           rewrite <- !app_assoc. reflexivity.
Qed.

(** An unreadable answer makes the attempt throw. *)
Lemma attemptOnce_unreadable url post w m :
  unreadable (net (nfetch w) url) m ->
  fst (VariantA.attemptOnce net url post w) = Throw m.
Proof.
  intros [r [Hn [Hok Hbody]]].
  assert (H503 : N.eqb (status r) 503 = false).
  { apply N.eqb_neq. intros E. unfold ok in Hok. rewrite E in Hok. discriminate. }
  unfold VariantA.attemptOnce, bind, VariantA.fetch, lift.
  rewrite Hn, H503, Hok. cbn [negb].
  destruct Hbody as [Hj|[data [Hj [Ht [Hns Hm]]]]]; rewrite Hj; [reflexivity|].
  unfold or_else. rewrite Ht.
  destruct (VariantA.firstText data); try (subst m; reflexivity).
  exfalso. eapply Hns. reflexivity.
Qed.

(** X2.  A 2xx answer whose body is not JSON, or whose first text fragment
    is neither falsy nor a string, is a failed attempt like any other: six of
    them in a row and [callGeminiSummary] throws, the sixth error in its
    message, after six requests. *)
Theorem X2_unreadable_answers_are_retried :
  forall key k text author url w (m : nat -> jsstring),
    VariantA.GEMINI_KEY env = Some key ->
    key <> [] ->
    encodeURIComponent key = Ok k ->
    (forall i, i < 6 ->
       unreadable (net (nfetch w + i) (VariantA.endpoint k)) (m (nfetch w + i))) ->
    exists w',
      VariantA.callGeminiSummary env net encodeURIComponent
        (Str text) (maybe author) (Str url) w =
        (Throw (lit "Gemini failed after 6 attempts: " ++ m (nfetch w + 5)), w')
      /\ nfetch w' = nfetch w + 6
      /\ calls (trace w') =
           calls (trace w)
           ++ attempts 6 (VariantA.endpoint k)
                (VariantA.promptText text (authorText author) url).
Proof.
  intros key k text author url w m Hkey Hne Henc Hun.
  rewrite (callGeminiSummary_enters env net encodeURIComponent key k text author url w
             Hkey Hne Henc).
  apply (retryLoop_throws (VariantA.endpoint k)
           (VariantA.promptText text (authorText author) url) m 6 0 None w).
  - reflexivity.
  - intros i w0 Hi Hw0. apply attemptOnce_unreadable. rewrite Hw0. apply Hun. exact Hi.
Qed.

End SummarizationBounds.

(** A backend that answers every request with 200 and a body that is not
    JSON. *)
Lemma X2_witness :
  let net := fun (_ : nat) (_ : jsstring) =>
               Responded {| status := 200; text := Ok (lit "<html>");
                            json := Throw (lit "Unexpected token <") |} in
  VariantA.GEMINI_KEY Sample.env = Some (lit "g-key") /\
  lit "g-key" <> [] /\
  Sample.encodeURIComponent (lit "g-key") = Ok (lit "g-key") /\
  (forall i, i < 6 ->
     unreadable (net (nfetch Sample.world + i) (VariantA.endpoint (lit "g-key")))
       (lit "Unexpected token <")) /\
  exists w',
    VariantA.callGeminiSummary Sample.env net Sample.encodeURIComponent
      (Str (lit "hello")) (maybe None) (Str []) Sample.world =
      (Throw (lit "Gemini failed after 6 attempts: Unexpected token <"), w')
    /\ nfetch w' = 6.
Proof.
  intros net.
  assert (H1 : VariantA.GEMINI_KEY Sample.env = Some (lit "g-key")) by reflexivity.
  assert (H2 : lit "g-key" <> []) by discriminate.
  assert (H3 : Sample.encodeURIComponent (lit "g-key") = Ok (lit "g-key")) by reflexivity.
  assert (H4 : forall i, i < 6 ->
            unreadable (net (nfetch Sample.world + i) (VariantA.endpoint (lit "g-key")))
              ((fun _ => lit "Unexpected token <") (nfetch Sample.world + i))).
  { intros i _. eexists. split; [reflexivity|]. split; [reflexivity|]. left. reflexivity. }
  split; [exact H1|]. split; [exact H2|]. split; [exact H3|]. split; [exact H4|].
  destruct (X2_unreadable_answers_are_retried Sample.env net Sample.encodeURIComponent
              (lit "g-key") (lit "g-key") (lit "hello") None [] Sample.world
              (fun _ => lit "Unexpected token <") H1 H2 H3 H4) as [w' [E [Hn _]]].
  exists w'. split; [exact E | exact Hn].
Defined.

(* ================================================================== *)
(** * Further properties: the content fetcher *)
(* ================================================================== *)

Lemma tagLength_pos s n : VariantA.tagLength s = Some n -> 1 <= n.
Proof.
  revert n. induction s as [|c s IH]; intros n; simpl; [discriminate|].
  destruct (N.eqb c 62).
  - intros H. injection H as <-. lia.
  - destruct (VariantA.tagLength s) as [k|]; simpl; [|discriminate].
    intros H. injection H as <-. lia.
Qed.

Lemma tagLength_one s : VariantA.tagLength s = Some 1 -> exists s', s = 62%N :: s'.
Proof.
  destruct s as [|c s]; simpl; [discriminate|].
  destruct (N.eqb c 62) eqn:E.
  - apply N.eqb_eq in E. subst c. eauto.
  - destruct (VariantA.tagLength s) as [k|] eqn:Ek; simpl; [|discriminate].
    intros H. injection H as H. apply tagLength_pos in Ek. lia.
Qed.

Lemma tagLength_none s : VariantA.tagLength s = None <-> lacks 62 s.
Proof.
  unfold lacks. induction s as [|c s IH]; simpl.
  - split; [intros _ x [] | reflexivity].
  - destruct (N.eqb c 62) eqn:E.
    + apply N.eqb_eq in E. subst c. split; [discriminate|].
      intros H. exfalso. apply (H 62%N); auto.
    + apply N.eqb_neq in E.
      destruct (VariantA.tagLength s) as [k|]; simpl.
      * split; [discriminate|]. intros H.
        assert (Hn : @None nat = None) by reflexivity.
        destruct IH as [_ IH]. discriminate IH. intros x Hx. apply H. now right.
      * split; [|reflexivity]. intros _ x [<-|Hx]; [exact E|].
        destruct IH as [IH _]. now apply IH.
Qed.

(** Stripping only removes units. *)
Lemma stripTagsFrom_In x s : forall skip, In x (VariantA.stripTagsFrom skip s) -> In x s.
Proof.
  induction s as [|c s IH]; intros skip; simpl; [auto|].
  destruct skip as [|k].
  - destruct (N.eqb c 60).
    + destruct (VariantA.tagLength s) as [[|[|n]]|]; simpl;
        try (intros [<-|H]; [now left | right; now apply (IH 0)]).
      intros H. right. now apply (IH (S (S n))).
    + simpl. intros [<-|H]; [now left | right; now apply (IH 0)].
  - intros H. right. now apply (IH k).
Qed.

Lemma stripTagsFrom_no_tag s : forall skip, hasTag (VariantA.stripTagsFrom skip s) = false.
Proof.
  induction s as [|c s IH]; intros skip; [reflexivity|].
  cbn [VariantA.stripTagsFrom]. destruct skip as [|k]; [|apply IH].
  destruct (N.eqb c 60) eqn:Ec.
  - destruct (VariantA.tagLength s) as [[|[|n]]|] eqn:Et.
    + apply tagLength_pos in Et. lia.
    + destruct (tagLength_one s Et) as [s' ->].
      cbn [hasTag]. rewrite IH, Ec. reflexivity.
    + apply IH.
    + cbn [hasTag]. rewrite IH.
      assert (Hn : VariantA.tagLength (VariantA.stripTagsFrom 0 s) = None).
      { apply tagLength_none. intros x Hx. apply tagLength_none in Et.
        apply Et. eapply stripTagsFrom_In. exact Hx. }
      rewrite Hn, Ec. reflexivity.
  - cbn [hasTag]. rewrite IH, Ec. reflexivity.
Qed.

Lemma stripTags_without_tag s : hasTag s = false -> VariantA.stripTags s = s.
Proof.
  unfold VariantA.stripTags. induction s as [|c s IH]; [reflexivity|].
  cbn [hasTag VariantA.stripTagsFrom]. intros H.
  apply orb_false_iff in H. destruct H as [H1 H2].
  destruct (N.eqb c 60).
  - destruct (VariantA.tagLength s) as [[|[|n]]|]; try discriminate;
      now rewrite (IH H2).
  - now rewrite (IH H2).
Qed.

(** X3.  What [replace(/<[^>]+>/g, '')] returns has no tag left in it, it
    holds no unit that the input did not hold, and stripping it again
    changes nothing. *)
Theorem X3_stripped_text_has_no_tag :
  forall s,
    hasTag (VariantA.stripTags s) = false /\
    (forall x, In x (VariantA.stripTags s) -> In x s) /\
    VariantA.stripTags (VariantA.stripTags s) = VariantA.stripTags s.
Proof.
  intros s. split; [|split].
  - apply stripTagsFrom_no_tag.
  - intros x. apply stripTagsFrom_In.
  - apply stripTags_without_tag. apply stripTagsFrom_no_tag.
Qed.

Section Fallback.

Variable net : nat -> jsstring -> FetchOutcome.
Variable encodeURIComponent : jsstring -> Result jsstring.

Let fetchTweetText := VariantA.fetchTweetText net encodeURIComponent.

(** X4.  The two lookups in order.  When the primary one finds a paragraph,
    its snippet is returned after that one request and the secondary endpoint
    is not asked.  When the primary one answers without a paragraph, the
    secondary one is asked next and its text, if it has one, is returned as
    it stands. *)
Theorem X4_secondary_lookup_only_after_primary_passes :
  (forall url w e s,
      truthy url = true ->
      VariantA.encodeValue encodeURIComponent url = Ok e ->
      primaryFinds (net (nfetch w) (VariantA.oEmbedUrl e)) = Some s ->
      fetchTweetText url w = (Ok (Str s), fetched w (VariantA.oEmbedUrl e) None))
  /\
  (forall url w e t,
      truthy url = true ->
      VariantA.encodeValue encodeURIComponent url = Ok e ->
      primaryPasses (net (nfetch w) (VariantA.oEmbedUrl e)) ->
      secondaryFinds (net (S (nfetch w)) (VariantA.syndUrl e)) = Some t ->
      fetchTweetText url w =
        (Ok t, fetched (fetched w (VariantA.oEmbedUrl e) None) (VariantA.syndUrl e) None)).
Proof.
  split.
  - intros url w e s Ht He Hp.
    unfold fetchTweetText, VariantA.fetchTweetText. rewrite Ht. cbn [negb].
    unfold bind at 1, try_catch, bind at 1, lift at 1. rewrite He.
    unfold bind at 1, VariantA.fetch at 1.
    destruct (net (nfetch w) (VariantA.oEmbedUrl e)) as [m|r1]; [discriminate|].
    cbn [primaryFinds] in Hp. unfold bind at 1, VariantA.primary.
    destruct (ok r1); [|discriminate].
    unfold bind at 1, lift at 1. destruct (json r1) as [data|m]; [|discriminate].
    unfold bind at 1, lift at 1.
    destruct (member (lit "html") data) as [h|m]; [|discriminate].
    destruct (or_else h (Str [])); try discriminate.
    rewrite Hp. reflexivity.
  - intros url w e t Ht He [r1 [Hn [Hnok|[data [h [html [Hok [Hj [Hm [Hh Hs]]]]]]]]]] Hsec;
      unfold fetchTweetText, VariantA.fetchTweetText; rewrite Ht; cbn [negb];
      unfold bind at 1, try_catch, bind at 1, lift at 1; rewrite He;
      unfold bind at 1, VariantA.fetch at 1; rewrite Hn;
      unfold bind at 1, VariantA.primary.
    + rewrite Hnok. unfold ret at 1.
      unfold bind at 1, lift at 1.
      unfold bind at 1, VariantA.fetch at 1. cbn [nfetch].
      destruct (net (S (nfetch w)) (VariantA.syndUrl e)) as [m|r2]; [discriminate|].
      cbn [secondaryFinds] in Hsec. unfold VariantA.secondary.
      destruct (ok r2); [|discriminate].
      unfold bind, lift. destruct (json r2) as [d2|m]; [|discriminate].
      destruct (member (lit "text") d2) as [t2|m]; [|discriminate].
      destruct (truthy t2); [|discriminate].
      injection Hsec as ->. reflexivity.
    + rewrite Hok. unfold bind at 1, lift at 1. rewrite Hj.
      unfold bind at 1, lift at 1. rewrite Hm, Hh, Hs. cbn [option_map]. unfold ret at 1.
      unfold bind at 1, lift at 1.
      unfold bind at 1, VariantA.fetch at 1. cbn [nfetch].
      destruct (net (S (nfetch w)) (VariantA.syndUrl e)) as [m|r2]; [discriminate|].
      cbn [secondaryFinds] in Hsec. unfold VariantA.secondary.
      destruct (ok r2); [|discriminate].
      unfold bind, lift. destruct (json r2) as [d2|m]; [|discriminate].
      destruct (member (lit "text") d2) as [t2|m]; [|discriminate].
      destruct (truthy t2); [|discriminate].
      injection Hsec as ->. reflexivity.
Qed.

End Fallback.

(** An oEmbed answer with a paragraph; and a tweet that only the syndication
    endpoint knows. *)
Lemma X4_witness :
  let url := msg "https://x.com/a/status/1" in
  let enc := lit "https%3A%2F%2Fx.com%2Fa%2Fstatus%2F1" in
  let net1 := Sample.netJson (Sample.oEmbedAnswer "<blockquote><p lang='en'>Hi <b>all</b></p></blockquote>") in
  truthy url = true /\
  VariantA.encodeValue Sample.encodeURIComponent url = Ok enc /\
  primaryFinds (net1 (nfetch Sample.world) (VariantA.oEmbedUrl enc)) = Some (lit "Hi all") /\
  VariantA.fetchTweetText net1 Sample.encodeURIComponent url Sample.world
    = (Ok (msg "Hi all"), fetched Sample.world (VariantA.oEmbedUrl enc) None) /\
  primaryPasses (Scenario.netSyndicationOnly (nfetch Sample.world) (VariantA.oEmbedUrl enc)) /\
  secondaryFinds (Scenario.netSyndicationOnly (S (nfetch Sample.world)) (VariantA.syndUrl enc))
    = Some (msg "Votes at noon") /\
  VariantA.fetchTweetText Scenario.netSyndicationOnly Sample.encodeURIComponent url Sample.world
    = (Ok (msg "Votes at noon"),
       fetched (fetched Sample.world (VariantA.oEmbedUrl enc) None) (VariantA.syndUrl enc) None).
Proof.
  intros url enc net1.
  assert (H1 : truthy url = true) by reflexivity.
  assert (H2 : VariantA.encodeValue Sample.encodeURIComponent url = Ok enc) by reflexivity.
  assert (H3 : primaryFinds (net1 (nfetch Sample.world) (VariantA.oEmbedUrl enc))
               = Some (lit "Hi all")) by reflexivity.
  assert (H4 : primaryPasses
                 (Scenario.netSyndicationOnly (nfetch Sample.world) (VariantA.oEmbedUrl enc))).
  { eexists. split; [reflexivity|]. left. reflexivity. }
  assert (H5 : secondaryFinds
                 (Scenario.netSyndicationOnly (S (nfetch Sample.world)) (VariantA.syndUrl enc))
               = Some (msg "Votes at noon")) by reflexivity.
  split; [exact H1|]. split; [exact H2|]. split; [exact H3|].
  split.
  { exact (proj1 (X4_secondary_lookup_only_after_primary_passes net1 Sample.encodeURIComponent)
             url Sample.world enc _ H1 H2 H3). }
  split; [exact H4|]. split; [exact H5|].
  exact (proj2 (X4_secondary_lookup_only_after_primary_passes
                  Scenario.netSyndicationOnly Sample.encodeURIComponent)
           url Sample.world enc _ H1 H2 H4 H5).
Defined.

Lemma X3_witness :
  let s := lit "<b>Hi</b> <a href='/w'>all</a> <>" in
  VariantA.stripTags s = lit "Hi all <>" /\
  hasTag (VariantA.stripTags s) = false /\
  In 72%N (VariantA.stripTags s) /\
  In 72%N s.
Proof.
  intros s.
  destruct (X3_stripped_text_has_no_tag s) as [Hnone [Hin _]].
  assert (H : In 72%N (VariantA.stripTags s)) by (cbn; tauto).
  split; [reflexivity|]. split; [exact Hnone|]. split; [exact H|].
  exact (Hin 72%N H).
Defined.

(* ================================================================== *)
(** * Further properties: the two searches by regular expression *)
(* ================================================================== *)

Lemma startsWith_split p s : startsWith p s = true -> exists rest, s = p ++ rest.
Proof.
  revert s. induction p as [|x p IH]; intros s; [intros _; exists s; reflexivity|].
  destruct s as [|y s]; simpl; [discriminate|].
  intros H. apply andb_true_iff in H. destruct H as [H1 H2].
  apply N.eqb_eq in H1. subst y.
  destruct (IH s H2) as [rest ->]. eauto.
Qed.

Lemma startsWith_longer p a b : startsWith p a = true -> startsWith p (a ++ b) = true.
Proof.
  revert a. induction p as [|x p IH]; intros a; [reflexivity|].
  destruct a as [|y a]; simpl; [discriminate|].
  intros H. apply andb_true_iff in H. destruct H as [H1 H2].
  now rewrite H1, (IH a H2).
Qed.

Lemma lacks_cons c x s : x <> c -> lacks c s -> lacks c (x :: s).
Proof. intros Hx Hs y [<-|Hy]; [exact Hx | now apply Hs]. Qed.

Lemma lacks_tail c x s : lacks c (x :: s) -> x <> c /\ lacks c s.
Proof.
  intros H. split; [apply H; now left | intros y Hy; apply H; now right].
Qed.

Lemma untilSlash_sound s g :
  VariantA.untilSlash s = Some g -> lacks 47 g /\ exists rest, s = g ++ 47%N :: rest.
Proof.
  revert g. induction s as [|c s IH]; intros g; simpl; [discriminate|].
  destruct (N.eqb c 47) eqn:E.
  - apply N.eqb_eq in E. subst c. intros H. injection H as <-.
    split; [intros x []|]. exists s. reflexivity.
  - apply N.eqb_neq in E.
    destruct (VariantA.untilSlash s) as [g'|]; simpl; [|discriminate].
    intros H. injection H as <-.
    destruct (IH g' eq_refl) as [Hl [rest ->]].
    split; [now apply lacks_cons|]. exists rest. reflexivity.
Qed.

Lemma untilSlash_complete g rest :
  lacks 47 g -> VariantA.untilSlash (g ++ 47%N :: rest) = Some g.
Proof.
  induction g as [|c g IH]; intros H; simpl; [reflexivity|].
  apply lacks_tail in H. destruct H as [Hc Hg].
  apply N.eqb_neq in Hc. rewrite Hc, (IH Hg). reflexivity.
Qed.

Lemma handleAt_sound s g :
  VariantA.handleAt s = Some g ->
  g <> [] /\ lacks 47 g /\ exists rest, s = lit "x.com/" ++ g ++ 47%N :: rest.
Proof.
  unfold VariantA.handleAt.
  destruct (startsWith (lit "x.com/") s) eqn:Es; [|discriminate].
  destruct (startsWith_split _ _ Es) as [tail ->].
  change (skipn 6 (lit "x.com/" ++ tail)) with tail.
  destruct (VariantA.untilSlash tail) as [[|c run]|] eqn:Eu; try discriminate.
  intros H. injection H as <-.
  destruct (untilSlash_sound _ _ Eu) as [Hl [rest ->]].
  split; [discriminate|]. split; [exact Hl|]. exists rest. reflexivity.
Qed.

Lemma matchHandle_sound url g :
  VariantA.matchHandle url = Some g ->
  g <> [] /\ lacks 47 g /\
  exists pre rest, url = pre ++ lit "x.com/" ++ g ++ 47%N :: rest.
Proof.
  induction url as [|c url IH].
  - simpl. discriminate.
  - cbn [VariantA.matchHandle].
    destruct (VariantA.handleAt (c :: url)) as [g'|] eqn:E.
    + intros H. injection H as <-.
      destruct (handleAt_sound _ _ E) as [H1 [H2 [rest Hr]]].
      split; [exact H1|]. split; [exact H2|]. exists [], rest. exact Hr.
    + intros H. destruct (IH H) as [H1 [H2 [pre [rest ->]]]].
      split; [exact H1|]. split; [exact H2|]. exists (c :: pre), rest. reflexivity.
Qed.

Lemma matchHandle_complete pre g rest :
  lacks 120 pre -> g <> [] -> lacks 47 g ->
  VariantA.matchHandle (pre ++ lit "x.com/" ++ g ++ 47%N :: rest) = Some g.
Proof.
  intros Hpre Hg Hl. induction pre as [|c pre IH].
  - assert (Hat : VariantA.handleAt (lit "x.com/" ++ g ++ 47%N :: rest) = Some g).
    { unfold VariantA.handleAt.
      change (startsWith (lit "x.com/") (lit "x.com/" ++ g ++ 47%N :: rest))
        with (startsWith [] (g ++ 47%N :: rest)).
      cbn [startsWith].
      change (skipn 6 (lit "x.com/" ++ g ++ 47%N :: rest)) with (g ++ 47%N :: rest).
      rewrite (untilSlash_complete g rest Hl).
      destruct g; [congruence|reflexivity]. }
    cbn [app]. destruct g as [|d g]; [congruence|].
    change (lit "x.com/" ++ (d :: g) ++ 47%N :: rest)
      with (120%N :: (lit ".com/" ++ (d :: g) ++ 47%N :: rest)) in *.
    cbn [VariantA.matchHandle]. now rewrite Hat.
  - apply lacks_tail in Hpre. destruct Hpre as [Hc Hpre].
    change ((c :: pre) ++ lit "x.com/" ++ g ++ 47%N :: rest)
      with (c :: (pre ++ lit "x.com/" ++ g ++ 47%N :: rest)).
    cbn [VariantA.matchHandle].
    assert (Hat : VariantA.handleAt (c :: (pre ++ lit "x.com/" ++ g ++ 47%N :: rest)) = None).
    { unfold VariantA.handleAt.
      change (lit "x.com/") with (120%N :: lit ".com/") at 1. cbn [startsWith].
      assert (E : N.eqb 120 c = false) by (apply N.eqb_neq; congruence).
      now rewrite E. }
    rewrite Hat. exact (IH Hpre).
Qed.

Lemma matchHandle_absent url :
  includes (lit "x.com/") url = false -> VariantA.matchHandle url = None.
Proof.
  induction url as [|c url IH]; intros H.
  - reflexivity.
  - cbn [includes] in H. apply orb_false_iff in H. destruct H as [H1 H2].
    cbn [VariantA.matchHandle]. unfold VariantA.handleAt. rewrite H1. exact (IH H2).
Qed.

(** The author stage of the handler, as a value. *)
Lemma derivedAuthor_stage req w :
  (if negb (truthy (prop (lit "author") (tweetOf req)))
      && truthy (or_else (prop (lit "url") (tweetOf req)) (Str []))
   then bind (lift (VariantA.urlMatch (or_else (prop (lit "url") (tweetOf req)) (Str []))))
          (fun m => match m with
                    | Some (c :: g) => ret (Str (c :: g))
                    | _ => ret (prop (lit "author") (tweetOf req))
                    end)
   else ret (prop (lit "author") (tweetOf req))) w = (derivedAuthor req, w).
Proof.
  unfold derivedAuthor. destruct (_ && _); [|reflexivity].
  unfold bind, lift.
  destruct (VariantA.urlMatch _) as [[[|c g]|]|e]; reflexivity.
Qed.

(** X5.  The author read from a URL by [/x\.com\/([^\/]+)\//] is a non-empty
    run without a slash that stands in the URL between [x.com/] and the next
    slash; it is found whenever such a run follows the first [x] of the URL;
    a URL in which [x.com/] does not occur gives none, and the handler then
    goes on with the author of the request, absent or not. *)
Theorem X5_author_is_read_after_x_com :
  (forall url g,
      VariantA.matchHandle url = Some g ->
      g <> [] /\ lacks 47 g /\
      exists pre rest, url = pre ++ lit "x.com/" ++ g ++ 47%N :: rest)
  /\
  (forall pre g rest,
      lacks 120 pre -> g <> [] -> lacks 47 g ->
      VariantA.matchHandle (pre ++ lit "x.com/" ++ g ++ 47%N :: rest) = Some g)
  /\
  (forall req url,
      or_else (prop (lit "url") (tweetOf req)) (Str []) = Str url ->
      includes (lit "x.com/") url = false ->
      derivedAuthor req = Ok (prop (lit "author") (tweetOf req)))
  /\
  (forall req pre g rest,
      truthy (prop (lit "author") (tweetOf req)) = false ->
      prop (lit "url") (tweetOf req) = Str (pre ++ lit "x.com/" ++ g ++ 47%N :: rest) ->
      lacks 120 pre -> g <> [] -> lacks 47 g ->
      derivedAuthor req = Ok (Str g)).
Proof.
  split; [exact matchHandle_sound|]. split; [exact matchHandle_complete|]. split.
  - intros req url Hu Hn. unfold derivedAuthor. rewrite Hu.
    destruct (_ && _); [|reflexivity].
    cbn [VariantA.urlMatch]. now rewrite (matchHandle_absent url Hn).
  - intros req pre g rest Ha Hu Hpre Hg Hl. unfold derivedAuthor.
    rewrite Ha, Hu. unfold or_else.
    assert (Ht : truthy (Str (pre ++ lit "x.com/" ++ g ++ 47%N :: rest)) = true).
    { destruct pre; reflexivity. }
    rewrite Ht. cbn [negb andb]. rewrite Ht. cbn [VariantA.urlMatch].
    rewrite (matchHandle_complete pre g rest Hpre Hg Hl).
    destruct g; [congruence|reflexivity].
Qed.

Lemma X5_witness :
  let req := Sample.urlOnlyRequest [] "https://x.com/SenatorDoe/status/1" in
  let twitter := Sample.urlOnlyRequest [] "https://twitter.com/SenatorDoe/status/1" in
  VariantA.matchHandle (lit "https://fedex.com/track/1") = Some (lit "track") /\
  (lit "track" <> [] /\ lacks 47 (lit "track") /\
   exists pre rest, lit "https://fedex.com/track/1" = pre ++ lit "x.com/" ++ lit "track" ++ 47%N :: rest) /\
  derivedAuthor req = Ok (msg "SenatorDoe") /\
  derivedAuthor twitter = Ok Undefined.
Proof.
  intros req twitter.
  pose proof X5_author_is_read_after_x_com as [Hsound [Hcomplete [Hnone Hreq]]].
  assert (H0 : VariantA.matchHandle (lit "https://fedex.com/track/1") = Some (lit "track"))
    by reflexivity.
  assert (Hl : forall s, forallb (fun x => negb (N.eqb x 47)) s = true -> lacks 47 s).
  { intros s H x Hx. rewrite forallb_forall in H. specialize (H x Hx).
    apply negb_true_iff in H. now apply N.eqb_neq. }
  assert (Hx : forall s, forallb (fun x => negb (N.eqb x 120)) s = true -> lacks 120 s).
  { intros s H x Hi. rewrite forallb_forall in H. specialize (H x Hi).
    apply negb_true_iff in H. now apply N.eqb_neq. }
  split; [exact H0|]. split; [exact (Hsound _ _ H0)|]. split.
  - apply (Hreq req (lit "https://") (lit "SenatorDoe") (lit "status/1")).
    + reflexivity.
    + reflexivity.
    + apply Hx. reflexivity.
    + discriminate.
    + apply Hl. reflexivity.
  - apply (Hnone twitter (lit "https://twitter.com/SenatorDoe/status/1")); reflexivity.
Defined.

Lemma startsWith_self p rest : startsWith p (p ++ rest) = true.
Proof.
  induction p as [|x p IH]; [reflexivity|]. simpl. now rewrite N.eqb_refl, IH.
Qed.

Lemma includes_later p pre s : includes p s = true -> includes p (pre ++ s) = true.
Proof.
  intros H. induction pre as [|c pre IH]; [exact H|].
  cbn [app includes]. rewrite IH. apply orb_true_r.
Qed.

Lemma includes_here p rest : includes p (p ++ rest) = true.
Proof.
  destruct (p ++ rest) as [|c s] eqn:E; cbn [includes];
    rewrite <- E, startsWith_self; reflexivity.
Qed.

Lemma afterGt_sound s s' :
  VariantA.afterGt s = Some s' -> exists attrs, lacks 62 attrs /\ s = attrs ++ 62%N :: s'.
Proof.
  induction s as [|c s IH]; simpl; [discriminate|].
  destruct (N.eqb c 62) eqn:E.
  - apply N.eqb_eq in E. subst c. intros H. injection H as <-.
    exists []. split; [intros x []|reflexivity].
  - apply N.eqb_neq in E. intros H.
    destruct (IH H) as [attrs [Hl ->]].
    exists (c :: attrs). split; [now apply lacks_cons|reflexivity].
Qed.

Lemma afterGt_complete attrs s' :
  lacks 62 attrs -> VariantA.afterGt (attrs ++ 62%N :: s') = Some s'.
Proof.
  induction attrs as [|c attrs IH]; intros H; simpl; [reflexivity|].
  apply lacks_tail in H. destruct H as [Hc Ha].
  apply N.eqb_neq in Hc. rewrite Hc. exact (IH Ha).
Qed.

Lemma untilCloseP_sound s : forall g,
  VariantA.untilCloseP s = Some g ->
  oneLine g /\ includes (lit "</p>") g = false /\ exists rest, s = g ++ lit "</p>" ++ rest.
Proof.
  induction s as [|c s IH]; intros g.
  - cbn. discriminate.
  - cbn [VariantA.untilCloseP].
    destruct (startsWith (lit "</p>") (c :: s)) eqn:Es.
    + intros H. injection H as <-.
      split; [intros x []|]. split; [reflexivity|].
      destruct (startsWith_split _ _ Es) as [rest Hr]. exists rest. exact Hr.
    + destruct (isLineTerminator c) eqn:El; [discriminate|].
      destruct (VariantA.untilCloseP s) as [g'|]; simpl; [|discriminate].
      intros H. injection H as <-.
      destruct (IH g' eq_refl) as [H1 [H2 [rest Hr]]].
      split; [intros x [<-|Hx]; [exact El | now apply H1]|].
      split.
      * cbn [includes]. rewrite H2.
        destruct (startsWith (lit "</p>") (c :: g')) eqn:Eg; [|reflexivity].
        apply (startsWith_longer _ _ (lit "</p>" ++ rest)) in Eg.
        rewrite Hr in Es. cbn [app] in Eg. congruence.
      * exists rest. now rewrite Hr.
Qed.

Lemma untilCloseP_complete g rest :
  oneLine g -> lacks 60 g -> VariantA.untilCloseP (g ++ lit "</p>" ++ rest) = Some g.
Proof.
  induction g as [|c g IH]; intros H1 H2.
  - reflexivity.
  - cbn [app VariantA.untilCloseP].
    apply lacks_tail in H2. destruct H2 as [Hc Hg].
    assert (Es : startsWith (lit "</p>") (c :: g ++ lit "</p>" ++ rest) = false).
    { change (lit "</p>") with (60%N :: lit "/p>") at 1. cbn [startsWith].
      assert (E : N.eqb 60 c = false) by (apply N.eqb_neq; congruence).
      now rewrite E. }
    rewrite Es, (H1 c (or_introl eq_refl)).
    rewrite IH; [reflexivity | intros x Hx; apply H1; now right | exact Hg].
Qed.

Lemma paragraphAt_sound s g :
  VariantA.paragraphAt s = Some g ->
  exists attrs rest,
    s = lit "<p" ++ attrs ++ 62%N :: g ++ lit "</p>" ++ rest /\
    lacks 62 attrs /\ oneLine g /\ includes (lit "</p>") g = false.
Proof.
  unfold VariantA.paragraphAt.
  destruct (startsWith (lit "<p") s) eqn:Es; [|discriminate].
  destruct (startsWith_split _ _ Es) as [tail ->].
  change (skipn 2 (lit "<p" ++ tail)) with tail.
  destruct (VariantA.afterGt tail) as [inner|] eqn:Ea; [|discriminate].
  intros H. destruct (afterGt_sound _ _ Ea) as [attrs [Hl ->]].
  destruct (untilCloseP_sound _ _ H) as [H1 [H2 [rest ->]]].
  exists attrs, rest. repeat split; assumption.
Qed.

Lemma matchParagraph_sound html : forall g,
  VariantA.matchParagraph html = Some g ->
  exists pre attrs rest,
    html = pre ++ lit "<p" ++ attrs ++ 62%N :: g ++ lit "</p>" ++ rest /\
    lacks 62 attrs /\ oneLine g /\ includes (lit "</p>") g = false.
Proof.
  induction html as [|c html IH]; intros g.
  - cbn. discriminate.
  - cbn [VariantA.matchParagraph].
    destruct (VariantA.paragraphAt (c :: html)) as [g'|] eqn:E.
    + intros H. injection H as <-.
      destruct (paragraphAt_sound _ _ E) as [attrs [rest [Hr H]]].
      exists [], attrs, rest. split; [exact Hr | exact H].
    + intros H. destruct (IH g H) as [pre [attrs [rest [-> Hp]]]].
      exists (c :: pre), attrs, rest. split; [reflexivity | exact Hp].
Qed.

Lemma matchParagraph_complete pre attrs g rest :
  includes (lit "<p") pre = false -> lacks 62 attrs -> oneLine g -> lacks 60 g ->
  VariantA.matchParagraph (pre ++ lit "<p" ++ attrs ++ 62%N :: g ++ lit "</p>" ++ rest)
    = Some g.
Proof.
  intros Hpre Ha H1 H2.
  change (lit "<p" ++ attrs ++ 62%N :: g ++ lit "</p>" ++ rest)
    with (60%N :: 112%N :: (attrs ++ 62%N :: g ++ lit "</p>" ++ rest)).
  rewrite (matchParagraph_skips pre _ Hpre).
  cbn [VariantA.matchParagraph].
  assert (Hat : VariantA.paragraphAt
                  (60%N :: 112%N :: (attrs ++ 62%N :: g ++ lit "</p>" ++ rest)) = Some g).
  { unfold VariantA.paragraphAt.
    change (startsWith (lit "<p") (60%N :: 112%N :: (attrs ++ 62%N :: g ++ lit "</p>" ++ rest)))
      with true. cbn [skipn].
    rewrite (afterGt_complete attrs _ Ha). now apply untilCloseP_complete. }
  now rewrite Hat.
Qed.

Lemma hasTag_lacks g : lacks 60 g -> hasTag g = false.
Proof.
  induction g as [|c g IH]; intros H; [reflexivity|].
  apply lacks_tail in H. destruct H as [Hc Hg].
  cbn [hasTag]. apply N.eqb_neq in Hc. now rewrite Hc, (IH Hg).
Qed.

(** X6.  What [/<p[^>]*>(.*?)<\/p>/] captures stands in the fragment between
    a [<p ...>] and a [</p>], holds no line terminator and no [</p>] of its
    own.  A paragraph on one line that holds no [<], after a prefix without
    [<p], is the one captured, and the snippet is that paragraph with the
    five entities decoded.  A fragment without [</p>] has no snippet. *)
Theorem X6_snippet_is_the_first_one_line_paragraph :
  (forall html g,
      VariantA.matchParagraph html = Some g ->
      exists pre attrs rest,
        html = pre ++ lit "<p" ++ attrs ++ 62%N :: g ++ lit "</p>" ++ rest /\
        lacks 62 attrs /\ oneLine g /\ includes (lit "</p>") g = false)
  /\
  (forall pre attrs g rest,
      includes (lit "<p") pre = false -> lacks 62 attrs -> oneLine g -> lacks 60 g ->
      VariantA.snippet (pre ++ lit "<p" ++ attrs ++ 62%N :: g ++ lit "</p>" ++ rest)
        = Some (VariantA.decodeEntities g))
  /\
  (forall html, includes (lit "</p>") html = false -> VariantA.snippet html = None).
Proof.
  split; [exact matchParagraph_sound|]. split.
  - intros pre attrs g rest Hpre Ha H1 H2. unfold VariantA.snippet.
    rewrite (matchParagraph_complete pre attrs g rest Hpre Ha H1 H2). cbn [option_map].
    now rewrite (stripTags_without_tag g (hasTag_lacks g H2)).
  - intros html Hn. unfold VariantA.snippet.
    destruct (VariantA.matchParagraph html) as [g|] eqn:E; [|reflexivity].
    destruct (matchParagraph_sound _ _ E) as [pre [attrs [rest [-> _]]]].
    exfalso.
    assert (Hi : includes (lit "</p>")
                   (pre ++ lit "<p" ++ attrs ++ 62%N :: g ++ lit "</p>" ++ rest) = true).
    { apply includes_later. apply (includes_later _ (lit "<p")).
      apply includes_later. apply (includes_later _ (62%N :: g)).
      apply includes_here. }
    congruence.
Qed.

Lemma X6_witness :
  let html := lit "<blockquote><pre class='t'>Floor vote at 5 &amp; 7</p>&mdash; A</blockquote>" in
  VariantA.matchParagraph html = Some (lit "Floor vote at 5 &amp; 7") /\
  (exists pre attrs rest,
      html = pre ++ lit "<p" ++ attrs ++ 62%N :: lit "Floor vote at 5 &amp; 7" ++ lit "</p>" ++ rest /\
      lacks 62 attrs /\ oneLine (lit "Floor vote at 5 &amp; 7") /\
      includes (lit "</p>") (lit "Floor vote at 5 &amp; 7") = false) /\
  VariantA.snippet html = Some (VariantA.decodeEntities (lit "Floor vote at 5 &amp; 7")) /\
  VariantA.snippet (lit "<p>never closed") = None.
Proof.
  intros html.
  pose proof X6_snippet_is_the_first_one_line_paragraph as [Hsound [Hcomplete Hnone]].
  assert (H0 : VariantA.matchParagraph html = Some (lit "Floor vote at 5 &amp; 7"))
    by reflexivity.
  assert (Hl : forall c s, forallb (fun x => negb (N.eqb x c)) s = true -> lacks c s).
  { intros c s H x Hx. rewrite forallb_forall in H. specialize (H x Hx).
    apply negb_true_iff in H. now apply N.eqb_neq. }
  assert (Ho : forall s, forallb (fun x => negb (isLineTerminator x)) s = true -> oneLine s).
  { intros s H x Hx. rewrite forallb_forall in H. specialize (H x Hx).
    now apply negb_true_iff in H. }
  split; [exact H0|]. split; [exact (Hsound _ _ H0)|]. split.
  - apply (Hcomplete (lit "<blockquote>") (lit "re class='t'") (lit "Floor vote at 5 &amp; 7")
             (lit "&mdash; A</blockquote>")).
    + reflexivity.
    + apply Hl. reflexivity.
    + apply Ho. reflexivity.
    + apply Hl. reflexivity.
  - apply Hnone. reflexivity.
Defined.

(* ================================================================== *)
(** * Further properties: what a request can cost *)
(* ================================================================== *)

Lemma total_app cost (a b : list Event) : total cost (a ++ b) = total cost a + total cost b.
Proof. induction a as [|e a IH]; simpl; [reflexivity|]. rewrite IH. lia. Qed.

Section Budget.

Variable cost : Event -> nat.

Lemma costs_ret {A} (a : A) : costs cost 0 (ret a).
Proof. intros w. exists []. simpl. now rewrite app_nil_r. Qed.

Lemma costs_throw {A} e : costs cost 0 (@throw A e).
Proof. intros w. exists []. simpl. now rewrite app_nil_r. Qed.

Lemma costs_lift {A} (r : Result A) : costs cost 0 (lift r).
Proof. intros w. exists []. simpl. now rewrite app_nil_r. Qed.

Lemma costs_emit ev : costs cost (cost ev) (emit ev).
Proof. intros w. exists [ev]. simpl. split; [reflexivity|lia]. Qed.

Lemma costs_fetch net url post :
  costs cost (cost (Fetch url post)) (VariantA.fetch net url post).
Proof.
  intros w. exists [Fetch url post]. unfold VariantA.fetch.
  destruct (net (nfetch w) url); simpl; (split; [reflexivity|lia]).
Qed.

Lemma pool_query_trace q ps w :
  trace (snd (pool_query q ps w)) = trace w ++ [Query q ps].
Proof.
  unfold pool_query. destruct (fault (db w)); [reflexivity|].
  destruct q; unfold Pg.insert_do_nothing, Pg.insert_plain;
    repeat match goal with
           | |- context [match ?x with _ => _ end] => destruct x
           end; reflexivity.
Qed.

Lemma costs_pool_query q ps : costs cost (cost (Query q ps)) (pool_query q ps).
Proof.
  intros w. exists [Query q ps]. rewrite pool_query_trace. simpl.
  split; [reflexivity|lia].
Qed.

Lemma costs_le {A} n n' (m : M A) : n <= n' -> costs cost n m -> costs cost n' m.
Proof.
  intros Hle H w. destruct (H w) as [added [E Hn]]. exists added. split; [exact E|lia].
Qed.

Lemma costs_bind {A B} n1 n2 (m : M A) (k : A -> M B) :
  costs cost n1 m -> (forall a, costs cost n2 (k a)) -> costs cost (n1 + n2) (bind m k).
Proof.
  intros Hm Hk w. unfold bind. destruct (Hm w) as [a1 [E1 H1]].
  destruct (m w) as [[a|e] w1]; simpl in *.
  - destruct (Hk a w1) as [a2 [E2 H2]]. exists (a1 ++ a2).
    rewrite E2, E1, app_assoc, total_app. split; [reflexivity|lia].
  - exists a1. split; [exact E1|lia].
Qed.

Lemma costs_try_catch {A} n1 n2 (m : M A) h :
  costs cost n1 m -> (forall e, costs cost n2 (h e)) -> costs cost (n1 + n2) (try_catch m h).
Proof.
  intros Hm Hh w. unfold try_catch. destruct (Hm w) as [a1 [E1 H1]].
  destruct (m w) as [[a|e] w1]; simpl in *.
  - exists a1. split; [exact E1|lia].
  - destruct (Hh e w1) as [a2 [E2 H2]]. exists (a1 ++ a2).
    rewrite E2, E1, app_assoc, total_app. split; [reflexivity|lia].
Qed.

(** The console is free; a request, a pause, a statement and a notification
    cost at most [F], [W], [Q] and [S]. *)
Variables F W Q S : nat.
Hypothesis console_free : forall l args, cost (Console l args) = 0.
Hypothesis fetch_cost : forall url post, cost (Fetch url post) <= F.
Hypothesis sleep_cost : forall ms, cost (Sleep ms) <= W.
Hypothesis query_cost : forall q ps, cost (Query q ps) <= Q.
Hypothesis send_cost : forall n, cost (Send n) <= S.

Lemma costs_console l args : costs cost 0 (console l args).
Proof.
  unfold console. rewrite <- (console_free l args). apply costs_emit.
Qed.

Lemma costs_a_fetch net url post : costs cost F (VariantA.fetch net url post).
Proof. eapply costs_le; [apply fetch_cost | apply costs_fetch]. Qed.

Lemma costs_sleep ms : costs cost W (sleep ms).
Proof. eapply costs_le; [apply sleep_cost | apply costs_emit]. Qed.

Lemma costs_a_query q ps : costs cost Q (pool_query q ps).
Proof. eapply costs_le; [apply query_cost | apply costs_pool_query]. Qed.

Lemma costs_logged_ret {A} l args (a : A) : costs cost 0 (bind (console l args) (fun _ => ret a)).
Proof. apply (costs_bind 0 0); [apply costs_console | intros _; apply costs_ret]. Qed.

Lemma costs_attemptOnce net url post : costs cost F (VariantA.attemptOnce net url post).
Proof.
  unfold VariantA.attemptOnce.
  apply (costs_le (F + 0)); [lia|].
  apply costs_bind; [apply costs_a_fetch | intros res].
  destruct (N.eqb _ _); [apply costs_throw|].
  destruct (negb _); [apply costs_throw|].
  apply (costs_bind 0 0); [apply costs_lift | intros data].
  destruct (or_else _ _); first [apply costs_ret | apply costs_throw].
Qed.

Lemma costs_retryLoop net url post :
  forall left attempt lastErr,
    costs cost (left * (F + W)) (VariantA.retryLoop net left attempt lastErr url post).
Proof.
  induction left as [|left IH]; intros attempt lastErr; cbn [VariantA.retryLoop].
  - apply costs_throw.
  - apply (costs_le (F + (W + left * (F + W)))); [lia|].
    apply costs_try_catch; [apply costs_attemptOnce | intros e].
    apply costs_bind; [|intros _; apply IH].
    destruct (_ <=? _).
    + apply (costs_le (0 + W)); [lia|].
      apply costs_bind; [apply costs_console | intros _; apply costs_sleep].
    + apply (costs_le 0); [lia | apply costs_ret].
Qed.

Lemma costs_callGeminiSummary env net enc text author url :
  costs cost (6 * (F + W)) (VariantA.callGeminiSummary env net enc text author url).
Proof.
  unfold VariantA.callGeminiSummary.
  destruct (negb _); [apply (costs_le 0); [lia | apply costs_throw]|].
  apply (costs_le (0 + (0 + (0 + (0 + 6 * (F + W)))))); [lia|].
  repeat (apply costs_bind; [apply costs_lift | intros ?]).
  apply (costs_retryLoop net _ _ 6).
Qed.

Lemma costs_primary r : costs cost 0 (VariantA.primary r).
Proof.
  unfold VariantA.primary. destruct (ok r); [|apply costs_ret].
  apply (costs_bind 0 0); [apply costs_lift | intros data].
  apply (costs_bind 0 0); [apply costs_lift | intros h].
  destruct (or_else _ _); first [apply costs_ret | apply costs_throw].
Qed.

Lemma costs_secondary r : costs cost 0 (VariantA.secondary r).
Proof.
  unfold VariantA.secondary. destruct (ok r); [|apply costs_ret].
  apply (costs_bind 0 0); [apply costs_lift | intros data].
  apply (costs_bind 0 0); [apply costs_lift | intros t].
  destruct (truthy t); apply costs_ret.
Qed.

Lemma costs_fetchTweetText net enc url :
  costs cost (2 * F) (VariantA.fetchTweetText net enc url).
Proof.
  unfold VariantA.fetchTweetText.
  destruct (negb _); [apply (costs_le 0); [lia | apply costs_ret]|].
  apply (costs_le ((0 + (F + (0 + (0 + (F + 0)))) + 0) + 0)); [lia|].
  apply costs_bind.
  - apply costs_try_catch; [|intros e; apply costs_logged_ret].
    apply costs_bind; [apply costs_lift | intros e1].
    apply costs_bind; [apply costs_a_fetch | intros r1].
    apply costs_bind; [apply costs_primary | intros found].
    destruct found as [v|].
    + apply (costs_le 0); [lia | apply costs_ret].
    + apply costs_bind; [apply costs_lift | intros e2].
      apply costs_bind; [apply costs_a_fetch | intros r2; apply costs_secondary].
  - intros [v|]; apply costs_ret.
Qed.

Lemma costs_saveSummaryToDB env pgText summary author url :
  costs cost Q (VariantA.saveSummaryToDB env pgText summary author url).
Proof.
  unfold VariantA.saveSummaryToDB, VariantA.query.
  destruct (negb _).
  - apply (costs_le 0); [lia | apply costs_logged_ret].
  - apply (costs_le ((Q + 0) + 0)); [lia|].
    apply costs_try_catch; [|intros e; apply costs_logged_ret].
    apply costs_bind; [apply costs_a_query | intros res; apply costs_ret].
Qed.

Lemma costs_a_send (send : Notification -> Result jsstring) n :
  costs cost S (bind (emit (Send n)) (fun _ => lift (send n))).
Proof.
  apply (costs_le (cost (Send n) + 0)); [specialize (send_cost n); lia|].
  apply costs_bind; [apply costs_emit | intros _; apply costs_lift].
Qed.

Lemma costs_sendFCMNotification env send init title message url :
  costs cost S (VariantA.sendFCMNotification env send init title message url).
Proof.
  unfold VariantA.sendFCMNotification.
  destruct (negb _).
  - apply (costs_le 0); [lia | apply costs_logged_ret].
  - apply (costs_le ((S + 0) + 0)); [lia|].
    apply costs_try_catch; [|intros e; apply costs_logged_ret].
    apply costs_bind; [apply costs_a_send | intros response; apply costs_logged_ret].
Qed.

Lemma costs_ingestA env net enc pgText send init req :
  costs cost (8 * F + 6 * W + Q + S) (VariantA.ingest env net enc pgText send init req).
Proof.
  unfold VariantA.ingest.
  apply (costs_le ((0 + (2 * F + (6 * (F + W) + (Q + (S + 0))))) + 0)); [lia|].
  apply costs_try_catch; [|intros e; apply costs_logged_ret].
  destruct (negb _); [apply (costs_le 0); [lia | apply costs_ret]|].
  apply costs_bind.
  { destruct (_ && _); [|apply costs_ret].
    apply (costs_bind 0 0); [apply costs_lift | intros m].
    destruct m as [[|c g]|]; apply costs_ret. }
  intros author. apply costs_bind.
  { destruct (_ && _); [apply costs_fetchTweetText|].
    apply (costs_le 0); [lia | apply costs_ret]. }
  intros text.
  destruct (negb _); [apply (costs_le 0); [lia | apply costs_ret]|].
  apply costs_bind; [apply costs_callGeminiSummary | intros summary].
  apply costs_bind; [apply costs_saveSummaryToDB | intros saved].
  apply costs_bind; [apply costs_sendFCMNotification | intros pushed; apply costs_ret].
Qed.

Lemma costs_ingestB env pgText send init req :
  costs cost (Q + S) (VariantB.ingest env pgText send init req).
Proof.
  unfold VariantB.ingest.
  destruct (VariantB.unauthorized env req); [apply (costs_le 0); [lia | apply costs_ret]|].
  apply (costs_le (0 + (0 + (0 + ((Q + ((S + 0) + 0 + 0)) + 0))))); [lia|].
  repeat (apply costs_bind; [apply costs_lift | intros ?]).
  destruct (_ || _); [apply (costs_le 0); [lia | apply costs_ret]|].
  apply costs_try_catch; [|intros e; apply costs_logged_ret].
  apply costs_bind; [apply costs_a_query | intros result].
  apply costs_bind; [|intros _; apply costs_ret].
  destruct (_ <? _); [|apply (costs_le 0); [lia | apply costs_ret]].
  apply costs_try_catch; [|intros e; apply costs_console].
  apply costs_bind; [apply costs_a_send | intros _; apply costs_console].
Qed.

End Budget.

(** X7.  One ingestion, whatever the request and whatever the backends do,
    adds to the trace at most eight requests (two lookups and six attempts
    at a summary), one statement and one notification in variant A, and one
    statement, one notification and no request in variant B. *)
Theorem X7_one_statement_one_notification_per_request :
  (forall env net encodeURIComponent pgText messaging_send firebase_init req w,
      exists added,
        trace (snd (VariantA.ingest env net encodeURIComponent pgText messaging_send
                      firebase_init req w)) = trace w ++ added /\
        total aFetch added <= 8 /\ total aQuery added <= 1 /\ total aSend added <= 1)
  /\
  (forall env pgText messaging_send firebase_init req w,
      exists added,
        trace (snd (VariantB.ingest env pgText messaging_send firebase_init req w))
          = trace w ++ added /\
        total aFetch added = 0 /\ total aQuery added <= 1 /\ total aSend added <= 1).
Proof.
  split.
  - intros env net enc pgText send init req w.
    destruct (costs_ingestA aFetch 1 0 0 0) with (w := w)
      (env := env) (net := net) (enc := enc) (pgText := pgText) (send := send)
      (init := init) (req := req) as [a1 [E1 H1]];
      try (intros; simpl; lia).
    destruct (costs_ingestA aQuery 0 0 1 0) with (w := w)
      (env := env) (net := net) (enc := enc) (pgText := pgText) (send := send)
      (init := init) (req := req) as [a2 [E2 H2]];
      try (intros; simpl; lia).
    destruct (costs_ingestA aSend 0 0 0 1) with (w := w)
      (env := env) (net := net) (enc := enc) (pgText := pgText) (send := send)
      (init := init) (req := req) as [a3 [E3 H3]];
      try (intros; simpl; lia).
    rewrite E1 in E2, E3. apply app_inv_head in E2, E3. subst a2 a3.
    exists a1. split; [exact E1|]. split; [lia|]. split; lia.
  - intros env pgText send init req w.
    destruct (costs_ingestB aFetch 0 0) with (w := w)
      (env := env) (pgText := pgText) (send := send)
      (init := init) (req := req) as [a1 [E1 H1]];
      try (intros; simpl; lia).
    destruct (costs_ingestB aQuery 1 0) with (w := w)
      (env := env) (pgText := pgText) (send := send)
      (init := init) (req := req) as [a2 [E2 H2]];
      try (intros; simpl; lia).
    destruct (costs_ingestB aSend 0 1) with (w := w)
      (env := env) (pgText := pgText) (send := send)
      (init := init) (req := req) as [a3 [E3 H3]];
      try (intros; simpl; lia).
    rewrite E1 in E2, E3. apply app_inv_head in E2, E3. subst a2 a3.
    exists a1. split; [exact E1|]. split; [lia|]. split; lia.
Qed.

(* ================================================================== *)
(** * Further properties: the ingestion handler of variant A *)
(* ================================================================== *)

Section IngestA.

Variable env : ProcessEnv.
Variable net : nat -> jsstring -> FetchOutcome.
Variable encodeURIComponent : jsstring -> Result jsstring.
Variable pgText : value -> jsstring.
Variable messaging_send : Notification -> Result jsstring.
Variable firebase_init : jsstring -> Result unit.

Let ingest := VariantA.ingest env net encodeURIComponent pgText messaging_send firebase_init.
Let callGeminiSummary := VariantA.callGeminiSummary env net encodeURIComponent.
Let saveSummaryToDB := VariantA.saveSummaryToDB env pgText.
Let sendFCMNotification := VariantA.sendFCMNotification env messaging_send firebase_init.

(** What [saveSummaryToDB] returns, and when it is [true]. *)
Lemma saveSummaryToDB_exact summary author url w :
  exists saved w',
    saveSummaryToDB summary author url w = (Ok saved, w') /\
    (saved = true <->
       truthy (maybe (VariantA.DATABASE_URL env)) = true /\
       fault (db w) = None /\
       Pg.conflicts (sqlParam pgText url) (rows (db w)) = false) /\
    rows (db w') =
      (if saved
       then rows (db w)
              ++ [Pg.new_row (db w) summary (sqlParam pgText author) (sqlParam pgText url)]
       else rows (db w)).
Proof.
  unfold saveSummaryToDB, VariantA.saveSummaryToDB, VariantA.query.
  destruct (truthy (maybe (VariantA.DATABASE_URL env))); cbn [negb].
  - unfold try_catch, bind, pool_query.
    destruct (fault (db w)) as [e|].
    + do 2 eexists. split; [reflexivity|]. split; [|reflexivity].
      split; [discriminate | intros [_ [H _]]; discriminate].
    + unfold Pg.insert_do_nothing.
      destruct (Pg.conflicts (sqlParam pgText url) (rows (db w))) eqn:Hc.
      * do 2 eexists. split; [reflexivity|]. split; [|reflexivity].
        split; [discriminate | intros [_ [_ H]]; discriminate].
      * do 2 eexists. split; [reflexivity|]. split; [|reflexivity].
        split; [intros _; repeat split | reflexivity].
  - do 2 eexists. split; [reflexivity|]. split; [|reflexivity].
    split; [discriminate | intros [H _]; discriminate].
Qed.

(** What [sendFCMNotification] returns, and when it is [true]. *)
Lemma sendFCMNotification_exact title message url w :
  exists pushed w',
    sendFCMNotification title message url w = (Ok pushed, w') /\
    (pushed = true <->
       VariantA.fcmInitialized env firebase_init = true /\
       exists id, messaging_send (broadcast title message url) = Ok id) /\
    db w' = db w /\
    (VariantA.fcmInitialized env firebase_init = true ->
     In (Send (broadcast title message url)) (trace w')).
Proof.
  unfold sendFCMNotification, VariantA.sendFCMNotification.
  destruct (VariantA.fcmInitialized env firebase_init); cbn [negb].
  - fold (broadcast title message url).
    unfold try_catch, bind, VariantA.send, emit, lift, console.
    destruct (messaging_send (broadcast title message url)) as [id|e] eqn:E.
    + do 2 eexists. split; [reflexivity|]. split; [|split; [reflexivity|]].
      * split; [intros _; split; [reflexivity | eauto] | reflexivity].
      * intros _. cbn [trace]. rewrite !in_app_iff. left. right. now left.
    + do 2 eexists. split; [reflexivity|]. split; [|split; [reflexivity|]].
      * split; [discriminate | intros [_ [id H]]; discriminate].
      * intros _. cbn [trace]. rewrite !in_app_iff. left. right. now left.
  - do 2 eexists. split; [reflexivity|]. split; [|split; [reflexivity|discriminate]].
    split; [discriminate | intros [H _]; discriminate].
Qed.

Lemma keepsDb_obtainedText req : keepsDb (obtainedText net encodeURIComponent req).
Proof.
  unfold obtainedText. destruct (_ && _);
    [apply keepsDb_fetchTweetText | apply keepsDb_ret].
Qed.

(** The handler once the request is authorized and its author settled. *)
Lemma ingestA_staged req w a :
  VariantA.assertAuthorized env req = true ->
  derivedAuthor req = Ok a ->
  ingest req w =
    try_catch
      (bind (obtainedText net encodeURIComponent req)
         (fun text =>
            if negb (truthy text)
            then ret {| code := 400; payload := Failure (Some false) (lit "Missing tweet text") |}
            else
              bind (callGeminiSummary text a (urlOf req))
                (fun summary =>
                   bind (saveSummaryToDB summary a (urlOf req))
                     (fun saved =>
                        bind (sendFCMNotification (msg "The Capitol Wire") summary (urlOf req))
                          (fun pushed =>
                             ret {| code := 200;
                                    payload := Summarised summary saved pushed |})))))
      (fun e =>
         bind (console error [Str e])
           (fun _ => ret {| code := 500; payload := Failure (Some false) e |})) w.
Proof.
  intros Ha Hd. unfold ingest, VariantA.ingest. rewrite Ha. cbn [negb].
  fold (tweetOf req). unfold try_catch. unfold bind at 1.
  rewrite derivedAuthor_stage, Hd.
  unfold bind at 5. reflexivity.
Qed.

(** X8.  An authorized request for which no text can be had is answered 400
    [Missing tweet text] before any summary is asked for: with neither text
    nor URL the world is left as it was, and otherwise all that happened is
    the lookup of the URL, which leaves the database alone. *)
Theorem X8_no_text_no_summary :
  (forall req w,
      VariantA.assertAuthorized env req = true ->
      truthy (prop (lit "text") (tweetOf req)) = false ->
      truthy (urlOf req) = false ->
      ingest req w =
        (Ok {| code := 400; payload := Failure (Some false) (lit "Missing tweet text") |}, w))
  /\
  (forall req w a text,
      VariantA.assertAuthorized env req = true ->
      derivedAuthor req = Ok a ->
      truthy (prop (lit "text") (tweetOf req)) = false ->
      truthy (urlOf req) = true ->
      fst (VariantA.fetchTweetText net encodeURIComponent (urlOf req) w) = Ok text ->
      truthy text = false ->
      ingest req w =
        (Ok {| code := 400; payload := Failure (Some false) (lit "Missing tweet text") |},
         snd (VariantA.fetchTweetText net encodeURIComponent (urlOf req) w))
      /\ db (snd (VariantA.fetchTweetText net encodeURIComponent (urlOf req) w)) = db w).
Proof.
  split.
  - intros req w Ha Ht Hu.
    assert (Hd : derivedAuthor req = Ok (prop (lit "author") (tweetOf req))).
    { unfold derivedAuthor. fold (urlOf req). rewrite Hu.
      now rewrite andb_false_r. }
    rewrite (ingestA_staged req w _ Ha Hd).
    unfold try_catch, bind at 1, obtainedText. rewrite Hu, andb_false_r.
    unfold ret at 1. unfold or_else. rewrite Ht. reflexivity.
  - intros req w a text Ha Hd Ht Hu Hf Hfalsy.
    split; [|apply keepsDb_fetchTweetText].
    rewrite (ingestA_staged req w _ Ha Hd).
    unfold try_catch, bind at 1, obtainedText. rewrite Hu.
    unfold or_else at 1. rewrite Ht. cbn [truthy negb andb].
    destruct (VariantA.fetchTweetText net encodeURIComponent (urlOf req) w) as [r w0].
    simpl in Hf. subst r. rewrite Hfalsy. reflexivity.
Qed.

(** X9.  A failure to summarise is answered 500 with the message of the
    failure: nothing was stored, no statement and no notification went out,
    and the one thing added after the summarization is the line on the
    console.  So is a [url] that has no [match] method, before anything
    else happens. *)
Theorem X9_failed_summary_is_500_with_its_message :
  (forall req w a text w0 e w1,
      VariantA.assertAuthorized env req = true ->
      derivedAuthor req = Ok a ->
      obtainedText net encodeURIComponent req w = (Ok text, w0) ->
      truthy text = true ->
      callGeminiSummary text a (urlOf req) w0 = (Throw e, w1) ->
      ingest req w =
        (Ok {| code := 500; payload := Failure (Some false) e |}, logged w1 error [Str e])
      /\ db w1 = db w
      /\ exists added,
           trace w1 = trace w ++ added /\ total aQuery added = 0 /\ total aSend added = 0)
  /\
  (forall req w e,
      VariantA.assertAuthorized env req = true ->
      derivedAuthor req = Throw e ->
      ingest req w =
        (Ok {| code := 500; payload := Failure (Some false) e |}, logged w error [Str e])).
Proof.
  split.
  - intros req w a text w0 e w1 Ha Hd Ho Ht Hg. split; [|split].
    + rewrite (ingestA_staged req w _ Ha Hd).
      unfold try_catch, bind at 1. rewrite Ho, Ht. cbn [negb].
      unfold bind at 1. rewrite Hg. reflexivity.
    + pose proof (keepsDb_obtainedText req w) as H0. rewrite Ho in H0.
      pose proof (keepsDb_callGeminiSummary env net encodeURIComponent text a (urlOf req) w0)
        as H1.
      fold callGeminiSummary in H1. rewrite Hg in H1. simpl in *. congruence.
    + assert (Hcost : forall cost,
                 (forall l args, cost (Console l args) = 0) ->
                 (forall url post, cost (Fetch url post) = 0) ->
                 (forall ms, cost (Sleep ms) = 0) ->
                 exists added, trace w1 = trace w ++ added /\ total cost added = 0).
      { intros cost Hc Hf Hs.
        assert (H0 : costs cost 0 (obtainedText net encodeURIComponent req)).
        { unfold obtainedText. destruct (_ && _); [|apply costs_ret].
          apply (costs_fetchTweetText cost 0 Hc); intros; rewrite Hf; lia. }
        assert (H1 : costs cost 0 (callGeminiSummary text a (urlOf req))).
        { apply (costs_callGeminiSummary cost 0 0 Hc); intros; rewrite ?Hf, ?Hs; lia. }
        destruct (H0 w) as [a0 [E0 L0]]. rewrite Ho in E0. simpl in E0.
        destruct (H1 w0) as [a1 [E1 L1]]. rewrite Hg in E1. simpl in E1.
        exists (a0 ++ a1). rewrite E1, E0, app_assoc, total_app. split; [reflexivity|lia]. }
      destruct (Hcost aQuery) as [added [E Hq]]; try reflexivity.
      destruct (Hcost aSend) as [added' [E' Hs]]; try reflexivity.
      rewrite E in E'. apply app_inv_head in E'. subst added'.
      exists added. split; [exact E|]. split; assumption.
  - intros req w e Ha Hd. unfold ingest, VariantA.ingest. rewrite Ha. cbn [negb].
    fold (tweetOf req). unfold try_catch. unfold bind at 1.
    rewrite derivedAuthor_stage, Hd. reflexivity.
Qed.

(** The handler after a summary was returned: the save, then the
    notification, then the answer. *)
Lemma ingestA_summarised req w a text w0 s w1 :
  VariantA.assertAuthorized env req = true ->
  derivedAuthor req = Ok a ->
  obtainedText net encodeURIComponent req w = (Ok text, w0) ->
  truthy text = true ->
  callGeminiSummary text a (urlOf req) w0 = (Ok s, w1) ->
  exists saved w2 pushed w',
    saveSummaryToDB s a (urlOf req) w1 = (Ok saved, w2) /\
    sendFCMNotification (msg "The Capitol Wire") s (urlOf req) w2 = (Ok pushed, w') /\
    ingest req w = (Ok {| code := 200; payload := Summarised s saved pushed |}, w') /\
    db w1 = db w.
Proof.
  intros Ha Hd Ho Ht Hg.
  destruct (saveSummaryToDB_exact s a (urlOf req) w1) as [saved [w2 [Es _]]].
  destruct (sendFCMNotification_exact (msg "The Capitol Wire") s (urlOf req) w2)
    as [pushed [w3 [Ep _]]].
  exists saved, w2, pushed, w3. split; [exact Es|]. split; [exact Ep|]. split.
  - rewrite (ingestA_staged req w _ Ha Hd).
    unfold try_catch, bind at 1. rewrite Ho, Ht. cbn [negb].
    unfold bind at 1. rewrite Hg. unfold bind at 1. rewrite Es.
    unfold bind at 1. rewrite Ep. reflexivity.
  - pose proof (keepsDb_obtainedText req w) as H0. rewrite Ho in H0.
    pose proof (keepsDb_callGeminiSummary env net encodeURIComponent text a (urlOf req) w0)
      as H1.
    fold callGeminiSummary in H1. rewrite Hg in H1. simpl in *. congruence.
Qed.


(** X11.  A request without a URL is stored under the empty URL, not under
    [NULL]: its summary is saved only as long as no row with the empty URL
    exists, and a summary saved leaves such a row behind.  So of all the
    requests that give a text and no URL, only the first is ever stored. *)
Theorem X11_only_one_summary_without_url_is_stored :
  forall req w a text w0 s w1,
    VariantA.assertAuthorized env req = true ->
    derivedAuthor req = Ok a ->
    truthy (prop (lit "url") (tweetOf req)) = false ->
    obtainedText net encodeURIComponent req w = (Ok text, w0) ->
    truthy text = true ->
    callGeminiSummary text a (urlOf req) w0 = (Ok s, w1) ->
    exists saved pushed w',
      ingest req w = (Ok {| code := 200; payload := Summarised s saved pushed |}, w') /\
      (Pg.stored [] (rows (db w)) = true -> saved = false /\ rows (db w') = rows (db w)) /\
      (saved = true ->
       Pg.stored [] (rows (db w')) = true /\
       exists r, rows (db w') = rows (db w) ++ [r] /\ tweet_url r = Some []).
Proof.
  intros req w a text w0 s w1 Ha Hd Hu Ho Ht Hg.
  destruct (ingestA_summarised req w a text w0 s w1 Ha Hd Ho Ht Hg)
    as [saved [w2 [pushed [w' [Es [Ep [E Hdb]]]]]]].
  destruct (saveSummaryToDB_exact s a (urlOf req) w1)
    as [saved0 [w20 [Es0 [Hsaved Hrows]]]].
  rewrite Es in Es0. injection Es0 as <- <-.
  destruct (sendFCMNotification_exact (msg "The Capitol Wire") s (urlOf req) w2)
    as [pushed0 [w30 [Ep0 [_ [Hdb3 _]]]]].
  rewrite Ep in Ep0. injection Ep0 as <- <-.
  assert (Hurl : urlOf req = Str []).
  { unfold urlOf, or_else. now rewrite Hu. }
  rewrite Hurl, Hdb in *. cbn [sqlParam Pg.conflicts] in *.
  exists saved, pushed, w'. split; [exact E|]. rewrite Hdb3, Hrows. split.
  - intros Hst. destruct saved.
    + destruct Hsaved as [Hs _]. destruct (Hs eq_refl) as [_ [_ Hc]]. congruence.
    + split; reflexivity.
  - intros ->. split.
    + unfold Pg.stored. rewrite existsb_app. simpl. apply orb_true_r.
    + eexists. split; reflexivity.
Qed.

(** X12.  The handler of variant A answers every request, and never throws:
    200 with [ok: true] and the summary, or 401, 400 or 500 with
    [ok: false] and an error message. *)
Theorem X12_every_request_is_answered :
  forall req w,
    exists p w',
      ingest req w = (Ok p, w') /\
      ((code p = 200%N /\ exists s saved pushed, payload p = Summarised s saved pushed)
       \/
       ((code p = 401%N \/ code p = 400%N \/ code p = 500%N) /\
        exists e, payload p = Failure (Some false) e)).
Proof.
  intros req w.
  set (Q := fun (r : Result HttpResponse) (_ : World) =>
              exists p, r = Ok p /\
                ((code p = 200%N /\ exists s saved pushed, payload p = Summarised s saved pushed)
                 \/
                 ((code p = 401%N \/ code p = 400%N \/ code p = 500%N) /\
                  exists e, payload p = Failure (Some false) e))).
  assert (H : ends (ingest req) w Q).
  { unfold ingest, VariantA.ingest.
    apply ends_try_catch.
    assert (Hcatch : forall e w1,
               ends (bind (console error [Str e])
                       (fun _ => ret {| code := 500; payload := Failure (Some false) e |}))
                 w1 Q).
    { intros e w1. repeat mstep. eexists. split; [reflexivity|]. right.
      split; [auto | eexists; reflexivity]. }
    mstep.
    - mstep. eexists. split; [reflexivity|]. right.
      split; [auto | eexists; reflexivity].
    - apply ends_bind_any; [intros author w1 | exact Hcatch].
      apply ends_bind_any; [intros text w2 | exact Hcatch].
      mstep.
      + mstep. eexists. split; [reflexivity|]. right.
        split; [auto | eexists; reflexivity].
      + apply ends_bind_any; [intros summary w3 | exact Hcatch].
        apply ends_bind_any; [intros saved w4 | exact Hcatch].
        apply ends_bind_any; [intros pushed w5 | exact Hcatch].
        mstep. eexists. split; [reflexivity|]. left.
        split; [reflexivity | do 3 eexists; reflexivity]. }
  destruct (ingest req w) as [r w'] eqn:E.
  destruct (ends_run _ _ _ H _ _ E) as [p [-> Hp]].
  exists p, w'. split; [reflexivity | exact Hp].
Qed.

End IngestA.

(** A request with nothing in it, and one whose URL cannot be looked up. *)
Lemma X8_witness :
  let withUrl := Sample.urlOnlyRequest Requests.key "https://x.com/a/status/1" in
  let ingest := VariantA.ingest Sample.env Sample.netDown Sample.encodeURIComponent
                  Sample.pgText Sample.sendOk Sample.initOk in
  let looked := snd (VariantA.fetchTweetText Sample.netDown Sample.encodeURIComponent
                       (urlOf withUrl) Sample.world) in
  VariantA.assertAuthorized Sample.env Requests.empty = true /\
  truthy (urlOf Requests.empty) = false /\
  ingest Requests.empty Sample.world =
    (Ok {| code := 400; payload := Failure (Some false) (lit "Missing tweet text") |},
     Sample.world) /\
  derivedAuthor withUrl = Ok (msg "a") /\
  (ingest withUrl Sample.world =
     (Ok {| code := 400; payload := Failure (Some false) (lit "Missing tweet text") |}, looked)
   /\ db looked = db Sample.world).
Proof.
  intros withUrl ingest looked.
  pose proof (X8_no_text_no_summary Sample.env Sample.netDown Sample.encodeURIComponent
                Sample.pgText Sample.sendOk Sample.initOk) as [Hnone Hlooked].
  assert (H1 : VariantA.assertAuthorized Sample.env Requests.empty = true) by reflexivity.
  assert (H2 : truthy (urlOf Requests.empty) = false) by reflexivity.
  assert (H3 : derivedAuthor withUrl = Ok (msg "a")) by reflexivity.
  split; [exact H1|]. split; [exact H2|].
  split; [exact (Hnone Requests.empty Sample.world H1 eq_refl H2)|].
  split; [exact H3|].
  exact (Hlooked withUrl Sample.world (msg "a") (Str []) eq_refl H3 eq_refl eq_refl
           eq_refl eq_refl).
Defined.

(** Gemini unreachable; and a URL that is a number. *)
Lemma X9_witness :
  let req := Sample.ingestRequest Requests.key "hello" "https://x.com/a/status/1" in
  let ingest := VariantA.ingest Sample.env Sample.netDown Sample.encodeURIComponent
                  Sample.pgText Sample.sendOk Sample.initOk in
  let failed := snd (VariantA.callGeminiSummary Sample.env Sample.netDown
                       Sample.encodeURIComponent (msg "hello") (msg "a") (urlOf req)
                       Sample.world) in
  let e := lit "Gemini failed after 6 attempts: fetch failed" in
  obtainedText Sample.netDown Sample.encodeURIComponent req Sample.world
    = (Ok (msg "hello"), Sample.world) /\
  (ingest req Sample.world =
     (Ok {| code := 500; payload := Failure (Some false) e |}, logged failed error [Str e])
   /\ db failed = db Sample.world
   /\ exists added,
        trace failed = trace Sample.world ++ added /\
        total aQuery added = 0 /\ total aSend added = 0) /\
  derivedAuthor Requests.numericUrl = Throw (lit "url.match is not a function") /\
  ingest Requests.numericUrl Sample.world =
    (Ok {| code := 500; payload := Failure (Some false) (lit "url.match is not a function") |},
     logged Sample.world error [msg "url.match is not a function"]).
Proof.
  intros req ingest failed e.
  pose proof (X9_failed_summary_is_500_with_its_message Sample.env Sample.netDown
                Sample.encodeURIComponent Sample.pgText Sample.sendOk Sample.initOk)
    as [Hfailed Hthrown].
  assert (H1 : obtainedText Sample.netDown Sample.encodeURIComponent req Sample.world
               = (Ok (msg "hello"), Sample.world)) by reflexivity.
  assert (H2 : derivedAuthor Requests.numericUrl = Throw (lit "url.match is not a function"))
    by reflexivity.
  split; [exact H1|]. split.
  - apply (Hfailed req Sample.world (msg "a") (msg "hello") Sample.world e failed).
    + reflexivity.
    + reflexivity.
    + exact H1.
    + reflexivity.
    + vm_compute. reflexivity.
  - split; [exact H2|].
    exact (Hthrown Requests.numericUrl Sample.world _ eq_refl H2).
Defined.


(** A text without a URL. *)
Lemma X11_witness :
  let req := Requests.textOnly "hello" in
  let net := Sample.netJson (Sample.geminiAnswer "Votes at noon.") in
  let s := lit "Votes at noon." in
  let summarised := snd (VariantA.callGeminiSummary Sample.env net Sample.encodeURIComponent
                           (msg "hello") Undefined (urlOf req) Sample.world) in
  truthy (prop (lit "url") (tweetOf req)) = false /\
  VariantA.callGeminiSummary Sample.env net Sample.encodeURIComponent
    (msg "hello") Undefined (urlOf req) Sample.world = (Ok s, summarised) /\
  exists saved pushed w',
    VariantA.ingest Sample.env net Sample.encodeURIComponent Sample.pgText Sample.sendOk
      Sample.initOk req Sample.world
      = (Ok {| code := 200; payload := Summarised s saved pushed |}, w') /\
    (Pg.stored [] (rows (db Sample.world)) = true ->
     saved = false /\ rows (db w') = rows (db Sample.world)) /\
    (saved = true ->
     Pg.stored [] (rows (db w')) = true /\
     exists r, rows (db w') = rows (db Sample.world) ++ [r] /\ tweet_url r = Some []).
Proof.
  intros req net s summarised.
  assert (H0 : truthy (prop (lit "url") (tweetOf req)) = false) by reflexivity.
  assert (H : VariantA.callGeminiSummary Sample.env net Sample.encodeURIComponent
                (msg "hello") Undefined (urlOf req) Sample.world = (Ok s, summarised))
    by (vm_compute; reflexivity).
  split; [exact H0|]. split; [exact H|].
  exact (X11_only_one_summary_without_url_is_stored Sample.env net
           Sample.encodeURIComponent Sample.pgText Sample.sendOk Sample.initOk
           req Sample.world Undefined (msg "hello") Sample.world s summarised
           eq_refl eq_refl H0 eq_refl eq_refl H).
Defined.

(* ================================================================== *)
(** * Further properties: the ingestion handler of variant B *)
(* ================================================================== *)

Lemma member_present k v : isNullish v = false -> member k v = Ok (prop k v).
Proof. destruct v; simpl; intros H; try reflexivity; discriminate. Qed.

Section IngestB.

Variable env : ProcessEnv.
Variable pgText : value -> jsstring.
Variable messaging_send : Notification -> Result jsstring.
Variable firebase_init : jsstring -> Result unit.

Let ingest := VariantB.ingest env pgText messaging_send firebase_init.

(** The handler once the request is accepted and its body read. *)
Lemma ingestB_staged req w :
  VariantB.unauthorized env req = false ->
  isNullish (body req) = false ->
  ingest req w =
    (let summary_text := prop (lit "summary_text") (body req) in
     let tweet_author := prop (lit "tweet_author") (body req) in
     let tweet_url := prop (lit "tweet_url") (body req) in
     if negb (truthy summary_text) || negb (truthy tweet_author) || negb (truthy tweet_url)
     then ret {| code := 400;
                 payload := Failure None
                   (lit "Missing required fields: summary_text, tweet_author, tweet_url") |}
     else
       try_catch
         (bind (pool_query InsertReturningAll
                  [sqlParam pgText summary_text; sqlParam pgText tweet_author;
                   sqlParam pgText tweet_url])
            (fun result =>
               bind (if 0 <? VariantB.apps_length env firebase_init
                     then
                       try_catch
                         (bind (VariantB.send messaging_send
                                  {| n_title := msg "The Capitol Wire";
                                     n_body := summary_text;
                                     n_url := tweet_url;
                                     n_topic := lit "hillpulse_updates" |})
                            (fun _ => console log [msg "FCM Notification sent for:";
                                                   tweet_author]))
                         (fun fcmError => console error [msg "FCM Send Error:"; Str fcmError])
                     else ret tt)
                 (fun _ => ret {| code := 200;
                                  payload := Item (nth_error (result_rows result) 0) |})))
         (fun e =>
            bind (console error [msg "Ingest Error:"; Str e])
              (fun _ => ret {| code := 500;
                               payload := Failure None (lit "Internal Server Error") |}))) w.
Proof.
  intros Hauth Hbody. unfold ingest, VariantB.ingest. rewrite Hauth.
  rewrite !(member_present _ _ Hbody).
  unfold bind at 1, lift at 1. unfold bind at 1, lift at 1. unfold bind at 1, lift at 1.
  reflexivity.
Qed.

(** X13.  An accepted request that lacks one of the three fields, or has it
    empty, is answered 400 and nothing else happens: no statement, no
    notification, not a line on the console. *)
Theorem X13_missing_field_is_400_and_nothing_happens :
  forall req w,
    VariantB.unauthorized env req = false ->
    isNullish (body req) = false ->
    (truthy (prop (lit "summary_text") (body req)) = false
     \/ truthy (prop (lit "tweet_author") (body req)) = false
     \/ truthy (prop (lit "tweet_url") (body req)) = false) ->
    ingest req w =
      (Ok {| code := 400;
             payload := Failure None
               (lit "Missing required fields: summary_text, tweet_author, tweet_url") |}, w).
Proof.
  intros req w Hauth Hbody Hmiss. rewrite (ingestB_staged req w Hauth Hbody). cbv zeta.
  assert (Hc : negb (truthy (prop (lit "summary_text") (body req)))
               || negb (truthy (prop (lit "tweet_author") (body req)))
               || negb (truthy (prop (lit "tweet_url") (body req))) = true).
  { destruct Hmiss as [H|[H|H]]; rewrite H; cbn [negb];
      rewrite ?orb_true_r; reflexivity. }
  rewrite Hc. reflexivity.
Qed.

(** X14.  When the database refuses the insert, the accepted request is
    answered 500 with the fixed text [Internal Server Error]: the message of
    the database goes to the console only, no row is added and no
    notification is sent. *)
Theorem X14_database_failure_is_500_without_notification :
  forall req w e,
    VariantB.unauthorized env req = false ->
    isNullish (body req) = false ->
    truthy (prop (lit "summary_text") (body req)) = true ->
    truthy (prop (lit "tweet_author") (body req)) = true ->
    truthy (prop (lit "tweet_url") (body req)) = true ->
    fault (db w) = Some e ->
    ingest req w =
      (Ok {| code := 500; payload := Failure None (lit "Internal Server Error") |},
       {| db := db w; nfetch := nfetch w;
          trace := trace w
                   ++ [Query InsertReturningAll
                         [sqlParam pgText (prop (lit "summary_text") (body req));
                          sqlParam pgText (prop (lit "tweet_author") (body req));
                          sqlParam pgText (prop (lit "tweet_url") (body req))];
                       Console error [msg "Ingest Error:"; Str e]] |}).
Proof.
  intros req w e Hauth Hbody H1 H2 H3 Hf.
  rewrite (ingestB_staged req w Hauth Hbody). cbv zeta.
  rewrite H1, H2, H3. cbn [negb orb].
  unfold try_catch at 1, bind at 1, pool_query. rewrite Hf.
  unfold bind, console, emit, ret. cbn [db nfetch trace].
  rewrite <- app_assoc. reflexivity.
Qed.

(** X15.  An accepted request with its three fields and a database that
    answers: the row is stored first, with the clock of the database as its
    date, and the notification, sent only if Firebase has an app, carries
    the summary as its body and the URL in its data.  The answer is 200
    with the row, whatever [send] does. *)
Theorem X15_row_is_stored_before_the_notification :
  forall req w,
    VariantB.unauthorized env req = false ->
    isNullish (body req) = false ->
    truthy (prop (lit "summary_text") (body req)) = true ->
    truthy (prop (lit "tweet_author") (body req)) = true ->
    truthy (prop (lit "tweet_url") (body req)) = true ->
    fault (db w) = None ->
    exists s a u w',
      sqlParam pgText (prop (lit "summary_text") (body req)) = Some s /\
      sqlParam pgText (prop (lit "tweet_author") (body req)) = Some a /\
      sqlParam pgText (prop (lit "tweet_url") (body req)) = Some u /\
      let row := Pg.new_row (db w) s (Some a) (Some u) in
      ingest req w = (Ok {| code := 200; payload := Item (Some row) |}, w') /\
      rows (db w') = rows (db w) ++ [row] /\
      calls (trace w') =
        calls (trace w)
        ++ Query InsertReturningAll [Some s; Some a; Some u]
        :: (if 0 <? VariantB.apps_length env firebase_init
            then [Send {| n_title := msg "The Capitol Wire";
                          n_body := prop (lit "summary_text") (body req);
                          n_url := prop (lit "tweet_url") (body req);
                          n_topic := lit "hillpulse_updates" |}]
            else []).
Proof.
  intros req w Hauth Hbody H1 H2 H3 Hf.
  destruct (sqlParam_truthy pgText _ H1) as [s Hs].
  destruct (sqlParam_truthy pgText _ H2) as [a Ha].
  destruct (sqlParam_truthy pgText _ H3) as [u Hu].
  destruct (ingest req w) as [r w'] eqn:E.
  exists s, a, u, w'. split; [exact Hs|]. split; [exact Ha|]. split; [exact Hu|].
  cbv zeta.
  rewrite (ingestB_staged req w Hauth Hbody) in E. cbv zeta in E.
  rewrite H1, H2, H3, Hs, Ha, Hu in E. cbn [negb orb] in E.
  unfold try_catch at 1, bind at 1, pool_query in E. rewrite Hf in E.
  cbn [Pg.insert_plain mkResult result_rows nth_error] in E.
  unfold bind at 1 in E.
  destruct (0 <? VariantB.apps_length env firebase_init).
  - unfold try_catch, bind, VariantB.send, emit, lift, console in E.
    destruct (messaging_send _); injection E as <- <-;
      (split; [reflexivity|]); (split; [reflexivity|]);
      cbn [trace]; rewrite !calls_app; cbn [calls filter isCall];
      rewrite <- ?app_assoc; rewrite ?app_nil_r; reflexivity.
  - injection E as <- <-. split; [reflexivity|]. split; [reflexivity|].
    cbn [trace]. rewrite calls_app. reflexivity.
Qed.

End IngestB.

(** ** The bearer token *)

Lemma split_first sep f rest :
  lacks sep f -> split sep (f ++ sep :: rest) = f :: split sep rest.
Proof.
  induction f as [|c f IH]; intros H.
  - cbn [app split]. now rewrite N.eqb_refl.
  - apply lacks_tail in H. destruct H as [Hc Hf].
    cbn [app split]. apply N.eqb_neq in Hc. rewrite Hc, (IH Hf). reflexivity.
Qed.

Lemma split_only sep f : lacks sep f -> split sep f = [f].
Proof.
  induction f as [|c f IH]; intros H; [reflexivity|].
  apply lacks_tail in H. destruct H as [Hc Hf].
  cbn [split]. apply N.eqb_neq in Hc. rewrite Hc, (IH Hf). reflexivity.
Qed.

(** The first field of a split: the run before the first separator. *)
Lemma split_head sep s :
  exists f fs,
    split sep s = f :: fs /\ lacks sep f /\
    (s = f \/ exists rest, s = f ++ sep :: rest).
Proof.
  induction s as [|c s IH].
  - exists [], []. split; [reflexivity|]. split; [intros x []|]. now left.
  - destruct IH as [f [fs [E [Hl Hs]]]]. cbn [split].
    destruct (N.eqb c sep) eqn:Ec.
    + apply N.eqb_eq in Ec. subst c.
      exists [], (split sep s). split; [reflexivity|]. split; [intros x []|].
      right. exists s. reflexivity.
    + apply N.eqb_neq in Ec. rewrite E.
      exists (c :: f), fs. split; [reflexivity|]. split; [now apply lacks_cons|].
      destruct Hs as [->|[rest ->]]; [now left|]. right. exists rest. reflexivity.
Qed.

Section Bearer.

Variable env : ProcessEnv.

(** After [Bearer ], the header is judged by its next field alone. *)
Lemma unauthorized_after_bearer req t :
  header (lit "authorization") (headers req) = Some (lit "Bearer " ++ t) ->
  VariantB.unauthorized env req
    = VariantB.differs (hd_error (split 32 t)) (env_INGEST_SECRET env).
Proof.
  intros Hh. unfold VariantB.unauthorized. rewrite Hh.
  assert (Hform : lit "Bearer " ++ t = 66%N :: (lit "earer " ++ t)) by reflexivity.
  rewrite Hform. cbv beta iota zeta. rewrite <- Hform.
  rewrite startsWith_self. cbn [negb orb].
  assert (Hsplit : split 32 (lit "Bearer " ++ t) = lit "Bearer" :: split 32 t).
  { change (lit "Bearer " ++ t) with (lit "Bearer" ++ 32%N :: t).
    apply split_first. intros x Hx.
    cbn in Hx. intuition (subst; discriminate). }
  rewrite Hsplit. cbn [nth_error]. destruct (split 32 t); reflexivity.
Qed.

(** X16.  Variant B accepts a request exactly when [INGEST_SECRET] is set,
    holds no space, and the [Authorization] header is [Bearer ], the secret,
    and then nothing or a space and anything.  So with the secret unset, or
    with a space in it, every request is refused. *)
Theorem X16_bearer_token_is_the_second_field :
  (forall req,
      VariantB.unauthorized env req = false <->
      exists secret,
        env_INGEST_SECRET env = Some secret /\ lacks 32 secret /\
        (header (lit "authorization") (headers req) = Some (lit "Bearer " ++ secret)
         \/ exists rest,
              header (lit "authorization") (headers req)
                = Some (lit "Bearer " ++ secret ++ 32%N :: rest)))
  /\
  (env_INGEST_SECRET env = None -> forall req, VariantB.unauthorized env req = true)
  /\
  (forall secret,
      env_INGEST_SECRET env = Some secret -> In 32%N secret ->
      forall req, VariantB.unauthorized env req = true).
Proof.
  assert (Hiff : forall req,
             VariantB.unauthorized env req = false <->
             exists secret,
               env_INGEST_SECRET env = Some secret /\ lacks 32 secret /\
               (header (lit "authorization") (headers req) = Some (lit "Bearer " ++ secret)
                \/ exists rest,
                     header (lit "authorization") (headers req)
                       = Some (lit "Bearer " ++ secret ++ 32%N :: rest))).
  { intros req. split.
    - intros Hu.
      assert (Hb : exists t, header (lit "authorization") (headers req)
                             = Some (lit "Bearer " ++ t)).
      { unfold VariantB.unauthorized in Hu.
        destruct (header (lit "authorization") (headers req)) as [[|c h]|];
          try discriminate.
        apply orb_false_iff in Hu. destruct Hu as [Hs _].
        apply negb_false_iff in Hs. destruct (startsWith_split _ _ Hs) as [t ->].
        exists t. reflexivity. }
      destruct Hb as [t Hh]. rewrite (unauthorized_after_bearer req t Hh) in Hu.
      destruct (split_head 32 t) as [f [fs [E [Hl Ht]]]]. rewrite E in Hu.
      cbn [hd_error] in Hu. unfold VariantB.differs in Hu.
      destruct (env_INGEST_SECRET env) as [secret|]; [|discriminate].
      apply negb_false_iff in Hu. apply eqb_eq in Hu. subst f.
      exists secret. split; [reflexivity|]. split; [exact Hl|].
      destruct Ht as [->|[rest ->]]; [now left|]. right. exists rest. exact Hh.
    - intros [secret [Hs [Hl [Hh|[rest Hh]]]]];
        rewrite (unauthorized_after_bearer req _ Hh), Hs.
      + rewrite (split_only 32 secret Hl). cbn [hd_error VariantB.differs].
        now rewrite eqb_refl.
      + rewrite (split_first 32 secret rest Hl). cbn [hd_error VariantB.differs].
        now rewrite eqb_refl. }
  split; [exact Hiff|]. split.
  - intros Hnone req.
    destruct (VariantB.unauthorized env req) eqn:E; [reflexivity|].
    apply Hiff in E. destruct E as [secret [Hs _]]. congruence.
  - intros secret Hs Hin req.
    destruct (VariantB.unauthorized env req) eqn:E; [reflexivity|].
    apply Hiff in E. destruct E as [secret' [Hs' [Hl _]]].
    assert (secret' = secret) by congruence. subst secret'.
    exfalso. exact (Hl _ Hin eq_refl).
Qed.

End Bearer.

(** A token followed by a space and more; and a secret with a space in it. *)
Lemma X16_witness :
  let spaced :=
    {| env_PORT := None; env_GEMINI_API_KEY := None;
       env_INGEST_SECRET := Some (lit "my secret");
       env_DATABASE_URL := None; env_FCM_SERVICE_ACCOUNT_B64 := None;
       env_FIREBASE_SERVICE_ACCOUNT := None |} in
  let req := {| headers := [(lit "authorization", lit "Bearer s3cret and more")];
                body := Obj [] |} in
  VariantB.unauthorized Sample.env req = false /\
  (exists secret,
      env_INGEST_SECRET Sample.env = Some secret /\ lacks 32 secret /\
      (header (lit "authorization") (headers req) = Some (lit "Bearer " ++ secret)
       \/ exists rest,
            header (lit "authorization") (headers req)
              = Some (lit "Bearer " ++ secret ++ 32%N :: rest))) /\
  env_INGEST_SECRET Sample.envNoSecret = None /\
  VariantB.unauthorized Sample.envNoSecret (Sample.pushRequest "undefined" "s" "a" "u") = true /\
  In 32%N (lit "my secret") /\
  VariantB.unauthorized spaced (Sample.pushRequest "my secret" "s" "a" "u") = true.
Proof.
  intros spaced req.
  assert (H1 : VariantB.unauthorized Sample.env req = false) by reflexivity.
  assert (H2 : env_INGEST_SECRET Sample.envNoSecret = None) by reflexivity.
  assert (H3 : In 32%N (lit "my secret")) by (simpl; tauto).
  split; [exact H1|].
  split; [exact (proj1 (proj1 (X16_bearer_token_is_the_second_field Sample.env) req) H1)|].
  split; [exact H2|].
  split; [exact (proj1 (proj2 (X16_bearer_token_is_the_second_field Sample.envNoSecret)) H2 _)|].
  split; [exact H3|].
  exact (proj2 (proj2 (X16_bearer_token_is_the_second_field spaced)) _ eq_refl H3 _).
Defined.

(** A push without its author; a database that is down; a push that goes
    through. *)
Lemma X13_witness :
  let req := {| headers := [(lit "authorization", lit "Bearer s3cret")];
                body := Obj [(lit "summary_text", msg "Votes at noon");
                             (lit "tweet_author", msg "");
                             (lit "tweet_url", msg "https://x.com/a/status/1")] |} in
  VariantB.unauthorized Sample.env req = false /\
  truthy (prop (lit "tweet_author") (body req)) = false /\
  VariantB.ingest Sample.env Sample.pgText Sample.sendOk Sample.initOk req Sample.world =
    (Ok {| code := 400;
           payload := Failure None
             (lit "Missing required fields: summary_text, tweet_author, tweet_url") |},
     Sample.world).
Proof.
  intros req.
  assert (H1 : VariantB.unauthorized Sample.env req = false) by reflexivity.
  assert (H2 : truthy (prop (lit "tweet_author") (body req)) = false) by reflexivity.
  split; [exact H1|]. split; [exact H2|].
  exact (X13_missing_field_is_400_and_nothing_happens Sample.env Sample.pgText Sample.sendOk
           Sample.initOk req Sample.world H1 eq_refl (or_intror (or_introl H2))).
Defined.

Lemma X14_witness :
  let req := Sample.pushRequest "s3cret" "Votes at noon" "a" "https://x.com/a/status/1" in
  let down :=
    {| db := {| rows := []; next_id := 1; clock := 1700000000;
                fault := Some (lit "connection refused") |};
       nfetch := 0; trace := [] |} in
  VariantB.unauthorized Sample.env req = false /\
  fault (db down) = Some (lit "connection refused") /\
  VariantB.ingest Sample.env Sample.pgText Sample.sendOk Sample.initOk req down =
    (Ok {| code := 500; payload := Failure None (lit "Internal Server Error") |},
     {| db := db down; nfetch := 0;
        trace := [Query InsertReturningAll
                    [Some (lit "Votes at noon"); Some (lit "a");
                     Some (lit "https://x.com/a/status/1")];
                  Console error [msg "Ingest Error:"; msg "connection refused"]] |}).
Proof.
  intros req down.
  assert (H1 : VariantB.unauthorized Sample.env req = false) by reflexivity.
  assert (H2 : fault (db down) = Some (lit "connection refused")) by reflexivity.
  split; [exact H1|]. split; [exact H2|].
  exact (X14_database_failure_is_500_without_notification Sample.env Sample.pgText
           Sample.sendOk Sample.initOk req down (lit "connection refused")
           H1 eq_refl eq_refl eq_refl eq_refl H2).
Defined.

Lemma X15_witness :
  let req := Sample.pushRequest "s3cret" "Votes at noon" "a" "https://x.com/a/status/1" in
  VariantB.unauthorized Sample.env req = false /\
  fault (db Sample.world) = None /\
  exists s a u w',
    sqlParam Sample.pgText (prop (lit "summary_text") (body req)) = Some s /\
    sqlParam Sample.pgText (prop (lit "tweet_author") (body req)) = Some a /\
    sqlParam Sample.pgText (prop (lit "tweet_url") (body req)) = Some u /\
    let row := Pg.new_row (db Sample.world) s (Some a) (Some u) in
    VariantB.ingest Sample.env Sample.pgText Sample.sendFails Sample.initOk req Sample.world
      = (Ok {| code := 200; payload := Item (Some row) |}, w') /\
    rows (db w') = rows (db Sample.world) ++ [row] /\
    calls (trace w') =
      calls (trace Sample.world)
      ++ Query InsertReturningAll [Some s; Some a; Some u]
      :: (if 0 <? VariantB.apps_length Sample.env Sample.initOk
          then [Send {| n_title := msg "The Capitol Wire";
                        n_body := prop (lit "summary_text") (body req);
                        n_url := prop (lit "tweet_url") (body req);
                        n_topic := lit "hillpulse_updates" |}]
          else []).
Proof.
  intros req.
  assert (H1 : VariantB.unauthorized Sample.env req = false) by reflexivity.
  assert (H2 : fault (db Sample.world) = None) by reflexivity.
  split; [exact H1|]. split; [exact H2|].
  exact (X15_row_is_stored_before_the_notification Sample.env Sample.pgText
           Sample.sendFails Sample.initOk req Sample.world
           H1 eq_refl eq_refl eq_refl eq_refl H2).
Defined.

(* ================================================================== *)
(** * Further properties: from the insert to the feed *)
(* ================================================================== *)




Section RoundTrip.

Variable env : ProcessEnv.
Variable pgText : value -> jsstring.




Variable messaging_send : Notification -> Result jsstring.
Variable firebase_init : jsstring -> Result unit.



End RoundTrip.




(* ================================================================== *)
(** * Further properties: the order of the five replacements *)
(* ================================================================== *)

(** A prefix without [&] is passed over by a replacement of an entity. *)
Lemma replaceAll_passes pat rep pre s :
  hd_error pat = Some 38%N -> lacks 38 pre ->
  replaceAll pat rep (pre ++ s) = pre ++ replaceAll pat rep s.
Proof.
  intros Hp. destruct pat as [|p pat]; [discriminate|]. injection Hp as ->.
  unfold replaceAll. induction pre as [|c pre IH]; intros H; [reflexivity|].
  apply lacks_tail in H. destruct H as [Hc Hpre].
  cbn [app replaceFrom startsWith].
  assert (E : N.eqb 38 c = false) by (apply N.eqb_neq; congruence).
  rewrite E. cbn [andb]. now rewrite (IH Hpre).
Qed.

Lemma decodeEntities_passes pre s :
  lacks 38 pre -> VariantA.decodeEntities (pre ++ s) = pre ++ VariantA.decodeEntities s.
Proof.
  intros H. unfold VariantA.decodeEntities.
  repeat (rewrite replaceAll_passes; [|reflexivity|exact H]).
  reflexivity.
Qed.

(** X20.  The five replacements run one after the other, [&amp;] first, so
    an entity that was escaped twice is decoded twice: after a prefix
    without [&], [&amp;lt;] becomes [<] and not [&lt;], and likewise for
    [&amp;gt;], [&amp;quot;] and [&amp;#39;]. *)
Theorem X20_entities_escaped_twice_are_decoded_twice :
  forall pre s,
    lacks 38 pre ->
    VariantA.decodeEntities (pre ++ lit "&amp;lt;" ++ s)
      = pre ++ lit "<" ++ VariantA.decodeEntities s /\
    VariantA.decodeEntities (pre ++ lit "&amp;gt;" ++ s)
      = pre ++ lit ">" ++ VariantA.decodeEntities s /\
    VariantA.decodeEntities (pre ++ lit "&amp;quot;" ++ s)
      = pre ++ 34%N :: VariantA.decodeEntities s /\
    VariantA.decodeEntities (pre ++ lit "&amp;#39;" ++ s)
      = pre ++ lit "'" ++ VariantA.decodeEntities s.
Proof.
  intros pre s H. rewrite !(decodeEntities_passes pre _ H).
  repeat split; reflexivity.
Qed.

Lemma X20_witness :
  lacks 38 (lit "if a ") /\
  VariantA.decodeEntities (lit "if a &amp;lt; b") = lit "if a < b" /\
  VariantA.snippet (lit "<p>if a &amp;lt; b</p>") = Some (lit "if a < b").
Proof.
  assert (H : lacks 38 (lit "if a ")).
  { intros x Hx. cbn in Hx. intuition (subst; discriminate). }
  split; [exact H|]. split.
  - exact (proj1 (X20_entities_escaped_twice_are_decoded_twice (lit "if a ") (lit " b") H)).
  - reflexivity.
Defined.

(* ================================================================== *)
(** * Further properties: the summary is trimmed *)
(* ================================================================== *)

Lemma trimStart_head s : forall c rest, trimStart s = c :: rest -> isTrimmed c = false.
Proof.
  induction s as [|x s IH]; intros c rest; cbn [trimStart]; [discriminate|].
  destruct (isTrimmed x) eqn:E; [apply IH|].
  intros H. injection H as <- _. exact E.
Qed.

Lemma trimStart_fixed s :
  (forall c rest, s = c :: rest -> isTrimmed c = false) -> trimStart s = s.
Proof.
  destruct s as [|x s]; intros H; [reflexivity|].
  cbn [trimStart]. now rewrite (H x s eq_refl).
Qed.

Lemma trimStart_snoc l c :
  isTrimmed c = false -> exists l', trimStart (l ++ [c]) = l' ++ [c].
Proof.
  intros Hc. induction l as [|x l IH]; cbn [app trimStart].
  - rewrite Hc. exists []. reflexivity.
  - destruct (isTrimmed x); [exact IH|]. exists (x :: l). reflexivity.
Qed.

Lemma trimEnd_last s : forall front c, trimEnd s = front ++ [c] -> isTrimmed c = false.
Proof.
  intros front c H. unfold trimEnd in H.
  apply (f_equal (@rev N)) in H. rewrite rev_involutive, rev_app_distr in H.
  exact (trimStart_head _ _ _ H).
Qed.

Lemma trimEnd_keeps_head c rest :
  isTrimmed c = false -> exists rest', trimEnd (c :: rest) = c :: rest'.
Proof.
  intros Hc. unfold trimEnd. cbn [rev].
  destruct (trimStart_snoc (rev rest) c Hc) as [l' ->].
  rewrite rev_app_distr. exists (rev l'). reflexivity.
Qed.

Lemma trim_trimmed s : trimmed (trim s).
Proof.
  unfold trim. split.
  - intros c rest H.
    destruct (trimStart s) as [|d t] eqn:E; [discriminate|].
    pose proof (trimStart_head s d t E) as Hd.
    destruct (trimEnd_keeps_head d t Hd) as [rest' Hk].
    rewrite Hk in H. injection H as <- _. exact Hd.
  - apply trimEnd_last.
Qed.

Lemma trim_fixed s : trimmed s -> trim s = s.
Proof.
  intros [Hhead Hlast]. unfold trim. rewrite (trimStart_fixed s Hhead).
  unfold trimEnd. rewrite trimStart_fixed; [apply rev_involutive|].
  intros c rest H. apply (Hlast (rev rest) c).
  rewrite <- (rev_involutive s), H. reflexivity.
Qed.

Lemma yields_ret {A} (P : A -> Prop) a : P a -> yields P (ret a).
Proof. intros H w a' w' E. injection E as <- _. exact H. Qed.

Lemma yields_throw {A} (P : A -> Prop) e : yields P (@throw A e).
Proof. intros w a w' E. discriminate. Qed.

Lemma yields_bind {A B} (P1 : A -> Prop) (P : B -> Prop) (m : M A) (k : A -> M B) :
  yields P1 m -> (forall a, P1 a -> yields P (k a)) -> yields P (bind m k).
Proof.
  intros Hm Hk w b w' E. unfold bind in E.
  destruct (m w) as [[a|e] w1] eqn:Em; [|discriminate].
  exact (Hk a (Hm w a w1 Em) w1 b w' E).
Qed.

Lemma yields_bind_any {A B} (P : B -> Prop) (m : M A) (k : A -> M B) :
  (forall a, yields P (k a)) -> yields P (bind m k).
Proof.
  intros Hk. apply (yields_bind (fun _ => True)); [intros w a w' _; exact I | auto].
Qed.

Lemma yields_try_catch {A} (P : A -> Prop) (m : M A) h :
  yields P m -> (forall e, yields P (h e)) -> yields P (try_catch m h).
Proof.
  intros Hm Hh w a w' E. unfold try_catch in E.
  destruct (m w) as [[a1|e] w1] eqn:Em.
  - injection E as <- _. exact (Hm w a1 w1 Em).
  - exact (Hh e w1 a w' E).
Qed.

Section Trimmed.

Variable env : ProcessEnv.
Variable net : nat -> jsstring -> FetchOutcome.
Variable encodeURIComponent : jsstring -> Result jsstring.

Lemma yields_attemptOnce url post : yields trimmed (VariantA.attemptOnce net url post).
Proof.
  unfold VariantA.attemptOnce. apply yields_bind_any. intros res.
  destruct (N.eqb _ _); [apply yields_throw|].
  destruct (negb _); [apply yields_throw|].
  apply yields_bind_any. intros data.
  destruct (or_else _ _); try apply yields_throw.
  apply yields_ret. apply trim_trimmed.
Qed.

Lemma yields_retryLoop url post :
  forall left attempt lastErr,
    yields trimmed (VariantA.retryLoop net left attempt lastErr url post).
Proof.
  induction left as [|left IH]; intros attempt lastErr; cbn [VariantA.retryLoop].
  - apply yields_throw.
  - apply yields_try_catch; [apply yields_attemptOnce | intros e].
    apply yields_bind_any. intros _. apply IH.
Qed.

Lemma yields_callGeminiSummary text author url :
  yields trimmed (VariantA.callGeminiSummary env net encodeURIComponent text author url).
Proof.
  unfold VariantA.callGeminiSummary.
  destruct (negb _); [apply yields_throw|].
  do 4 (apply yields_bind_any; intros ?).
  apply yields_retryLoop.
Qed.

(** X21.  Whatever the backend answers and after however many attempts, a
    summary that [callGeminiSummary] returns neither begins nor ends with
    white space or a line terminator, and trimming it again changes
    nothing.  The same holds of the [summary] of every 200 answer of the
    handler. *)
Theorem X21_every_summary_is_trimmed :
  (forall text author url w s w',
      VariantA.callGeminiSummary env net encodeURIComponent text author url w = (Ok s, w') ->
      trimmed s /\ trim s = s)
  /\
  (forall pgText messaging_send firebase_init req w p w',
      VariantA.ingest env net encodeURIComponent pgText messaging_send firebase_init req w
        = (Ok p, w') ->
      forall s saved pushed,
        payload p = Summarised s saved pushed -> trimmed s /\ trim s = s).
Proof.
  split.
  - intros text author url w s w' E.
    pose proof (yields_callGeminiSummary text author url w s w' E) as H.
    split; [exact H | exact (trim_fixed s H)].
  - intros pgText messaging_send firebase_init req w p w' E.
    revert w p w' E.
    change (yields (fun p => forall s saved pushed,
                        payload p = Summarised s saved pushed -> trimmed s /\ trim s = s)
              (VariantA.ingest env net encodeURIComponent pgText messaging_send
                 firebase_init req)).
    unfold VariantA.ingest.
    apply yields_try_catch.
    + destruct (negb _); [apply yields_ret; intros; discriminate|].
      apply yields_bind_any. intros author.
      apply yields_bind_any. intros text.
      destruct (negb _); [apply yields_ret; intros; discriminate|].
      apply (yields_bind trimmed); [apply yields_callGeminiSummary | intros summary Hs].
      apply yields_bind_any. intros saved.
      apply yields_bind_any. intros pushed.
      apply yields_ret. intros s sv pu H. injection H as <- _ _.
      split; [exact Hs | exact (trim_fixed summary Hs)].
    + intros e. apply yields_bind_any. intros _.
      apply yields_ret. intros; discriminate.
Qed.

End Trimmed.

Lemma X21_witness :
  let net := Sample.netAfter 2 (Sample.geminiAnswer "  @a: Votes at noon.  ") in
  let call := VariantA.callGeminiSummary Sample.env net Sample.encodeURIComponent
                (msg "hello") (msg "a") (msg "https://x.com/a/status/1") in
  call Sample.world = (Ok (lit "@a: Votes at noon."), snd (call Sample.world)) /\
  trimmed (lit "@a: Votes at noon.") /\
  trim (lit "@a: Votes at noon.") = lit "@a: Votes at noon.".
Proof.
  intros net call.
  assert (H : call Sample.world = (Ok (lit "@a: Votes at noon."), snd (call Sample.world)))
    by (vm_compute; reflexivity).
  split; [exact H|].
  exact (proj1 (X21_every_summary_is_trimmed Sample.env net Sample.encodeURIComponent)
           _ _ _ _ _ _ H).
Defined.
